(** * Organizador de descargas: modelo y verificación

    Shallow embedding of the two organizing scripts of the repository,
    [02_watchdog_descargas.py] (module [Descargas]) and
    [03_typer_organizador.py] (module [Typer]): the extension classifier,
    the destination planner, the collision loop, the relocation itself and
    the sweeps, over an explicit model of the file tree, the log file and
    the standard output. *)

From Stdlib Require Import Ascii String.
From stdpp Require Import gmap strings list pretty sorting.

Local Open Scope string_scope.
Local Open Scope list_scope.
Local Open Scope nat_scope.
Local Open Scope stdpp_scope.

(** ** Python strings *)

(** [str.rfind(c)]: index of the last occurrence, [None] for Python's -1. *)
Fixpoint rfind (c : ascii) (s : string) : option nat :=
  match s with
  | EmptyString => None
  | String a r =>
      match rfind c r with
      | Some i => Some (S i)
      | None => if Ascii.eqb a c then Some 0 else None
      end
  end.

(** [name[:i]] and [name[i:]]. *)
Fixpoint hasta (i : nat) (s : string) : string :=
  match i, s with
  | S j, String a r => String a (hasta j r)
  | _, _ => EmptyString
  end.

Fixpoint desde (i : nat) (s : string) : string :=
  match i, s with
  | S j, String _ r => desde j r
  | _, _ => s
  end.

(** [PurePath.suffix] and [PurePath.stem] of a final path component: the
    last dot splits the name unless it is its first or its last character. *)
Definition punto_valido (name : string) (i : nat) : bool :=
  (0 <? i)%nat && (i <? String.length name - 1)%nat.

Definition suffix (name : string) : string :=
  match rfind "." name with
  | Some i => if punto_valido name i then desde i name else ""
  | None => ""
  end.

Definition stem (name : string) : string :=
  match rfind "." name with
  | Some i => if punto_valido name i then hasta i name else name
  | None => name
  end.

(** ASCII restriction of [str.lower], used to evaluate the model on
    concrete names. *)
Definition minuscula (c : ascii) : ascii :=
  let n := nat_of_ascii c in
  if (65 <=? n)%nat && (n <=? 90)%nat then ascii_of_nat (n + 32) else c.

Fixpoint minusculas (s : string) : string :=
  match s with
  | EmptyString => EmptyString
  | String a r => String (minuscula a) (minusculas r)
  end.

(** ** Paths and dates *)

(** A path is the list of its components below the filesystem root;
    [carpeta / nombre] appends one component. *)
Abbreviation Path := (list string).

Definition barra (carpeta : Path) (nombre : string) : Path := carpeta ++ [nombre].
Infix "//" := barra (at level 40, left associativity).

(** [Path.name] and [Path.parent]. *)
Definition name (p : Path) : string := List.last p "".
Definition parent (p : Path) : Path := removelast p.

(** [str(path)] on a POSIX host. *)
Definition str_ruta (p : Path) : string :=
  fold_right (fun c acc => "/" +:+ c +:+ acc) "" p.

(** The local calendar date of a modification time, as
    [datetime.fromtimestamp(st_mtime).date()] yields it. *)
Record fecha := Fecha { year : nat; month : nat; day : nat }.

(** The dates [datetime] can hold: years 1 to 9999. *)
Definition fecha_valida (f : fecha) : Prop :=
  (1 ≤ Z.of_nat (year f) ≤ 9999)%Z ∧ 1 ≤ month f ≤ 12 ∧ 1 ≤ day f ≤ 31.

Global Instance fecha_valida_dec (f : fecha) : Decision (fecha_valida f).
Proof. unfold fecha_valida. apply _. Defined.

Global Instance fecha_eq_dec : EqDecision fecha.
Proof. solve_decision. Defined.

(** ** The world the scripts act on *)

(** A tree entry: a directory or a regular file, both with the local date of
    their modification time; a file also has contents. *)
Inductive nodo :=
  | Directorio (m : fecha)
  | Archivo (m : fecha) (datos : string).

Definition mtime (n : nodo) : fecha :=
  match n with Directorio m => m | Archivo m _ => m end.

Definition es_directorio (n : nodo) : bool :=
  match n with Directorio _ => true | Archivo _ _ => false end.

Global Instance nodo_eq_dec : EqDecision nodo.
Proof. solve_decision. Defined.

(** The exceptions the modelled primitives raise. *)
Inductive excepcion :=
  | FileNotFoundError (p : Path)
  | FileExistsError (p : Path)
  | NotADirectoryError (p : Path)
  | IsADirectoryError (p : Path)
  | PermissionError (p : Path)
  | ShutilError (p : Path)
  | IndexError
  | ValueError (p : Path).

(** [arbol] is the file tree, keyed by path. [bloqueados] are the regular
    files that another program keeps locked: they can be read, but the
    operating system refuses to rename them, to remove them and to open
    them for writing (PermissionError); directories are never locked, and
    the scripts never change that set. [salida] is what was printed, oldest
    line first. *)
Record mundo := Mundo {
  arbol : gmap Path nodo;
  bloqueados : gset Path;
  salida : list string
}.

Definition con_arbol (m : gmap Path nodo) (w : mundo) : mundo :=
  Mundo m (bloqueados w) (salida w).

(** What the interpreter provides and the scripts do not determine:
    [str.lower], [Path.home()], the formatted [datetime.now()], today's
    date (the modification time of what gets created) and the text of an
    exception. *)
Class Python := {
  str_lower : string → string;
  Path_home : Path;
  ahora : string;
  hoy : fecha;
  str_exc : excepcion → string
}.

(** The line feed of Python's ["\n"]. *)
Definition nl : string := String "010"%char EmptyString.

(** A statement either completes with a value, raises, or exhausts the
    fuel of a [while] loop. *)
Inductive resultado (A : Type) :=
  | Normal (a : A) (w : mundo)
  | Lanza (e : excepcion) (w : mundo)
  | Agotado.
Arguments Normal {A} a w.
Arguments Lanza {A} e w.
Arguments Agotado {A}.

Definition M (A : Type) : Type := mundo → resultado A.

Definition ret {A} (a : A) : M A := λ w, Normal a w.

Definition bind {A B} (c : M A) (k : A → M B) : M B := λ w,
  match c w with
  | Normal a w' => k a w'
  | Lanza e w' => Lanza e w'
  | Agotado => Agotado
  end.

Definition lanzar {A} (e : excepcion) : M A := λ w, Lanza e w.

(** [try: c  except Exception as e: h e]. *)
Definition try_except {A} (c : M A) (h : excepcion → M A) : M A := λ w,
  match c w with
  | Lanza e w' => h e w'
  | r => r
  end.

Notation "x <- c ;; k" := (bind c (λ x, k))
  (at level 100, c at next level, right associativity).
Notation "c ;;; k" := (bind c (λ _, k))
  (at level 100, right associativity).

(** A [for] loop: the body is run on every element in turn and threads the
    loop's variables; an exception leaves the loop. *)
Fixpoint para_cada {A S} (cuerpo : A → S → M S) (l : list A) (s : S) : M S :=
  match l with
  | [] => ret s
  | x :: resto => s' <- cuerpo x s ;; para_cada cuerpo resto s'
  end.

(** The state after a statement, when it left one. *)
Definition estado {A} (r : resultado A) : option mundo :=
  match r with
  | Normal _ w | Lanza _ w => Some w
  | Agotado => None
  end.

(** *** Path queries *)

Definition exists_ (p : Path) : M bool := λ w,
  Normal (bool_decide (is_Some (arbol w !! p))) w.

Definition is_dir (p : Path) : M bool := λ w,
  Normal (match arbol w !! p with Some n => es_directorio n | None => false end) w.

Definition is_file (p : Path) : M bool := λ w,
  Normal (match arbol w !! p with Some n => negb (es_directorio n) | None => false end) w.

(** [datetime.fromtimestamp(p.stat().st_mtime).date()]. A modification
    time that falls outside the years [datetime] can hold makes
    [fromtimestamp] raise. *)
Definition stat_fecha (p : Path) : M fecha := λ w,
  match arbol w !! p with
  | Some n =>
      if bool_decide (fecha_valida (mtime n)) then Normal (mtime n) w
      else Lanza (ValueError p) w
  | None => Lanza (FileNotFoundError p) w
  end.

Definition print (linea : string) : M unit := λ w,
  Normal tt (Mundo (arbol w) (bloqueados w) (salida w ++ [linea])).

(** The direct children of a directory and all its descendants, as the
    listing the loop receives. The order is that of the map, which stands
    for the arbitrary order of the operating system. *)
Definition hijos (m : gmap Path nodo) (d : Path) : list Path :=
  filter (λ p, p ≠ [] ∧ parent p = d) (map_to_list m).*1.

Definition descendientes (m : gmap Path nodo) (d : Path) : list Path :=
  filter (λ p, d `prefix_of` p ∧ p ≠ d) (map_to_list m).*1.

(** [Path.iterdir()]: the names are read when the iteration starts. *)
Definition iterdir (d : Path) : M (list Path) := λ w,
  match arbol w !! d with
  | Some (Directorio _) => Normal (hijos (arbol w) d) w
  | Some (Archivo _ _) => Lanza (NotADirectoryError d) w
  | None => Lanza (FileNotFoundError d) w
  end.

(** [Path.rglob("*")]. The library walks the subtree while the loop runs
    and reads the names in a directory when the walk reaches it; the model
    takes the listing of the subtree as it is when the iteration starts.
    In a dry run, which adds nothing but empty directories, both yield the
    same regular files. In a real run the library can also yield a file at
    the place the loop has just given it, inside a folder made during the
    walk, which the listing taken at the start does not have. What is
    proved below of real runs with the recursive flag is what every turn
    of the loop keeps, whichever paths it is given; no number of files
    found and no final place of a file is stated for them, except over a
    tree whose folders are all there from the start
    ([recursivo_choca_consigo]). *)
Definition rglob (d : Path) : M (list Path) := λ w,
  Normal (descendientes (arbol w) d) w.

(** *** Primitives that change the tree *)

(** The non-empty prefixes of a path, shortest first. *)
Fixpoint prefijos_desde (base resto : Path) : list Path :=
  match resto with
  | [] => []
  | c :: r => (base ++ [c]) :: prefijos_desde (base ++ [c]) r
  end.

Definition prefijos (p : Path) : list Path := prefijos_desde [] p.

Definition es_archivo_en (m : gmap Path nodo) (q : Path) : bool :=
  match m !! q with Some (Archivo _ _) => true | _ => false end.

Definition crear_si_falta (d : fecha) (m : gmap Path nodo) (q : Path) : gmap Path nodo :=
  match m !! q with
  | None => <[q := Directorio d]> m
  | Some _ => m
  end.

(** [p.mkdir(parents=True, exist_ok=True)]: every missing prefix becomes a
    directory; a regular file on the way makes the call raise and leaves
    the tree as it was. *)
Definition mkdir_parents `{Python} (p : Path) : M unit := λ w,
  if existsb (es_archivo_en (arbol w)) (prefijos p) then
    Lanza (if es_archivo_en (arbol w) p then FileExistsError p
           else NotADirectoryError p) w
  else Normal tt (con_arbol (foldl (crear_si_falta hoy) (arbol w) (prefijos p)) w).

(** Entries at or below [src] reappear at or below [dst]. *)
Definition trasladar (src dst : Path) (m : gmap Path nodo) : gmap Path nodo :=
  match m !! src with
  | Some (Archivo f d) => <[dst := Archivo f d]> (delete src m)
  | Some (Directorio _) =>
      list_to_map
        (prod_map (λ k, dst ++ drop (length src) k) id <$>
           map_to_list (filter (λ kv, src `prefix_of` kv.1) m))
      ∪ filter (λ kv, ¬ src `prefix_of` kv.1) m
  | None => m
  end.

Definition es_dir_en (m : gmap Path nodo) (q : Path) : bool :=
  match m !! q with Some n => es_directorio n | None => false end.

(** [shutil.move(src, dst)]. An existing directory as [dst] receives the
    source inside it; an existing regular file at the final place is
    replaced, which is what a rename (or the copy that stands in for it)
    does. The function first tries [os.rename]; when that is refused it
    copies a regular file to its new place ([copy2], which keeps the
    modification time) and then removes the source. For a locked file the
    rename is refused, the copy is made, and the removal raises
    PermissionError: the file is then in both places. *)
Definition shutil_move (src dst : Path) : M unit := λ w,
  let m := arbol w in
  if es_dir_en m dst && bool_decide (src = dst) then Normal tt w
  else
    let real_dst := if es_dir_en m dst then dst // name src else dst in
    if es_dir_en m dst && bool_decide (is_Some (m !! real_dst)) then
      Lanza (ShutilError real_dst) w
    else
      match m !! src with
      | None => Lanza (FileNotFoundError src) w
      | Some (Directorio _) =>
          if bool_decide (src `prefix_of` real_dst) then
            Lanza (ShutilError real_dst) w
          else if negb (es_dir_en m (parent real_dst)) then
            Lanza (FileNotFoundError real_dst) w
          else Normal tt (con_arbol (trasladar src real_dst m) w)
      | Some (Archivo f d) =>
          if negb (es_dir_en m (parent real_dst)) then
            Lanza (FileNotFoundError real_dst) w
          else if bool_decide (src ∈ bloqueados w) then
            if bool_decide (src = real_dst) then Lanza (ShutilError real_dst) w
            else Lanza (PermissionError src)
                   (con_arbol (<[real_dst := Archivo f d]> m) w)
          else Normal tt (con_arbol (trasladar src real_dst m) w)
      end.

(** [with p.open("a") as f: f.write(texto)]. *)
Definition anadir `{Python} (p : Path) (texto : string) : M unit := λ w,
  let m := arbol w in
  if bool_decide (p ∈ bloqueados w) then Lanza (PermissionError p) w
  else
    match m !! p with
    | Some (Directorio _) => Lanza (IsADirectoryError p) w
    | Some (Archivo _ d) =>
        Normal tt (con_arbol (<[p := Archivo hoy (d +:+ texto)]> m) w)
    | None =>
        if es_dir_en m (parent p) then
          Normal tt (con_arbol (<[p := Archivo hoy texto]> m) w)
        else Lanza (FileNotFoundError p) w
    end.

(** [lista[i]] with Python's negative indices. *)
Definition indice {A} (l : list A) (i : Z) : M A := λ w,
  let n := Z.of_nat (length l) in
  let j := if (i <? 0)%Z then (i + n)%Z else i in
  if (j <? 0)%Z then Lanza IndexError w
  else match l !! Z.to_nat j with
       | Some x => Normal x w
       | None => Lanza IndexError w
       end.

(** [time.sleep]: the model has a single thread of control, so waiting
    changes nothing. *)
Definition time_sleep (segundos : nat) : M unit := ret tt.

(** The collision loop shared by both scripts:
    [while destino.exists(): destino = carpeta_destino /
    f"{stem}_{contador}{suffix}"; contador += 1]. *)
Definition candidato (carpeta_destino archivo : Path) (contador : nat) : Path :=
  carpeta_destino //
    (stem (name archivo) +:+ "_" +:+ pretty contador +:+ suffix (name archivo)).

Fixpoint mientras_existe (fuel : nat) (carpeta_destino archivo destino : Path)
    (contador : nat) : M Path :=
  match fuel with
  | 0 => λ _, Agotado
  | S fuel' =>
      e <- exists_ destino ;;
      if e : bool then
        mientras_existe fuel' carpeta_destino archivo
          (candidato carpeta_destino archivo contador) (S contador)
      else ret destino
  end.

(** The loop is run with one more unit of fuel than the tree has entries. *)
Definition destino_libre (carpeta_destino archivo : Path) : M Path := λ w,
  mientras_existe (S (size (arbol w))) carpeta_destino archivo
    (carpeta_destino // name archivo) 1 w.

(** ** 02_watchdog_descargas.py *)

Module Descargas.
Section script.
Context `{Python}.

Definition CARPETA_DESCARGAS : Path := Path_home // "Downloads".
Definition CARPETA_ORDENADA : Path := CARPETA_DESCARGAS.
Definition FICHERO_LOG : Path := CARPETA_DESCARGAS // "_watchdog_descargas.log".

Definition EXTENSIONES_TEMPORALES : gset string :=
  {[ ".crdownload"; ".part"; ".tmp" ]}.

Definition EXT_DOCS : gset string :=
  {[ ".pdf"; ".txt"; ".doc"; ".docx"; ".ppt"; ".pptx"; ".vtt"; ".odt";
     ".rtf"; ".epub"; ".md"; ".srt" ]}.
Definition EXT_IMG : gset string :=
  {[ ".jpg"; ".jpeg"; ".png"; ".gif"; ".bmp"; ".tiff"; ".webp" ]}.
Definition EXT_VIDEO : gset string :=
  {[ ".mp4"; ".mkv"; ".avi"; ".mov"; ".wmv"; ".flv"; ".webm" ]}.
Definition EXT_COMP : gset string :=
  {[ ".zip"; ".rar"; ".7z"; ".gz"; ".tar"; ".bz2"; ".xz" ]}.
Definition EXT_DATOS : gset string :=
  {[ ".xls"; ".xlsx"; ".xlsm"; ".ods"; ".csv"; ".tsv"; ".sql"; ".sqlite";
     ".db"; ".mdb"; ".accdb"; ".dump"; ".bak"; ".parquet"; ".feather";
     ".orc" ]}.
Definition EXT_SCRIPTS : gset string :=
  {[ ".py"; ".ipynb"; ".js"; ".ts"; ".json"; ".rs"; ".c"; ".cpp"; ".cxx";
     ".h"; ".hpp"; ".html"; ".htm"; ".css"; ".sh"; ".bat"; ".ps1" ]}.

Definition MESES_ES : list string :=
  [ "enero"; "febrero"; "marzo"; "abril"; "mayo"; "junio"; "julio";
    "agosto"; "septiembre"; "octubre"; "noviembre"; "diciembre" ].

Definition categoria_para_extension (sufijo : string) : string :=
  let sufijo := str_lower sufijo in
  if bool_decide (sufijo ∈ EXT_DATOS) then "datos"
  else if bool_decide (sufijo ∈ EXT_DOCS) then "documentos"
  else if bool_decide (sufijo ∈ EXT_IMG) then "imagenes"
  else if bool_decide (sufijo ∈ EXT_VIDEO) then "videos"
  else if bool_decide (sufijo ∈ EXT_COMP) then "comprimidos"
  else if bool_decide (sufijo ∈ EXT_SCRIPTS) then "scripts"
  else "otros".

(** The line a message becomes in the log file. *)
Definition linea_log (mensaje : string) : string :=
  "[" +:+ ahora +:+ "] " +:+ mensaje +:+ nl.

Definition escribir_log (mensaje : string) : M unit :=
  try_except
    (mkdir_parents (parent FICHERO_LOG) ;;;
     anadir FICHERO_LOG (linea_log mensaje))
    (λ _, ret tt).

Definition quincena_de (f : fecha) : string :=
  if day f <=? 15 then "1-15" else "16-31".

Definition mover_y_organizar (ruta_archivo : Path) : M unit :=
  e <- exists_ ruta_archivo ;;
  if negb e then ret tt
  else
    let sufijo := str_lower (suffix (name ruta_archivo)) in
    let categoria := categoria_para_extension sufijo in
    fecha <- stat_fecha ruta_archivo ;;
    let anio := pretty (year fecha) in
    nombre_mes <- indice MESES_ES (Z.of_nat (month fecha) - 1) ;;
    let quincena := quincena_de fecha in
    let carpeta_destino :=
      CARPETA_ORDENADA // categoria // anio // nombre_mes // quincena in
    mkdir_parents carpeta_destino ;;;
    destino <- destino_libre carpeta_destino ruta_archivo ;;
    let mensaje :=
      "MOVER " +:+ str_ruta ruta_archivo +:+ " -> " +:+ str_ruta destino in
    print ("[MOVER] " +:+ str_ruta ruta_archivo +:+ " -> " +:+ str_ruta destino) ;;;
    escribir_log mensaje ;;;
    shutil_move ruta_archivo destino.

Definition es_temporal (p : Path) : bool :=
  bool_decide (str_lower (suffix (name p)) ∈ EXTENSIONES_TEMPORALES).

Definition _procesar_archivo_nuevo (ruta_archivo : Path) : M unit :=
  if bool_decide (ruta_archivo = FICHERO_LOG) then ret tt
  else if es_temporal ruta_archivo then ret tt
  else
    time_sleep 1 ;;;
    try_except (mover_y_organizar ruta_archivo)
      (λ e, print ("[ERROR] No se pudo mover " +:+ str_ruta ruta_archivo
                   +:+ ": " +:+ str_exc e)).

(** A notification of the watch service. *)
Record evento := Evento {
  is_directory : bool;
  src_path : Path;
  dest_path : Path
}.

Definition on_created (event : evento) : M unit :=
  if is_directory event then ret tt
  else _procesar_archivo_nuevo (src_path event).

Definition on_moved (event : evento) : M unit :=
  if is_directory event then ret tt
  else _procesar_archivo_nuevo (dest_path event).

(** The body of the [for] loop of [procesar_archivos_existentes], as a
    function of the path and of the two counters [total_encontrados] and
    [total_movidos]. *)
Definition cuerpo (ruta : Path) (cuenta : nat * nat) : M (nat * nat) :=
  let total_encontrados := cuenta.1 in
  let total_movidos := cuenta.2 in
  d <- is_dir ruta ;;
  if d : bool then ret cuenta
  else if bool_decide (ruta = FICHERO_LOG) then ret cuenta
  else if es_temporal ruta then ret cuenta
  else
    let total_encontrados := S total_encontrados in
    try_except
      (mover_y_organizar ruta ;;;
       ret (total_encontrados, S total_movidos))
      (λ e,
         print ("[ERROR] No se pudo mover existente " +:+ str_ruta ruta
                +:+ ": " +:+ str_exc e) ;;;
         escribir_log ("ERROR al mover existente " +:+ str_ruta ruta
                       +:+ ": " +:+ str_exc e) ;;;
         ret (total_encontrados, total_movidos)).

(** The function prints its two counters and returns nothing; the model
    returns them as well. *)
Definition procesar_archivos_existentes : M (nat * nat) :=
  print (nl +:+ "[INICIO] Procesando archivos existentes en Descargas...") ;;;
  pendientes <- iterdir CARPETA_DESCARGAS ;;
  cuenta <- para_cada cuerpo pendientes (0, 0) ;;
  print ("[FIN] Archivos existentes encontrados: " +:+ pretty cuenta.1
         +:+ ", movidos: " +:+ pretty cuenta.2 +:+ nl) ;;;
  ret cuenta.

(** [main] up to the point where the watch service takes over. What
    follows the initial sweep (starting the observer, sleeping until the
    keyboard interrupt, stopping and joining it) depends on the watch
    service and on what other programs do to the folder meanwhile; it is
    the parameter [vigilar]. *)
Definition main (vigilar : M unit) : M unit :=
  e <- exists_ CARPETA_DESCARGAS ;;
  if negb e then
    print ("La carpeta de descargas no existe: " +:+ str_ruta CARPETA_DESCARGAS)
  else
    print ("Vigilando la carpeta de descargas: " +:+ str_ruta CARPETA_DESCARGAS) ;;;
    print "Los archivos se organizarán en subcarpetas por tipo, año, mes y quincena dentro de Descargas." ;;;
    print ("Primero se organizarán los archivos que ya están en Descargas y luego se vigilarán los nuevos." +:+ nl) ;;;
    procesar_archivos_existentes ;;;
    vigilar.

End script.
End Descargas.

(** ** 03_typer_organizador.py *)

Module Typer.
Section script.
Context `{Python}.

Definition EXTENSIONES_TEMPORALES : gset string :=
  {[ ".crdownload"; ".part"; ".tmp" ]}.

Definition EXT_DOCS : gset string :=
  {[ ".pdf"; ".txt"; ".doc"; ".docx"; ".ppt"; ".pptx" ]}.
Definition EXT_IMG : gset string :=
  {[ ".jpg"; ".jpeg"; ".png"; ".gif"; ".bmp"; ".tiff"; ".webp" ]}.
Definition EXT_VIDEO : gset string :=
  {[ ".mp4"; ".mkv"; ".avi"; ".mov"; ".wmv"; ".flv"; ".webm" ]}.
Definition EXT_COMP : gset string :=
  {[ ".zip"; ".rar"; ".7z"; ".gz"; ".tar"; ".bz2"; ".xz" ]}.
Definition EXT_DATOS : gset string :=
  {[ ".xls"; ".xlsx"; ".xlsm"; ".ods"; ".csv"; ".tsv"; ".sql"; ".sqlite";
     ".db"; ".mdb"; ".accdb"; ".dump"; ".bak"; ".parquet"; ".feather";
     ".orc" ]}.
Definition EXT_SCRIPTS : gset string :=
  {[ ".py"; ".ipynb"; ".js"; ".ts"; ".rs"; ".c"; ".cpp"; ".cxx"; ".h";
     ".hpp"; ".html"; ".htm"; ".css"; ".sh"; ".bat"; ".ps1" ]}.

Definition MESES_ES : list string :=
  [ "enero"; "febrero"; "marzo"; "abril"; "mayo"; "junio"; "julio";
    "agosto"; "septiembre"; "octubre"; "noviembre"; "diciembre" ].

Definition categoria_para_extension (sufijo : string) : string :=
  let sufijo := str_lower sufijo in
  if bool_decide (sufijo ∈ EXT_DATOS) then "datos"
  else if bool_decide (sufijo ∈ EXT_DOCS) then "documentos"
  else if bool_decide (sufijo ∈ EXT_IMG) then "imagenes"
  else if bool_decide (sufijo ∈ EXT_VIDEO) then "videos"
  else if bool_decide (sufijo ∈ EXT_COMP) then "comprimidos"
  else if bool_decide (sufijo ∈ EXT_SCRIPTS) then "scripts"
  else "otros".

(** The listing behind the generator of [iterar_archivos]. Its filter
    [p.is_file()] runs when the loop asks for the next path, so it is part
    of the loop body below. *)
Definition iterar_archivos (carpeta : Path) (recursivo : bool) : M (list Path) :=
  if recursivo then rglob carpeta else iterdir carpeta.

Definition quincena_de (f : fecha) : string :=
  if day f <=? 15 then "1-15" else "16-31".

Definition destino_para_archivo (archivo carpeta_base : Path) : M Path :=
  let sufijo := str_lower (suffix (name archivo)) in
  let categoria := categoria_para_extension sufijo in
  fecha <- stat_fecha archivo ;;
  let anio := pretty (year fecha) in
  nombre_mes <- indice MESES_ES (Z.of_nat (month fecha) - 1) ;;
  let quincena := quincena_de fecha in
  ret (carpeta_base // categoria // anio // nombre_mes // quincena).

Definition es_temporal (p : Path) : bool :=
  bool_decide (str_lower (suffix (name p)) ∈ EXTENSIONES_TEMPORALES).

Definition echo : string → M unit := print.

(** The body of the [for] loop of [organizar], as a function of the path
    and of the two counters [total] and [movidos]. *)
Definition cuerpo (carpeta : Path) (dry_run : bool) (archivo : Path)
    (cuenta : nat * nat) : M (nat * nat) :=
  let total := cuenta.1 in
  let movidos := cuenta.2 in
  f <- is_file archivo ;;
  if negb f then ret cuenta
  else if es_temporal archivo then ret cuenta
  else
    let total := S total in
    carpeta_destino <- destino_para_archivo archivo carpeta ;;
    mkdir_parents carpeta_destino ;;;
    destino <- destino_libre carpeta_destino archivo ;;
    if dry_run then
      echo ("[SIMULAR] " +:+ str_ruta archivo +:+ " -> " +:+ str_ruta destino) ;;;
      ret (total, movidos)
    else
      echo ("[MOVER] " +:+ str_ruta archivo +:+ " -> " +:+ str_ruta destino) ;;;
      shutil_move archivo destino ;;;
      ret (total, S movidos).

(** The command prints its two counters; the model returns them as well. *)
Definition organizar (carpeta : Path) (recursivo dry_run : bool) : M (nat * nat) :=
  echo ("Carpeta base: " +:+ str_ruta carpeta) ;;;
  (if dry_run then echo "Modo: simulación (no se moverán archivos)" else ret tt) ;;;
  (if recursivo then echo "Recorrido: recursivo (incluye subcarpetas)" else ret tt) ;;;
  pendientes <- iterar_archivos carpeta recursivo ;;
  cuenta <- para_cada (cuerpo carpeta dry_run) pendientes (0, 0) ;;
  echo (nl +:+ "Archivos analizados: " +:+ pretty cuenta.1) ;;;
  (if dry_run then echo ("Movimientos simulados: " +:+ pretty cuenta.1)
   else echo ("Archivos movidos: " +:+ pretty cuenta.2)) ;;;
  ret cuenta.

End script.
End Typer.

(** ** A concrete interpreter, for evaluation *)

Definition python_ascii : Python := {|
  str_lower := minusculas;
  Path_home := ["u"];
  ahora := "2024-03-20 10:00:00";
  hoy := Fecha 2024 3 20;
  str_exc := λ e,
    match e with
    | FileNotFoundError p => "No such file or directory: " +:+ str_ruta p
    | FileExistsError p => "File exists: " +:+ str_ruta p
    | NotADirectoryError p => "Not a directory: " +:+ str_ruta p
    | IsADirectoryError p => "Is a directory: " +:+ str_ruta p
    | PermissionError p => "Permission denied: " +:+ str_ruta p
    | ShutilError p => "Destination path already exists: " +:+ str_ruta p
    | IndexError => "list index out of range"
    | ValueError p => "year is out of range"
    end
|}.

Definition descargas : Path := ["u"; "Downloads"].

Definition mundo0 : mundo :=
  Mundo (list_to_map
           [ (["u"], Directorio (Fecha 2024 1 1));
             (descargas, Directorio (Fecha 2024 3 1));
             (descargas // "report.pdf", Archivo (Fecha 2024 3 10) "uno");
             (descargas // "notas.TXT", Archivo (Fecha 2024 3 10) "tres");
             (descargas // "x.crdownload", Archivo (Fecha 2024 3 10) "dos") ])
        ∅ [].

(** Two files named "photo.jpg" with the same date, in two directories. *)
Definition mundo_fotos : mundo :=
  Mundo (list_to_map
           [ (["u"], Directorio (Fecha 2024 1 1));
             (descargas, Directorio (Fecha 2024 3 1));
             (descargas // "photo.jpg", Archivo (Fecha 2024 3 10) "playa");
             (descargas // "viaje", Directorio (Fecha 2024 3 1));
             (descargas // "viaje" // "photo.jpg",
              Archivo (Fecha 2024 3 10) "monte") ])
        ∅ [].

(** The value a statement completes with, and the exception it raises. *)
Definition valor {A} (r : resultado A) : option A :=
  match r with Normal a _ => Some a | _ => None end.

Definition lanzada {A} (r : resultado A) : option excepcion :=
  match r with Lanza e _ => Some e | _ => None end.

(** The state a statement ends in, [w0] when it has none. *)
Definition mundo_final {A} (w0 : mundo) (r : resultado A) : mundo :=
  match r with
  | Normal _ w | Lanza _ w => w
  | Agotado => w0
  end.

(** Two documents in the downloads folder; the one the listing yields
    first cannot be renamed. *)
Definition mundo_dos : mundo :=
  Mundo (list_to_map
           [ (["u"], Directorio (Fecha 2024 1 1));
             (descargas, Directorio (Fecha 2024 3 1));
             (descargas // "a.pdf", Archivo (Fecha 2024 3 10) "uno");
             (descargas // "b.pdf", Archivo (Fecha 2024 3 10) "dos") ])
        {[ descargas // "b.pdf" ]} [].

(** A downloads folder with one document, and one whose only document
    cannot be renamed. *)
Definition mundo_uno : mundo :=
  Mundo (list_to_map
           [ (["u"], Directorio (Fecha 2024 1 1));
             (descargas, Directorio (Fecha 2024 3 1));
             (descargas // "report.pdf", Archivo (Fecha 2024 3 10) "uno") ])
        ∅ [].

Definition mundo_bloqueado : mundo :=
  Mundo (arbol mundo_uno) {[ descargas // "report.pdf" ]} [].


(** A tree that already holds "report.pdf" and "report_1.pdf". *)
Definition mundo_lleno : mundo :=
  Mundo (list_to_map
           [ (descargas // "report.pdf", Archivo (Fecha 2024 3 10) "a");
             (descargas // "report_1.pdf", Archivo (Fecha 2024 3 11) "b") ])
        ∅ [].

(** ** The classifier as the specification words it *)

(** The first category, in the given order, whose set holds the extension;
    ["otros"] when none does. *)
Definition primera_categoria (tabla : list (string * gset string))
    (extension : string) : string :=
  match List.find (λ ce, bool_decide (extension ∈ ce.2)) tabla with
  | Some ce => ce.1
  | None => "otros"
  end.

Definition prioridad_descargas : list (string * gset string) :=
  [ ("datos", Descargas.EXT_DATOS); ("documentos", Descargas.EXT_DOCS);
    ("imagenes", Descargas.EXT_IMG); ("videos", Descargas.EXT_VIDEO);
    ("comprimidos", Descargas.EXT_COMP); ("scripts", Descargas.EXT_SCRIPTS) ].

Definition prioridad_typer : list (string * gset string) :=
  [ ("datos", Typer.EXT_DATOS); ("documentos", Typer.EXT_DOCS);
    ("imagenes", Typer.EXT_IMG); ("videos", Typer.EXT_VIDEO);
    ("comprimidos", Typer.EXT_COMP); ("scripts", Typer.EXT_SCRIPTS) ].

Definition categorias : list string :=
  [ "datos"; "documentos"; "imagenes"; "videos"; "comprimidos"; "scripts";
    "otros" ].

(** The extensions that only the watch script knows. *)
Definition solo_en_descargas : gset string :=
  {[ ".vtt"; ".odt"; ".rtf"; ".epub"; ".md"; ".srt"; ".json" ]}.

(** ** States the proofs refer to *)

(** The world after one more printed line. *)
Definition con_linea (linea : string) (w : mundo) : mundo :=
  Mundo (arbol w) (bloqueados w) (salida w ++ [linea]).

(** The tree after a regular file went from [src] to a free [dst]. *)
Definition mudado (src dst : Path) (n : nodo) (m : gmap Path nodo) : gmap Path nodo :=
  <[dst := n]> (delete src m).

(** The world after a line was appended to the log file, when the file can
    be written; the same world when it cannot. *)
Definition registrar `{Python} (linea : string) (w : mundo) : mundo :=
  if bool_decide (Descargas.FICHERO_LOG ∈ bloqueados w) then w
  else
    match arbol w !! Descargas.FICHERO_LOG with
    | Some (Directorio _) => w
    | Some (Archivo _ d) =>
        con_arbol (<[Descargas.FICHERO_LOG := Archivo hoy (d +:+ linea)]> (arbol w)) w
    | None =>
        if es_dir_en (arbol w) (parent Descargas.FICHERO_LOG) then
          con_arbol (<[Descargas.FICHERO_LOG := Archivo hoy linea]> (arbol w)) w
        else w
    end.

(** The contents of the log file; empty while there is none. *)
Definition contenido_log `{Python} (w : mundo) : string :=
  match arbol w !! Descargas.FICHERO_LOG with
  | Some (Archivo _ d) => d
  | _ => ""
  end.

(** ** The names the collision loop tries *)

(** Attempt 0 is the file's own name; attempt [k] for positive [k] is
    stem, "_", [k] in decimal, suffix. *)
Definition intento (carpeta_destino archivo : Path) (k : nat) : Path :=
  match k with
  | 0 => carpeta_destino // name archivo
  | S _ => candidato carpeta_destino archivo k
  end.

(** ** What a safe relocation is *)

(** Every entry of [w] outside [salvo] is in [w'] as it was. *)
Definition conserva (salvo : list Path) (w w' : mundo) : Prop :=
  ∀ p x, p ∉ salvo → arbol w !! p = Some x → arbol w' !! p = Some x.

(** Every entry of [w'] outside [salvo] was in [w] as it is, or is a
    directory, or is the entry [n] at [destino]. *)
Definition solo_llega (salvo : list Path) (destino : Path) (n : nodo)
    (w w' : mundo) : Prop :=
  ∀ q x, q ∉ salvo → arbol w' !! q = Some x →
    arbol w !! q = Some x ∨ es_directorio x = true ∨ (q = destino ∧ x = n).

(** Nothing stands in the way of relocating [archivo] into [cd]: the file
    is not locked, and no regular file sits at [cd] or above it. *)
Definition via_libre (archivo cd : Path) (w : mundo) : Prop :=
  (archivo ∉ bloqueados w)
  ∧ ∀ q, q ∈ prefijos cd → es_archivo_en (arbol w) q = false.

(** The outcome [r] of relocating the entry [n] found at [archivo] towards
    the directory [cd], from the world [w]. Attempt [k] is the first that
    was free in [w]. On completion the entry sits there, it left its old
    place, [cd] is a directory, everything else outside [salvo] is as it
    was and nothing else arrived. An exception is raised only when
    something stood in the way; then nothing outside [salvo] changed, the
    entry included, and at most a copy of it arrived at attempt [k]. The
    fuel never runs out. *)
Definition paso_seguro {A} (salvo : list Path) (archivo cd : Path) (n : nodo)
    (w : mundo) (r : resultado A) : Prop :=
  ∃ k, arbol w !! intento cd archivo k = None
     ∧ (∀ j, j < k → is_Some (arbol w !! intento cd archivo j))
     ∧ match r with
       | Normal _ w' =>
           arbol w' !! intento cd archivo k = Some n
           ∧ arbol w' !! archivo = None
           ∧ conserva (archivo :: salvo) w w'
           ∧ solo_llega salvo (intento cd archivo k) n w w'
           ∧ bloqueados w' = bloqueados w
           ∧ ∀ q, q ∈ prefijos cd → es_dir_en (arbol w') q = true
       | Lanza _ w' =>
           ¬ via_libre archivo cd w
           ∧ conserva salvo w w'
           ∧ solo_llega salvo (intento cd archivo k) n w w'
           ∧ bloqueados w' = bloqueados w
       | Agotado => False
       end.

(** Every entry of [w'] outside [salvo] was already in [w], or is a
    directory, or lies five levels below [carpeta], where relocated files
    go. *)
Definition nuevos (salvo : list Path) (carpeta : Path) (w w' : mundo) : Prop :=
  ∀ q x, q ∉ salvo → arbol w' !! q = Some x →
    arbol w !! q = Some x ∨ es_directorio x = true
    ∨ length q = 5 + length carpeta.

(** A regular file that is not a partial download. *)
Definition elegible_typer `{Python} (w : mundo) (p : Path) : Prop :=
  ∃ f d, arbol w !! p = Some (Archivo f d) ∧ Typer.es_temporal p = false.

(** What one turn of the command-line loop may do to the world. *)
Definition efecto_typer `{Python} (carpeta archivo : Path) (dry_run : bool)
    (w : mundo) (r : resultado (nat * nat)) : Prop :=
  match r with
  | Normal _ w' =>
      conserva [archivo] w w' ∧ nuevos [] carpeta w w'
      ∧ bloqueados w' = bloqueados w
      ∧ (elegible_typer w archivo → dry_run = false →
         arbol w' !! archivo = None)
  | Lanza _ w' =>
      conserva [] w w' ∧ nuevos [] carpeta w w'
      ∧ bloqueados w' = bloqueados w
  | Agotado => False
  end.

(** A regular file of the watch sweep: not the log, not a partial download. *)
Definition elegible_descargas `{Python} (w : mundo) (p : Path) : Prop :=
  ∃ f d, arbol w !! p = Some (Archivo f d)
       ∧ p ≠ Descargas.FICHERO_LOG ∧ Descargas.es_temporal p = false.

(** What [mover_y_organizar] may do to the world. *)
Definition efecto_mover `{Python} (ruta : Path) (w : mundo)
    (r : resultado unit) : Prop :=
  match r with
  | Normal _ w' =>
      conserva [ruta; Descargas.FICHERO_LOG] w w'
      ∧ nuevos [Descargas.FICHERO_LOG] Descargas.CARPETA_DESCARGAS w w'
      ∧ bloqueados w' = bloqueados w
      ∧ (is_Some (arbol w !! ruta) → arbol w' !! ruta = None)
  | Lanza _ w' =>
      conserva [Descargas.FICHERO_LOG] w w'
      ∧ nuevos [Descargas.FICHERO_LOG] Descargas.CARPETA_DESCARGAS w w'
      ∧ bloqueados w' = bloqueados w
  | Agotado => False
  end.

(** What one turn of the watch script's sweep may do: it always completes;
    the second counter never grows faster than the first, and when both
    grew alike an eligible file is gone from its place. *)
Definition efecto_descargas `{Python} (ruta : Path) (cuenta : nat * nat)
    (w : mundo) (r : resultado (nat * nat)) : Prop :=
  match r with
  | Normal c w' =>
      conserva [ruta; Descargas.FICHERO_LOG] w w'
      ∧ nuevos [Descargas.FICHERO_LOG] Descargas.CARPETA_DESCARGAS w w'
      ∧ bloqueados w' = bloqueados w
      ∧ cuenta.1 ≤ c.1 ∧ cuenta.2 ≤ c.2
      ∧ c.2 + cuenta.1 ≤ c.1 + cuenta.2
      ∧ (elegible_descargas w ruta → c.2 + cuenta.1 = c.1 + cuenta.2 →
         arbol w' !! ruta = None)
  | Lanza _ _ => False
  | Agotado => False
  end.

(** The log file can be written and the downloads folder is there. *)
Definition log_escribible `{Python} (w : mundo) : Prop :=
  (Descargas.FICHERO_LOG ∉ bloqueados w)
  ∧ es_dir_en (arbol w) Descargas.FICHERO_LOG = false
  ∧ ∀ q, q ∈ prefijos Descargas.CARPETA_DESCARGAS → es_dir_en (arbol w) q = true.

(** The two lines the watch script writes about a relocation. *)
Definition linea_mover `{Python} (ruta destino : Path) : string :=
  Descargas.linea_log
    ("MOVER " +:+ str_ruta ruta +:+ " -> " +:+ str_ruta destino).

Definition linea_error `{Python} (ruta : Path) (e : excepcion) : string :=
  Descargas.linea_log
    ("ERROR al mover existente " +:+ str_ruta ruta +:+ ": " +:+ str_exc e).

(** No regular file that the command line would relocate is left among the
    children of [carpeta]. *)
Definition limpio_typer `{Python} (carpeta : Path) (w : mundo) : Prop :=
  ∀ q, q ∈ hijos (arbol w) carpeta → ¬ elegible_typer w q.

(** No regular file that the watch script would relocate is left among the
    children of the downloads folder. *)
Definition limpio_descargas `{Python} (w : mundo) : Prop :=
  ∀ q, q ∈ hijos (arbol w) Descargas.CARPETA_DESCARGAS →
       ¬ elegible_descargas w q.

(** [w'] has every entry of [w] as it was, and nothing more than new
    directories. *)
Definition solo_carpetas (w w' : mundo) : Prop :=
  conserva [] w w'
  ∧ ∀ q x, arbol w' !! q = Some x →
           arbol w !! q = Some x ∨ es_directorio x = true.

(** ** Further notions: the log and what is left alone *)

(** The log file only grew between [w] and [w']: its old contents open the
    new ones, and if it was a regular file it still is one. *)
Definition log_crece `{Python} (w w' : mundo) : Prop :=
  (∃ s, contenido_log w' = contenido_log w +:+ s)
  ∧ (es_archivo_en (arbol w) Descargas.FICHERO_LOG = true →
     es_archivo_en (arbol w') Descargas.FICHERO_LOG = true).

(** The statement [c] always comes to an end, by returning or by raising:
    the fuel of its loops never runs out. *)
Definition termina {A} (c : M A) : Prop := ∀ w, c w ≠ Agotado.

(** ** The files a sweep counts *)

(** A regular file that the sweep of the watch script counts: not the log,
    not a partial download. *)
Definition trasladable_descargas `{Python} (w : mundo) (p : Path) : bool :=
  es_archivo_en (arbol w) p
  && negb (bool_decide (p = Descargas.FICHERO_LOG))
  && negb (Descargas.es_temporal p).

(** A regular file that the command line counts: not a partial download. *)
Definition trasladable_typer `{Python} (w : mundo) (p : Path) : bool :=
  es_archivo_en (arbol w) p && negb (Typer.es_temporal p).

(** The listing [iterar_archivos] walks, read off the tree. *)
Definition listado (recursivo : bool) (m : gmap Path nodo) (carpeta : Path)
    : list Path :=
  if recursivo then descendientes m carpeta else hijos m carpeta.

(** The sets of a table of categories are pairwise disjoint. *)
Fixpoint separadas (tabla : list (string * gset string)) : bool :=
  match tabla with
  | [] => true
  | ce :: resto =>
      forallb (λ ce', bool_decide (ce.2 ## ce'.2)) resto && separadas resto
  end.

(** ** What the regular files hold *)

(** The modification dates and contents of the regular files of a tree, as
    a list with repetitions, without the files at the paths [omite]. *)
Definition contenidos (omite : list Path) (m : gmap Path nodo)
    : list (fecha * string) :=
  omap (λ kv, match kv.2 with
              | Archivo f d => if decide (kv.1 ∈ omite) then None else Some (f, d)
              | Directorio _ => None
              end) (map_to_list m).

(** The regular files of [m'] hold what those of [m] hold, or that and
    one more copy of one of them. *)
Definition igual_o_una_copia (omite : list Path) (m m' : gmap Path nodo)
    : Prop :=
  contenidos omite m' ≡ₚ contenidos omite m
  ∨ ∃ x, x ∈ contenidos omite m
       ∧ contenidos omite m' ≡ₚ x :: contenidos omite m.

(** ** What lies outside the folder *)

(** Between [w] and [w'] nothing changed outside the subtree of [carpeta],
    except that a missing ancestor of [carpeta] may have been created as a
    directory. *)
Definition intacto_fuera (carpeta : Path) (w w' : mundo) : Prop :=
  ∀ q, ¬ carpeta `prefix_of` q →
    arbol w' !! q = arbol w !! q
    ∨ (arbol w !! q = None ∧ q `prefix_of` carpeta
       ∧ ∃ f, arbol w' !! q = Some (Directorio f)).

(** ** 04_qr_studio_rich.py *)

Module QRStudio.

(** What the pure path operations raise. *)
Inductive error_ruta :=
  | ValueError (p : Path).

(** [PurePath.with_suffix(sufijo)], for a suffix that is well formed (it
    starts with a dot and has no separator, as ".png"): a path whose name
    is empty is refused; otherwise the old suffix, if there is one, gives
    way to the new one. *)
Definition with_suffix (p : Path) (sufijo : string) : error_ruta + Path :=
  if bool_decide (name p = "") then inl (ValueError p)
  else inr (parent p // (stem (name p) +:+ sufijo)).

Definition _ensure_png_extension (path : Path) : error_ruta + Path :=
  if bool_decide (suffix (name path) ≠ "") then inr path
  else with_suffix path ".png".

(** *** Colours *)

Record colores := Colores { dark : string; light : string }.

Definition TEMPLATES : gmap string colores :=
  list_to_map
    [ ("ocean", Colores "#0e3a5d" "#d7f0ff");
      ("sunset", Colores "#5c1e1e" "#ffe3c1");
      ("forest", Colores "#1f3b2f" "#e7f3ea");
      ("mono", Colores "#111111" "#ffffff") ].

(** [x or y] for an optional text [x]: [None] and the empty text are
    false. *)
Definition python_or (x : option string) (y : string) : string :=
  match x with
  | Some s => if bool_decide (s = "") then y else s
  | None => y
  end.

Definition _resolve_colors (template : string) (dark_ light_ : option string)
    : string * string :=
  match TEMPLATES !! template with
  | Some colors => (python_or dark_ (dark colors), python_or light_ (light colors))
  | None => (python_or dark_ "#111111", python_or light_ "#ffffff")
  end.

(** *** The menu *)

(** What [str.strip], [str.isdigit] and [int] do to a line typed at the
    console. [int] may refuse a text that [isdigit] accepted. *)
Class Entrada := {
  str_strip : string → string;
  str_isdigit : string → bool;
  int_ : string → option Z
}.

Inductive excepcion_menu :=
  | EOFError
  | ValueError_int (texto : string)
  | ZeroDivisionError.

(** The menu returns the index chosen, or raises, or is still waiting for
    a key when the keys run out. *)
Inductive resultado_menu :=
  | Elegida (selected : Z)
  | Falla (e : excepcion_menu)
  | Esperando.

Section menu.
Context `{Entrada}.

(** The loop without [msvcrt]: one line is read per turn. *)
Fixpoint menu_consola (n : Z) (lineas : list string) : resultado_menu :=
  match lineas with
  | [] => Falla EOFError
  | linea :: resto =>
      let choice := str_strip linea in
      if str_isdigit choice then
        match int_ choice with
        | Some v => Elegida (Z.max 0 (Z.min (v - 1) (n - 1)))
        | None => Falla (ValueError_int choice)
        end
      else menu_consola n resto
  end.

(** The loop with [msvcrt]: one key is read per turn, and a second one
    after the prefix of an arrow key. *)
Fixpoint menu_teclas (n selected : Z) (teclas : list ascii) : resultado_menu :=
  match teclas with
  | [] => Esperando
  | ch :: resto =>
      if bool_decide (ch = "000"%char ∨ ch = "224"%char) then
        match resto with
        | [] => Esperando
        | arrow :: resto' =>
            if bool_decide (arrow = "H"%char) then
              if bool_decide (n = 0%Z) then Falla ZeroDivisionError
              else menu_teclas n ((selected - 1) `mod` n)%Z resto'
            else if bool_decide (arrow = "P"%char) then
              if bool_decide (n = 0%Z) then Falla ZeroDivisionError
              else menu_teclas n ((selected + 1) `mod` n)%Z resto'
            else menu_teclas n selected resto'
        end
      else if bool_decide (ch = "013"%char ∨ ch = "010"%char) then
        Elegida selected
      else menu_teclas n selected resto
  end.

(** [_select_from_menu]. What it draws on the screen is left out; the keys
    [msvcrt.getch] delivers and the lines [input] reads are arguments. *)
Definition _select_from_menu (title : string) (options : list string)
    (msvcrt : option (list ascii)) (stdin : list string) : resultado_menu :=
  match msvcrt with
  | None => menu_consola (Z.of_nat (length options)) stdin
  | Some teclas => menu_teclas (Z.of_nat (length options)) 0 teclas
  end.

End menu.

(** *** Logos *)

Definition EXTENSIONES_LOGO : gset string :=
  {[ ".png"; ".jpg"; ".jpeg"; ".webp"; ".svg" ]}.

(** [sorted(l, key=clave)] for keys that are texts: a stable sort. *)
Fixpoint insertar {A} (clave : A → string) (x : A) (l : list A) : list A :=
  match l with
  | [] => [x]
  | y :: resto =>
      if String.leb (clave x) (clave y) then x :: y :: resto
      else y :: insertar clave x resto
  end.

Definition sorted {A} (clave : A → string) (l : list A) : list A :=
  foldr (insertar clave) [] l.

(** [[p for p in l if cond(p)]] with a condition that looks at the world. *)
Fixpoint filtrar (cond : Path → M bool) (l : list Path) : M (list Path) :=
  match l with
  | [] => ret []
  | p :: resto =>
      b <- cond p ;;
      elegidos <- filtrar cond resto ;;
      ret (if b : bool then p :: elegidos else elegidos)
  end.

Definition _list_logo_files `{Python} (logo_dir : Path) : M (list Path) :=
  listado <- iterdir logo_dir ;;
  logos <- filtrar
             (λ p, f <- is_file p ;;
                   ret (f && bool_decide (str_lower (suffix (name p))
                                          ∈ EXTENSIONES_LOGO)))
             listado ;;
  ret (sorted (λ p, str_lower (name p)) logos).

End QRStudio.

(** ASCII restriction of the console texts: [strip] removes blanks at both
    ends, [isdigit] asks for decimal digits only, [int] reads them. *)
Definition es_blanco (c : ascii) : bool :=
  let n := nat_of_ascii c in ((9 <=? n) && (n <=? 13)) || (n =? 32).

Fixpoint sin_blancos_delante (l : list ascii) : list ascii :=
  match l with
  | c :: r => if es_blanco c then sin_blancos_delante r else l
  | [] => []
  end.

Definition strip_ascii (s : string) : string :=
  string_of_list_ascii
    (rev (sin_blancos_delante (rev (sin_blancos_delante (list_ascii_of_string s))))).

Definition es_digito (c : ascii) : bool :=
  let n := nat_of_ascii c in (48 <=? n) && (n <=? 57).

Fixpoint todos_digitos (s : string) : bool :=
  match s with
  | EmptyString => true
  | String c r => es_digito c && todos_digitos r
  end.

Definition isdigit_ascii (s : string) : bool :=
  negb (bool_decide (s = "")) && todos_digitos s.

Fixpoint valor_decimal (acc : Z) (s : string) : Z :=
  match s with
  | EmptyString => acc
  | String c r => valor_decimal (10 * acc + Z.of_nat (nat_of_ascii c - 48)) r
  end.

Definition entrada_ascii : QRStudio.Entrada := {|
  QRStudio.str_strip := strip_ascii;
  QRStudio.str_isdigit := isdigit_ascii;
  QRStudio.int_ := λ s, if isdigit_ascii s then Some (valor_decimal 0 s) else None
|}.

(** The keys of the keyboard as [msvcrt.getch] delivers them. *)
Definition tecla_abajo : list ascii := ["224"; "P"]%char.
Definition tecla_arriba : list ascii := ["224"; "H"]%char.
Definition tecla_enter : list ascii := ["013"%char].

Fixpoint veces {A} (k : nat) (l : list A) : list A :=
  match k with
  | 0 => []
  | S k' => l ++ veces k' l
  end.

(** ** What a dry run announces *)

(** The place [organizar] would give to [archivo] if it relocated it
    first, from the tree as it is in [w]. *)
Definition previsto `{Python} (carpeta : Path) (w : mundo) (archivo : Path)
    : option Path :=
  match Typer.destino_para_archivo archivo carpeta w with
  | Normal carpeta_destino _ =>
      match destino_libre carpeta_destino archivo w with
      | Normal destino _ => Some destino
      | _ => None
      end
  | _ => None
  end.

Definition linea_simular (archivo destino : Path) : string :=
  "[SIMULAR] " +:+ str_ruta archivo +:+ " -> " +:+ str_ruta destino.

(** ** A folder in good order *)

(** No regular file sits where a sweep of [carpeta] has to make a
    directory: none at [carpeta] or above it, and within the four levels
    below [carpeta] only directly in it and under a name that is not a
    category. *)
Definition sin_estorbos (carpeta : Path) (m : gmap Path nodo) : Prop :=
  map_Forall
    (λ q n, es_directorio n = false →
       (q ∉ prefijos carpeta)
       ∧ (carpeta `prefix_of` q → length q ≤ 4 + length carpeta →
          length q = 1 + length carpeta ∧ name q ∉ categorias)) m.

(** Every regular file directly in [carpeta], the paths [salvo] apart, has
    a date that [datetime] can hold and is not locked. *)
Definition movibles (carpeta : Path) (salvo : list Path) (w : mundo) : Prop :=
  map_Forall
    (λ q n, parent q = carpeta → q ∉ salvo → es_directorio n = false →
       fecha_valida (mtime n) ∧ q ∉ bloqueados w) (arbol w).

(** * Properties *)

(** ** Strings and names *)

Lemma app_String (a : ascii) (s t : string) :
  String a s +:+ t = String a (s +:+ t).
Proof. reflexivity. Qed.

Lemma app_vacia_r (s : string) : s +:+ "" = s.
Proof. induction s as [|a s IH]; [done|]. by rewrite app_String, IH. Qed.

Lemma hasta_desde (i : nat) (s : string) : hasta i s +:+ desde i s = s.
Proof.
  revert s; induction i as [|i IH]; intros [|a r]; simpl; try reflexivity.
  by rewrite app_String, IH.
Qed.

(** The stem and the suffix always rebuild the name. *)
Lemma stem_suffix (n : string) : stem n +:+ suffix n = n.
Proof.
  unfold stem, suffix. destruct (rfind "." n) as [i|].
  - destruct (punto_valido n i); [apply hasta_desde | apply app_vacia_r].
  - apply app_vacia_r.
Qed.

(** ** The classifier *)

Section clasificador.
Context `{Python}.

Lemma descargas_primera (s : string) :
  Descargas.categoria_para_extension s
  = primera_categoria prioridad_descargas (str_lower s).
Proof.
  unfold Descargas.categoria_para_extension.
  cbv [primera_categoria prioridad_descargas List.find fst snd].
  repeat (case_bool_decide; [reflexivity|]); reflexivity.
Qed.

Lemma typer_primera (s : string) :
  Typer.categoria_para_extension s
  = primera_categoria prioridad_typer (str_lower s).
Proof.
  unfold Typer.categoria_para_extension.
  cbv [primera_categoria prioridad_typer List.find fst snd].
  repeat (case_bool_decide; [reflexivity|]); reflexivity.
Qed.

Lemma primera_en_categorias tabla s :
  Forall (λ ce, ce.1 ∈ categorias) tabla →
  primera_categoria tabla s ∈ categorias.
Proof.
  intros Ht. unfold primera_categoria.
  destruct (List.find _ tabla) as [ce|] eqn:E.
  - apply find_some in E as [Hin _].
    rewrite Forall_forall in Ht. apply Ht. by apply list_elem_of_In.
  - apply (bool_decide_unpack _). vm_compute. exact I.
Qed.

(** C3. Both classifiers are total functions of the extension: each
    returns one of the seven categories, namely the first one in the order
    datos, documentos, imagenes, videos, comprimidos, scripts whose set
    holds the lowercased extension, and "otros" when none does; two
    extensions with the same lowercase form get the same category. *)
Theorem categoria_total_determinista (s : string) :
  (Descargas.categoria_para_extension s
     = primera_categoria prioridad_descargas (str_lower s)
   ∧ Descargas.categoria_para_extension s ∈ categorias)
  ∧ (Typer.categoria_para_extension s
       = primera_categoria prioridad_typer (str_lower s)
     ∧ Typer.categoria_para_extension s ∈ categorias)
  ∧ ∀ s' : string, str_lower s' = str_lower s →
      Descargas.categoria_para_extension s' = Descargas.categoria_para_extension s
      ∧ Typer.categoria_para_extension s' = Typer.categoria_para_extension s.
Proof.
  split_and!.
  - apply descargas_primera.
  - rewrite descargas_primera. apply primera_en_categorias.
    apply (bool_decide_unpack _). vm_compute. exact I.
  - apply typer_primera.
  - rewrite typer_primera. apply primera_en_categorias.
    apply (bool_decide_unpack _). vm_compute. exact I.
  - intros s' Hs.
    rewrite (descargas_primera s'), (descargas_primera s).
    rewrite (typer_primera s'), (typer_primera s), Hs. split; reflexivity.
Qed.

End clasificador.

(** C3, at the extensions ".PDF" and ".pdf". *)
Lemma categoria_total_determinista_witness :
  @Descargas.categoria_para_extension python_ascii ".PDF"
    = @Descargas.categoria_para_extension python_ascii ".pdf"
  ∧ @Typer.categoria_para_extension python_ascii ".PDF"
    = @Typer.categoria_para_extension python_ascii ".pdf".
Proof.
  exact (proj2 (proj2 (@categoria_total_determinista python_ascii ".pdf"))
           ".PDF" eq_refl).
Defined.

(** ** The two classifiers compared *)

Section dos_clasificadores.
Context `{Python}.

Lemma union_solo_docs :
  Descargas.EXT_DOCS ∪ solo_en_descargas = Typer.EXT_DOCS ∪ solo_en_descargas.
Proof. apply (bool_decide_unpack _). vm_compute. exact I. Qed.

Lemma union_solo_scripts :
  Descargas.EXT_SCRIPTS ∪ solo_en_descargas
  = Typer.EXT_SCRIPTS ∪ solo_en_descargas.
Proof. apply (bool_decide_unpack _). vm_compute. exact I. Qed.

Lemma misma_pertenencia (A B S : gset string) (x : string) :
  A ∪ S = B ∪ S → x ∉ S →
  bool_decide (x ∈ A) = bool_decide (x ∈ B).
Proof.
  intros HAB Hx. apply bool_decide_ext. split; intros Hin.
  - assert (x ∈ B ∪ S) as [?|?]%elem_of_union; try tauto.
    rewrite <- HAB. apply elem_of_union. by left.
  - assert (x ∈ A ∪ S) as [?|?]%elem_of_union; try tauto.
    rewrite HAB. apply elem_of_union. by left.
Qed.

(** C9, amended. The two classifiers agree on every extension whose
    lowercase form is not one of ".vtt", ".odt", ".rtf", ".epub", ".md",
    ".srt" and ".json", which only the watch script lists. *)
Theorem clasificadores_coinciden (s : string) :
  str_lower s ∉ solo_en_descargas →
  Descargas.categoria_para_extension s = Typer.categoria_para_extension s.
Proof.
  intros Hs.
  unfold Descargas.categoria_para_extension, Typer.categoria_para_extension.
  rewrite (misma_pertenencia _ _ _ _ union_solo_docs Hs).
  rewrite (misma_pertenencia _ _ _ _ union_solo_scripts Hs).
  reflexivity.
Qed.

End dos_clasificadores.

(** C9 as stated fails at ".md": a document for the watch script, "otros"
    for the command line. *)
Lemma clasificadores_difieren :
  @Descargas.categoria_para_extension python_ascii ".md" = "documentos"
  ∧ @Typer.categoria_para_extension python_ascii ".md" = "otros"
  ∧ ¬ (∀ s : string,
         @Descargas.categoria_para_extension python_ascii s
         = @Typer.categoria_para_extension python_ascii s).
Proof.
  split_and!; [vm_compute; reflexivity .. |].
  intros Hc. specialize (Hc ".md"). vm_compute in Hc. discriminate Hc.
Qed.

(** C9 amended, at ".PDF". *)
Lemma clasificadores_coinciden_witness :
  @Descargas.categoria_para_extension python_ascii ".PDF"
  = @Typer.categoria_para_extension python_ascii ".PDF".
Proof.
  apply (@clasificadores_coinciden python_ascii ".PDF").
  apply (bool_decide_unpack _). vm_compute. exact I.
Defined.

(** ** The destination planner *)

Section planificador.
Context `{Python}.

Lemma indice_mes_typer (m : nat) (w : mundo) :
  1 ≤ m ≤ 12 →
  ∃ mes, Typer.MESES_ES !! (m - 1) = Some mes
         ∧ indice Typer.MESES_ES (Z.of_nat m - 1) w = Normal mes w.
Proof.
  intros Hm.
  do 13 (destruct m as [|m]; [try lia; eexists; split; reflexivity|]). lia.
Qed.

Lemma indice_mes_descargas (m : nat) (w : mundo) :
  1 ≤ m ≤ 12 →
  ∃ mes, Descargas.MESES_ES !! (m - 1) = Some mes
         ∧ indice Descargas.MESES_ES (Z.of_nat m - 1) w = Normal mes w.
Proof.
  intros Hm.
  do 13 (destruct m as [|m]; [try lia; eexists; split; reflexivity|]). lia.
Qed.

Lemma quincena_typer (f : fecha) :
  Typer.quincena_de f = if bool_decide (day f ≤ 15) then "1-15" else "16-31".
Proof.
  unfold Typer.quincena_de.
  destruct (Nat.leb_spec (day f) 15); case_bool_decide; (reflexivity || lia).
Qed.

(** Reading the date of an entry. *)
Lemma stat_fecha_ok (p : Path) (w : mundo) (n : nodo) :
  arbol w !! p = Some n →
  fecha_valida (mtime n) →
  stat_fecha p w = Normal (mtime n) w.
Proof.
  intros Hn Hv. unfold stat_fecha. by rewrite Hn, bool_decide_eq_true_2.
Qed.

Lemma stat_fecha_casos (p : Path) (w : mundo) :
  (∃ e, stat_fecha p w = Lanza e w)
  ∨ ∃ n, arbol w !! p = Some n ∧ fecha_valida (mtime n)
       ∧ stat_fecha p w = Normal (mtime n) w.
Proof.
  unfold stat_fecha. destruct (arbol w !! p) as [n|]; [|left; eauto].
  case_bool_decide; [right; eauto | left; eauto].
Qed.

(** What [destino_para_archivo] returns for an entry of the tree. *)
Lemma destino_para_archivo_ok (archivo base : Path) (w : mundo) (n : nodo) :
  arbol w !! archivo = Some n →
  fecha_valida (mtime n) →
  ∃ mes, Typer.MESES_ES !! (month (mtime n) - 1) = Some mes
    ∧ Typer.destino_para_archivo archivo base w
      = Normal (base
                // Typer.categoria_para_extension (str_lower (suffix (name archivo)))
                // pretty (year (mtime n)) // mes // Typer.quincena_de (mtime n)) w.
Proof.
  intros Hn Hv. pose proof Hv as (_ & Hmes & _).
  destruct (indice_mes_typer (month (mtime n)) w Hmes) as (mes & Hl & Hi).
  exists mes. split; [exact Hl|].
  unfold Typer.destino_para_archivo, bind.
  rewrite (stat_fecha_ok _ _ _ Hn Hv), Hi. reflexivity.
Qed.

(** Two files with the same category and date get the same directory from
    the planner of the command line. *)
Lemma typer_mismo_destino (a1 a2 base : Path) (w1 w2 : mundo) (n1 n2 : nodo) :
  arbol w1 !! a1 = Some n1 →
  arbol w2 !! a2 = Some n2 →
  fecha_valida (mtime n1) →
  Typer.categoria_para_extension (str_lower (suffix (name a2)))
    = Typer.categoria_para_extension (str_lower (suffix (name a1))) →
  mtime n2 = mtime n1 →
  length Typer.MESES_ES = 12
  ∧ ∃ mes, Typer.MESES_ES !! (month (mtime n1) - 1) = Some mes
    ∧ let d := base
               // Typer.categoria_para_extension (str_lower (suffix (name a1)))
               // pretty (year (mtime n1)) // mes
               // (if bool_decide (day (mtime n1) ≤ 15) then "1-15" else "16-31")
      in Typer.destino_para_archivo a1 base w1 = Normal d w1
         ∧ Typer.destino_para_archivo a2 base w2 = Normal d w2.
Proof.
  intros H1 H2 Hv Hcat Hf. split; [reflexivity|].
  destruct (destino_para_archivo_ok a1 base w1 n1 H1 Hv) as (mes & Hl & Hd1).
  assert (Hv2 : fecha_valida (mtime n2)) by (rewrite Hf; exact Hv).
  destruct (destino_para_archivo_ok a2 base w2 n2 H2 Hv2) as (mes2 & Hl2 & Hd2).
  rewrite Hf in Hl2, Hd2. rewrite Hl in Hl2. injection Hl2 as <-.
  exists mes. split; [exact Hl|]. cbv zeta.
  rewrite <- quincena_typer. rewrite Hd1, Hd2, Hcat. split; reflexivity.
Qed.

End planificador.

(** ** The collision loop *)

Lemma length_app_str (s t : string) :
  String.length (s +:+ t) = String.length s + String.length t.
Proof.
  induction s as [|a s IH]; [reflexivity|].
  rewrite app_String. simpl. by rewrite IH.
Qed.

Lemma app_inj_r (u s t : string) : s +:+ u = t +:+ u → s = t.
Proof.
  revert t. induction s as [|a s IH]; intros [|b t] Heq.
  - reflexivity.
  - apply (f_equal String.length) in Heq.
    rewrite !length_app_str in Heq. simpl in Heq. lia.
  - apply (f_equal String.length) in Heq.
    rewrite !length_app_str in Heq. simpl in Heq. lia.
  - rewrite !app_String in Heq. injection Heq as -> Heq.
    f_equal. by apply IH.
Qed.

Lemma barra_inj (d : Path) (x y : string) : d // x = d // y → x = y.
Proof. unfold barra. intros Heq. apply app_inv_head in Heq. congruence. Qed.

Section bucle.
Variables carpeta_destino archivo : Path.

Lemma candidato_inj (j k : nat) :
  candidato carpeta_destino archivo j = candidato carpeta_destino archivo k →
  j = k.
Proof.
  unfold candidato. intros Heq%barra_inj.
  apply String.app_inj in Heq. apply String.app_inj in Heq.
  apply app_inj_r in Heq. by apply pretty_nat_inj.
Qed.

Lemma candidato_no_original (k : nat) :
  candidato carpeta_destino archivo k ≠ carpeta_destino // name archivo.
Proof.
  unfold candidato. intros Heq%barra_inj.
  apply (f_equal String.length) in Heq.
  rewrite <- (stem_suffix (name archivo)) in Heq at 3.
  rewrite !length_app_str in Heq. simpl in Heq. lia.
Qed.

Lemma intento_inj (j k : nat) :
  intento carpeta_destino archivo j = intento carpeta_destino archivo k → j = k.
Proof.
  destruct j as [|j], k as [|k]; simpl; intros Heq.
  - reflexivity.
  - symmetry in Heq. by apply candidato_no_original in Heq.
  - by apply candidato_no_original in Heq.
  - by apply candidato_inj.
Qed.

(** Pigeonhole: the tree cannot hold more attempts than it has entries. *)
Lemma intentos_ocupados (m : gmap Path nodo) (k : nat) :
  (∀ j, j < k → is_Some (m !! intento carpeta_destino archivo j)) →
  k ≤ size m.
Proof.
  intros Hocc.
  set (l := intento carpeta_destino archivo <$> seq 0 k).
  assert (Hnd : NoDup l).
  { apply NoDup_fmap_2_strong; [|apply NoDup_seq].
    intros x y _ _. apply intento_inj. }
  assert (Hsub : (list_to_set l : gset Path) ⊆ dom m).
  { intros p [j [-> Hj]]%elem_of_list_to_set%list_elem_of_fmap.
    apply elem_of_dom, Hocc. apply elem_of_seq in Hj. lia. }
  apply subseteq_size in Hsub.
  rewrite size_list_to_set, size_dom in Hsub by exact Hnd.
  unfold l in Hsub. by rewrite length_fmap, length_seq in Hsub.
Qed.

(** The loop, entered at attempt [k] with all earlier attempts taken and
    enough fuel, stops at the first free attempt. *)
Lemma mientras_existe_primero (w : mundo) (fuel k : nat) :
  (∀ j, j < k → is_Some (arbol w !! intento carpeta_destino archivo j)) →
  size (arbol w) < fuel + k →
  ∃ n, k ≤ n
    ∧ mientras_existe fuel carpeta_destino archivo
        (intento carpeta_destino archivo k) (S k) w
      = Normal (intento carpeta_destino archivo n) w
    ∧ arbol w !! intento carpeta_destino archivo n = None
    ∧ ∀ j, j < n → is_Some (arbol w !! intento carpeta_destino archivo j).
Proof.
  revert k. induction fuel as [|fuel IH]; intros k Hocc Hfuel.
  - apply intentos_ocupados in Hocc. lia.
  - cbn [mientras_existe]. unfold bind, exists_.
    case_bool_decide as Hk.
    + destruct (IH (S k)) as (n & Hn & Hrun & Hfree & Hmin).
      * intros j Hj. destruct (decide (j = k)) as [->|]; [exact Hk|].
        apply Hocc. lia.
      * lia.
      * exists n. split_and!; [lia | exact Hrun | exact Hfree | exact Hmin].
    + exists k. split_and!; [lia | reflexivity | | exact Hocc].
      by apply eq_None_not_Some.
Qed.

End bucle.

(** ** Creating directories *)

Lemma prefijos_desde_spec (base resto q : Path) :
  q ∈ prefijos_desde base resto
  ↔ ∃ r, r ≠ [] ∧ r `prefix_of` resto ∧ q = base ++ r.
Proof.
  revert base. induction resto as [|c resto IH]; intros base; simpl.
  - split; [by intros ?%elem_of_nil|].
    intros (r & Hr & Hp & _). apply prefix_nil_inv in Hp. done.
  - rewrite elem_of_cons, IH. split.
    + intros [->|(r & _ & Hp & ->)].
      * exists [c]. split_and!; [done | | done].
        by apply prefix_cons, prefix_nil.
      * exists (c :: r). split_and!; [done | by apply prefix_cons |].
        by rewrite <- app_assoc.
    + intros (r & Hr & Hp & ->). destruct r as [|c' r]; [done|].
      pose proof (prefix_cons_inv_1 _ _ _ _ Hp) as ->.
      apply prefix_cons_inv_2 in Hp.
      destruct r as [|c'' r]; [by left|]. right.
      exists (c'' :: r). split_and!; [done | done |].
      by rewrite <- app_assoc.
Qed.

Lemma prefijos_spec (p q : Path) :
  q ∈ prefijos p ↔ q ≠ [] ∧ q `prefix_of` p.
Proof.
  unfold prefijos. rewrite prefijos_desde_spec. simpl. split.
  - by intros (r & Hr & Hp & ->).
  - intros [Hq Hp]. by exists q.
Qed.

Lemma prefijos_mismo (p : Path) : p ≠ [] → p ∈ prefijos p.
Proof. intros Hp. by apply prefijos_spec. Qed.

Lemma prefijos_barra (p : Path) (x : string) :
  p ≠ [] → p ∈ prefijos (p // x).
Proof. intros Hp. apply prefijos_spec. split; [done|]. by apply prefix_app_r. Qed.

Lemma prefijos_trans (p q r : Path) :
  q ∈ prefijos p → p ∈ prefijos r → q ∈ prefijos r.
Proof.
  rewrite !prefijos_spec. intros [Hq Hqp] [_ Hpr]. split; [done|].
  by etrans.
Qed.

(** A path is never a prefix of a strictly shorter one. *)
Lemma no_prefijo_mas_largo (p q : Path) :
  length p < length q → q ∉ prefijos p.
Proof.
  intros Hlen [_ Hq]%prefijos_spec. apply prefix_length in Hq. lia.
Qed.

Lemma length_barra (p : Path) (x : string) : length (p // x) = S (length p).
Proof. unfold barra. rewrite length_app. simpl. lia. Qed.

Lemma parent_barra (p : Path) (x : string) : parent (p // x) = p.
Proof. apply removelast_last. Qed.

Lemma name_barra (p : Path) (x : string) : name (p // x) = x.
Proof. apply last_last. Qed.

Lemma barra_no_vacia (p : Path) (x : string) : p // x ≠ [].
Proof. unfold barra. by destruct p. Qed.

(** The tree after creating the listed directories where they are missing. *)
Lemma foldl_crear_lookup (d : fecha) (l : list Path) (m : gmap Path nodo) (q : Path) :
  foldl (crear_si_falta d) m l !! q
  = match m !! q with
    | Some x => Some x
    | None => if decide (q ∈ l) then Some (Directorio d) else None
    end.
Proof.
  revert m. induction l as [|p l IH]; intros m; cbn [foldl].
  - destruct (m !! q); [done|].
    destruct (decide (q ∈ [])) as [Hin|]; [by apply elem_of_nil in Hin | done].
  - rewrite IH. clear IH. unfold crear_si_falta.
    destruct (decide (q ∈ l)) as [Hl|Hl], (decide (q ∈ p :: l)) as [Hpl|Hpl].
    2: { contradict Hpl. apply list_elem_of_further, Hl. }
    + destruct (m !! p) eqn:Hp; [done|].
      destruct (decide (p = q)) as [->|Hne].
      * by rewrite lookup_insert_eq, Hp.
      * rewrite lookup_insert_ne by done. done.
    + apply elem_of_cons in Hpl as [->|]; [|done].
      destruct (m !! p) eqn:Hp; [by rewrite Hp|].
      by rewrite lookup_insert_eq.
    + destruct (m !! p); [done|].
      rewrite lookup_insert_ne; [done|].
      intros ->. apply Hpl, list_elem_of_here.
Qed.

Section mkdir.
Context `{Python}.

(** [mkdir_parents] either raises and leaves the world as it was, or
    completes in a world that differs only by the new directories. *)
Lemma mkdir_parents_casos (p : Path) (w : mundo) :
  (∃ e, mkdir_parents p w = Lanza e w
        ∧ ∃ q, q ∈ prefijos p ∧ es_archivo_en (arbol w) q = true)
  ∨ (∃ w', mkdir_parents p w = Normal tt w'
        ∧ bloqueados w' = bloqueados w ∧ salida w' = salida w
        ∧ (∀ q, q ∈ prefijos p → es_archivo_en (arbol w) q = false)
        ∧ ∀ q, arbol w' !! q
               = match arbol w !! q with
                 | Some x => Some x
                 | None => if decide (q ∈ prefijos p)
                           then Some (Directorio hoy) else None
                 end).
Proof.
  unfold mkdir_parents.
  destruct (existsb (es_archivo_en (arbol w)) (prefijos p)) eqn:E.
  - left. eexists. split; [reflexivity|].
    apply existsb_exists in E as (q & Hq & Hf). exists q.
    by rewrite <- list_elem_of_In in Hq.
  - right. eexists. split; [reflexivity|]. split_and!; [done | done | |].
    + intros q Hq. apply not_true_is_false. intros Hf.
      apply not_true_iff_false in E. apply E, existsb_exists.
      exists q. by rewrite <- list_elem_of_In.
    + intros q. apply foldl_crear_lookup.
Qed.

End mkdir.

(** ** The collision loop terminates at the first free name *)

(** What the callers of the loop rely on. *)
Lemma destino_libre_primero (carpeta_destino archivo : Path) (w : mundo) :
  ∃ n,
    destino_libre carpeta_destino archivo w
    = Normal (intento carpeta_destino archivo n) w
    ∧ arbol w !! intento carpeta_destino archivo n = None
    ∧ ∀ j, j < n → is_Some (arbol w !! intento carpeta_destino archivo j).
Proof.
  destruct (mientras_existe_primero carpeta_destino archivo w
              (S (size (arbol w))) 0) as (n & _ & Hrun & Hfree & Hmin);
    [lia | lia |].
  by exists n.
Qed.

(** C10. For every file name and every tree, the collision loop returns
    with any fuel above the number of entries of the tree, which is the
    fuel [destino_libre] gives it. It returns attempt [n], where attempt 0
    is the original name and attempt [k] is stem, "_", [k], suffix: the
    returned path is not in the tree, and every earlier attempt is, so [n]
    is 0 when the original name is free and the smallest positive free
    index otherwise. *)
Theorem bucle_termina_en_el_primero (carpeta_destino archivo : Path) (w : mundo) :
  ∃ n,
    (∀ fuel, size (arbol w) < fuel →
       mientras_existe fuel carpeta_destino archivo
         (carpeta_destino // name archivo) 1 w
       = Normal (intento carpeta_destino archivo n) w)
    ∧ destino_libre carpeta_destino archivo w
      = Normal (intento carpeta_destino archivo n) w
    ∧ arbol w !! intento carpeta_destino archivo n = None
    ∧ (∀ j, j < n → is_Some (arbol w !! intento carpeta_destino archivo j))
    ∧ (arbol w !! (carpeta_destino // name archivo) = None → n = 0)
    ∧ (0 < n →
       intento carpeta_destino archivo n
       = carpeta_destino
         // (stem (name archivo) +:+ "_" +:+ pretty n +:+ suffix (name archivo))).
Proof.
  destruct (mientras_existe_primero carpeta_destino archivo w
              (S (size (arbol w))) 0) as (n & _ & Hrun & Hfree & Hmin);
    [lia | lia |].
  exists n. split_and!; try done.
  - intros fuel Hfuel.
    destruct (mientras_existe_primero carpeta_destino archivo w fuel 0)
      as (n' & _ & Hrun' & Hfree' & Hmin'); [lia | lia |].
    assert (n' = n) as ->; [|exact Hrun'].
    destruct (Nat.lt_trichotomy n' n) as [Hlt|[Heq|Hgt]]; [|done|].
    + apply Hmin in Hlt. rewrite Hfree' in Hlt. by destruct Hlt.
    + apply Hmin' in Hgt. rewrite Hfree in Hgt. by destruct Hgt.
  - intros H0. destruct n as [|n]; [done|].
    destruct (Hmin 0) as [x Hx]; [lia|]. simpl in Hx. congruence.
  - intros Hn. destruct n; [lia | reflexivity].
Qed.

(** C10 in a tree that already holds "report.pdf" and "report_1.pdf": with
    fuel 10 the loop stops at "report_2.pdf". *)
Lemma bucle_termina_en_el_primero_witness :
  mientras_existe 10 descargas (["tmp"; "report.pdf"])
    (descargas // "report.pdf") 1 mundo_lleno
  = Normal (descargas // "report_2.pdf") mundo_lleno.
Proof.
  destruct (bucle_termina_en_el_primero descargas ["tmp"; "report.pdf"]
              mundo_lleno) as (n & Hfuel & Hd & _).
  etrans; [apply (Hfuel 10); vm_compute; lia|].
  rewrite <- Hd. vm_compute. reflexivity.
Defined.

(** ** Sequencing *)

Lemma bind_eq {A B} (c : M A) (k : A → M B) (w : mundo) :
  bind c k w
  = match c w with
    | Normal a w' => k a w'
    | Lanza e w' => Lanza e w'
    | Agotado => Agotado
    end.
Proof. reflexivity. Qed.

Lemma try_except_eq {A} (c : M A) (h : excepcion → M A) (w : mundo) :
  try_except c h w
  = match c w with
    | Lanza e w' => h e w'
    | r => r
    end.
Proof. reflexivity. Qed.

Lemma print_eq (linea : string) (w : mundo) :
  print linea w = Normal tt (con_linea linea w).
Proof. reflexivity. Qed.

(** ** Moving a regular file, writing the log *)

Lemma intento_barra (cd a : Path) (n : nat) : ∃ x, intento cd a n = cd // x.
Proof. destruct n; simpl; unfold candidato; eauto. Qed.

Lemma parent_intento (cd a : Path) (n : nat) : parent (intento cd a n) = cd.
Proof. destruct (intento_barra cd a n) as [x ->]. apply parent_barra. Qed.

Lemma length_intento (cd a : Path) (n : nat) :
  length (intento cd a n) = S (length cd).
Proof. destruct (intento_barra cd a n) as [x ->]. apply length_barra. Qed.

Lemma intento_mismo_nombre (cd a b : Path) (n : nat) :
  name a = name b → intento cd a n = intento cd b n.
Proof. intros Hn. destruct n; simpl; unfold candidato; by rewrite Hn. Qed.

Lemma shutil_move_archivo (src dst : Path) (w : mundo) (f : fecha) (d : string) :
  arbol w !! src = Some (Archivo f d) →
  arbol w !! dst = None →
  es_dir_en (arbol w) (parent dst) = true →
  shutil_move src dst w
  = if bool_decide (src ∈ bloqueados w) then
      Lanza (PermissionError src)
        (con_arbol (<[dst := Archivo f d]> (arbol w)) w)
    else Normal tt (con_arbol (mudado src dst (Archivo f d) (arbol w)) w).
Proof.
  intros Hsrc Hdst Hpar.
  assert (Hd : es_dir_en (arbol w) dst = false)
    by (unfold es_dir_en; by rewrite Hdst).
  assert (Hne : src ≠ dst) by congruence.
  unfold shutil_move. cbv zeta. rewrite Hd. cbn [andb]. rewrite Hsrc.
  rewrite Hpar. cbn [negb].
  rewrite (bool_decide_eq_false_2 (src = dst)) by done.
  unfold trasladar, mudado. rewrite Hsrc. reflexivity.
Qed.

Section registro.
Context `{Python}.

Lemma parent_FICHERO_LOG : parent Descargas.FICHERO_LOG = Descargas.CARPETA_DESCARGAS.
Proof. apply parent_barra. Qed.

Lemma anadir_registrar (linea : string) (w : mundo) :
  try_except (anadir Descargas.FICHERO_LOG linea) (λ _, ret tt) w
  = Normal tt (registrar linea w).
Proof.
  unfold try_except, anadir, registrar, ret.
  case_bool_decide; [done|].
  destruct (arbol w !! Descargas.FICHERO_LOG) as [[?|? ?]|]; try done.
  by destruct (es_dir_en _ _).
Qed.

(** Writing the log never raises, and touches no entry that exists apart
    from the log file itself. *)
Lemma escribir_log_conserva (mensaje : string) (w : mundo) :
  ∃ w', Descargas.escribir_log mensaje w = Normal tt w'
      ∧ bloqueados w' = bloqueados w ∧ salida w' = salida w
      ∧ (∀ q x, q ≠ Descargas.FICHERO_LOG →
                arbol w !! q = Some x → arbol w' !! q = Some x)
      ∧ (∀ q x, q ≠ Descargas.FICHERO_LOG →
                arbol w' !! q = Some x →
                arbol w !! q = Some x ∨ es_directorio x = true).
Proof.
  unfold Descargas.escribir_log, try_except, bind.
  destruct (mkdir_parents_casos (parent Descargas.FICHERO_LOG) w)
    as [(e & -> & _) | (w1 & -> & Hb & Hs & _ & Hl)].
  - exists w. split_and!; try done. intros q x _ Hx. by left.
  - pose proof (anadir_registrar (Descargas.linea_log mensaje) w1) as Ha.
    unfold try_except, ret in Ha.
    exists (registrar (Descargas.linea_log mensaje) w1).
    split_and!.
    + by destruct (anadir _ _ w1); simplify_eq.
    + rewrite <- Hb. unfold registrar.
      repeat (case_bool_decide || case_match); done.
    + rewrite <- Hs. unfold registrar.
      repeat (case_bool_decide || case_match); done.
    + intros q x Hq Hx.
      assert (arbol w1 !! q = Some x) as Hx1 by (by rewrite Hl, Hx).
      unfold registrar.
      repeat (case_bool_decide || case_match); try done;
        cbn [arbol con_arbol]; by rewrite lookup_insert_ne.
    + intros q x Hq Hx.
      assert (arbol w1 !! q = Some x) as Hx1.
      { revert Hx. unfold registrar.
        repeat (case_bool_decide || case_match); try done;
          cbn [arbol con_arbol]; by rewrite lookup_insert_ne. }
      rewrite Hl in Hx1. destruct (arbol w !! q); [by left|].
      case_decide; [|done]. injection Hx1 as <-. by right.
Qed.

(** Once the downloads folder and the folders above it are directories,
    writing the log is exactly [registrar]. *)
Lemma escribir_log_registrar (mensaje : string) (w : mundo) :
  (∀ q, q ∈ prefijos Descargas.CARPETA_DESCARGAS →
        es_dir_en (arbol w) q = true) →
  Descargas.escribir_log mensaje w
  = Normal tt (registrar (Descargas.linea_log mensaje) w).
Proof.
  intros Hdirs.
  pose proof (anadir_registrar (Descargas.linea_log mensaje) w) as Ha.
  unfold Descargas.escribir_log, try_except, bind in *.
  rewrite parent_FICHERO_LOG.
  destruct (mkdir_parents_casos Descargas.CARPETA_DESCARGAS w)
    as [(e & _ & q & Hq & Hf) | (w1 & -> & Hb & Hs & _ & Hl)].
  - apply Hdirs in Hq. unfold es_dir_en, es_archivo_en in *.
    by destruct (arbol w !! q) as [[]|].
  - assert (w1 = w) as ->; [|exact Ha].
    destruct w1 as [m1 b1 s1], w as [m b s]. simpl in *. subst. f_equal.
    apply map_eq. intros q. rewrite Hl.
    destruct (m !! q) eqn:Hq; [done|]. case_decide as Hin; [|done].
    apply Hdirs in Hin. unfold es_dir_en in Hin. by rewrite Hq in Hin.
Qed.

End registro.

(** ** One file through the body of the command-line sweep *)

Section paso_typer.
Context `{Python}.

(** Children of the destination directory are not touched by creating it. *)
Lemma mkdir_no_toca_intentos (cd a : Path) (w w1 : mundo) (n : nat) :
  (∀ q, arbol w1 !! q
        = match arbol w !! q with
          | Some x => Some x
          | None => if decide (q ∈ prefijos cd)
                    then Some (Directorio hoy) else None
          end) →
  arbol w1 !! intento cd a n = arbol w !! intento cd a n.
Proof.
  intros Hl. rewrite Hl. destruct (arbol w !! intento cd a n); [done|].
  rewrite decide_False; [done|].
  apply no_prefijo_mas_largo. rewrite length_intento. lia.
Qed.

Lemma mkdir_deja_directorio (cd : Path) (w w1 : mundo) :
  cd ≠ [] →
  (∀ q, q ∈ prefijos cd → es_archivo_en (arbol w) q = false) →
  (∀ q, arbol w1 !! q
        = match arbol w !! q with
          | Some x => Some x
          | None => if decide (q ∈ prefijos cd)
                    then Some (Directorio hoy) else None
          end) →
  ∀ q, q ∈ prefijos cd → es_dir_en (arbol w1) q = true.
Proof.
  intros Hne Hnf Hl q Hq. unfold es_dir_en. rewrite Hl.
  specialize (Hnf q Hq). unfold es_archivo_en in Hnf.
  destruct (arbol w !! q) as [[]|]; try done.
  by rewrite decide_True.
Qed.

Lemma indice_casos {A} (l : list A) (i : Z) (w : mundo) :
  indice l i w = Lanza IndexError w ∨ ∃ x, indice l i w = Normal x w.
Proof.
  unfold indice. cbv zeta.
  destruct (_ <? 0)%Z; [by left|].
  destruct (l !! _); [right; eauto | by left].
Qed.

(** The planner either raises or returns a directory four levels below
    the root it was given; it never changes the world. *)
Lemma destino_para_archivo_casos (archivo base : Path) (w : mundo) :
  (∃ e, Typer.destino_para_archivo archivo base w = Lanza e w)
  ∨ ∃ a b c d,
      Typer.destino_para_archivo archivo base w
      = Normal (base // a // b // c // d) w.
Proof.
  unfold Typer.destino_para_archivo. rewrite bind_eq.
  destruct (stat_fecha_casos archivo w) as [[e ->]|(n & _ & _ & ->)];
    [left; eauto|].
  cbv beta iota. rewrite bind_eq.
  destruct (indice_casos Typer.MESES_ES (Z.of_nat (month (mtime n)) - 1) w)
    as [->|[mes ->]]; [left; eauto|].
  right. by repeat eexists.
Qed.

Lemma typer_cuerpo_desde (carpeta archivo cd : Path) (dry_run : bool)
    (cuenta : nat * nat) (w : mundo) (f : fecha) (d : string) :
  arbol w !! archivo = Some (Archivo f d) →
  Typer.es_temporal archivo = false →
  Typer.destino_para_archivo archivo carpeta w = Normal cd w →
  (∃ e, mkdir_parents cd w = Lanza e w
        ∧ Typer.cuerpo carpeta dry_run archivo cuenta w = Lanza e w)
  ∨ ∃ w1 n,
      mkdir_parents cd w = Normal tt w1
      ∧ arbol w !! intento cd archivo n = None
      ∧ (∀ j, j < n → is_Some (arbol w !! intento cd archivo j))
      ∧ Typer.cuerpo carpeta dry_run archivo cuenta w
        = let destino := intento cd archivo n in
          if dry_run then
            Normal (S cuenta.1, cuenta.2)
              (con_linea ("[SIMULAR] " +:+ str_ruta archivo +:+ " -> "
                          +:+ str_ruta destino) w1)
          else
            let w2 := con_linea ("[MOVER] " +:+ str_ruta archivo +:+ " -> "
                                 +:+ str_ruta destino) w1 in
            if bool_decide (archivo ∈ bloqueados w) then
              Lanza (PermissionError archivo)
                (con_arbol (<[destino := Archivo f d]> (arbol w1)) w2)
            else
              Normal (S cuenta.1, S cuenta.2)
                (con_arbol (mudado archivo destino (Archivo f d) (arbol w1)) w2).
Proof.
  intros Hn Ht Hd.
  assert (Hcd : cd ≠ []).
  { destruct (destino_para_archivo_casos archivo carpeta w)
      as [(e & He) | (a & b & c & x & Hx)]; [congruence|].
    rewrite Hd in Hx. injection Hx as ->. apply barra_no_vacia. }
  unfold Typer.cuerpo. rewrite bind_eq. unfold is_file. rewrite Hn.
  cbn [es_directorio negb]. cbv beta iota. rewrite Ht.
  rewrite bind_eq, Hd. cbv beta iota. rewrite bind_eq.
  destruct (mkdir_parents_casos cd w)
    as [(e & He & _) | (w1 & Hm & Hb & Hs & Hnf & Hl)].
  - left. exists e. by rewrite He.
  - right. rewrite Hm. cbv beta iota.
    destruct (destino_libre_primero cd archivo w1)
      as (n & Hlibre & Hfree & Hmin).
    exists w1, n. split; [done|].
    assert (Hsame : ∀ j, arbol w1 !! intento cd archivo j
                         = arbol w !! intento cd archivo j)
      by (intros j; by apply mkdir_no_toca_intentos).
    split; [by rewrite <- Hsame|]. split.
    { intros j Hj. rewrite <- Hsame. by apply Hmin. }
    rewrite bind_eq, Hlibre. cbv beta iota zeta.
    destruct dry_run.
    { rewrite bind_eq. unfold Typer.echo. rewrite print_eq. reflexivity. }
    rewrite bind_eq. unfold Typer.echo. rewrite print_eq. cbv beta iota.
    rewrite bind_eq.
    erewrite shutil_move_archivo.
    + cbn [bloqueados con_linea arbol]. rewrite Hb.
      by case_bool_decide.
    + cbn [arbol con_linea]. by rewrite Hl, Hn.
    + done.
    + cbn [arbol con_linea]. rewrite parent_intento.
      eapply mkdir_deja_directorio; [exact Hcd | exact Hnf | exact Hl |].
      by apply prefijos_mismo.
Qed.

Lemma typer_cuerpo_archivo (carpeta archivo : Path) (dry_run : bool)
    (cuenta : nat * nat) (w : mundo) (f : fecha) (d : string) :
  arbol w !! archivo = Some (Archivo f d) →
  fecha_valida f →
  Typer.es_temporal archivo = false →
  ∃ cd, Typer.destino_para_archivo archivo carpeta w = Normal cd w
    ∧ ((∃ e, mkdir_parents cd w = Lanza e w
             ∧ Typer.cuerpo carpeta dry_run archivo cuenta w = Lanza e w)
       ∨ ∃ w1 n,
           mkdir_parents cd w = Normal tt w1
           ∧ arbol w !! intento cd archivo n = None
           ∧ (∀ j, j < n → is_Some (arbol w !! intento cd archivo j))
           ∧ Typer.cuerpo carpeta dry_run archivo cuenta w
             = let destino := intento cd archivo n in
               if dry_run then
                 Normal (S cuenta.1, cuenta.2)
                   (con_linea ("[SIMULAR] " +:+ str_ruta archivo +:+ " -> "
                               +:+ str_ruta destino) w1)
               else
                 let w2 := con_linea ("[MOVER] " +:+ str_ruta archivo +:+ " -> "
                                      +:+ str_ruta destino) w1 in
                 if bool_decide (archivo ∈ bloqueados w) then
                   Lanza (PermissionError archivo)
                     (con_arbol (<[destino := Archivo f d]> (arbol w1)) w2)
                 else
                   Normal (S cuenta.1, S cuenta.2)
                     (con_arbol (mudado archivo destino (Archivo f d) (arbol w1)) w2)).
Proof.
  intros Hn Hv Ht.
  destruct (destino_para_archivo_ok archivo carpeta w _ Hn Hv) as (mes & _ & Hd).
  eexists. split; [exact Hd|].
  by apply typer_cuerpo_desde.
Qed.

End paso_typer.

(** ** One file through [mover_y_organizar] *)

Section paso_descargas.
Context `{Python}.

Lemma registrar_otros (linea : string) (w : mundo) (q : Path) :
  q ≠ Descargas.FICHERO_LOG →
  arbol (registrar linea w) !! q = arbol w !! q.
Proof.
  intros Hq. unfold registrar.
  repeat (case_bool_decide || case_match); try done;
    cbn [arbol con_arbol]; by rewrite lookup_insert_ne.
Qed.

Lemma registrar_bloqueados (linea : string) (w : mundo) :
  bloqueados (registrar linea w) = bloqueados w.
Proof. unfold registrar. repeat (case_bool_decide || case_match); done. Qed.

Lemma registrar_salida (linea : string) (w : mundo) :
  salida (registrar linea w) = salida w.
Proof. unfold registrar. repeat (case_bool_decide || case_match); done. Qed.

Lemma length_FICHERO_LOG :
  length Descargas.FICHERO_LOG = S (length Descargas.CARPETA_DESCARGAS).
Proof. apply length_barra. Qed.

Lemma quincena_descargas (f : fecha) :
  Descargas.quincena_de f = if bool_decide (day f ≤ 15) then "1-15" else "16-31".
Proof.
  unfold Descargas.quincena_de.
  destruct (Nat.leb_spec (day f) 15); case_bool_decide; (reflexivity || lia).
Qed.

Lemma descargas_mover_desde (ruta : Path) (w : mundo) (f : fecha) (d mes : string) :
  arbol w !! ruta = Some (Archivo f d) →
  fecha_valida f →
  indice Descargas.MESES_ES (Z.of_nat (month f) - 1) w = Normal mes w →
  ruta ≠ Descargas.FICHERO_LOG →
  let cd := Descargas.CARPETA_ORDENADA
            // Descargas.categoria_para_extension (str_lower (suffix (name ruta)))
            // pretty (year f) // mes // Descargas.quincena_de f in
  (∃ e, mkdir_parents cd w = Lanza e w
        ∧ Descargas.mover_y_organizar ruta w = Lanza e w)
  ∨ ∃ w1 n,
      mkdir_parents cd w = Normal tt w1
      ∧ arbol w !! intento cd ruta n = None
      ∧ (∀ j, j < n → is_Some (arbol w !! intento cd ruta j))
      ∧ let destino := intento cd ruta n in
        let w3 := registrar
                    (Descargas.linea_log
                       ("MOVER " +:+ str_ruta ruta +:+ " -> " +:+ str_ruta destino))
                    (con_linea ("[MOVER] " +:+ str_ruta ruta +:+ " -> "
                                +:+ str_ruta destino) w1) in
        Descargas.mover_y_organizar ruta w
        = if bool_decide (ruta ∈ bloqueados w) then
            Lanza (PermissionError ruta)
              (con_arbol (<[destino := Archivo f d]> (arbol w3)) w3)
          else
            Normal tt (con_arbol (mudado ruta destino (Archivo f d) (arbol w3)) w3).
Proof.
  intros Hn Hv Hi Hlog cd.
  unfold Descargas.mover_y_organizar. rewrite bind_eq. unfold exists_.
  rewrite bool_decide_eq_true_2 by (by rewrite Hn). cbn [negb]. cbv beta iota.
  rewrite bind_eq, (stat_fecha_ok ruta w _ Hn Hv). cbn [mtime]. cbv beta iota.
  rewrite bind_eq, Hi. cbv beta iota zeta. fold cd. rewrite bind_eq.
  destruct (mkdir_parents_casos cd w)
    as [(e & He & _) | (w1 & Hm & Hb & Hs & Hnf & Hlk)].
  - left. exists e. by rewrite He.
  - right. rewrite Hm. cbv beta iota.
    destruct (destino_libre_primero cd ruta w1)
      as (n & Hlibre & Hfree & Hmin).
    exists w1, n. split; [done|].
    assert (Hsame : ∀ j, arbol w1 !! intento cd ruta j
                         = arbol w !! intento cd ruta j)
      by (intros j; by apply mkdir_no_toca_intentos).
    split; [by rewrite <- Hsame|]. split.
    { intros j Hj. rewrite <- Hsame. by apply Hmin. }
    rewrite bind_eq, Hlibre. cbv beta iota zeta.
    rewrite bind_eq, print_eq. cbv beta iota. rewrite bind_eq.
    assert (Hcd : cd ≠ []) by apply barra_no_vacia.
    assert (Hdirs : ∀ q, q ∈ prefijos cd → es_dir_en (arbol w1) q = true)
      by (by eapply mkdir_deja_directorio).
    assert (HC : Descargas.CARPETA_DESCARGAS ∈ prefijos cd).
    { apply prefijos_spec. split; [apply barra_no_vacia|].
      unfold cd, Descargas.CARPETA_ORDENADA, barra.
      rewrite <- !app_assoc. apply prefix_app_r. done. }
    rewrite escribir_log_registrar; cycle 1.
    { intros q Hq. cbn [arbol con_linea]. apply Hdirs.
      by eapply prefijos_trans. }
    cbv beta iota.
    set (w3 := registrar _ _).
    assert (Hlen : length cd = 4 + length Descargas.CARPETA_DESCARGAS).
    { unfold cd, Descargas.CARPETA_ORDENADA. rewrite !length_barra. lia. }
    erewrite shutil_move_archivo.
    + unfold w3. rewrite registrar_bloqueados. cbn [bloqueados con_linea].
      rewrite Hb. by case_bool_decide.
    + unfold w3. rewrite registrar_otros by done. cbn [arbol con_linea].
      by rewrite Hlk, Hn.
    + unfold w3. rewrite registrar_otros; [done|].
      intros Heq%(f_equal length).
      rewrite length_intento, length_FICHERO_LOG in Heq. lia.
    + rewrite parent_intento. unfold es_dir_en, w3.
      rewrite registrar_otros.
      * cbn [arbol con_linea]. apply Hdirs. by apply prefijos_mismo.
      * intros Heq%(f_equal length). rewrite length_FICHERO_LOG in Heq. lia.
Qed.


Lemma descargas_mover_archivo (ruta : Path) (w : mundo) (f : fecha) (d : string) :
  arbol w !! ruta = Some (Archivo f d) →
  fecha_valida f →
  ruta ≠ Descargas.FICHERO_LOG →
  ∃ mes, Descargas.MESES_ES !! (month f - 1) = Some mes
    ∧ let cd := Descargas.CARPETA_ORDENADA
                // Descargas.categoria_para_extension (str_lower (suffix (name ruta)))
                // pretty (year f) // mes // Descargas.quincena_de f in
      (∃ e, mkdir_parents cd w = Lanza e w
            ∧ Descargas.mover_y_organizar ruta w = Lanza e w)
      ∨ ∃ w1 n,
          mkdir_parents cd w = Normal tt w1
          ∧ arbol w !! intento cd ruta n = None
          ∧ (∀ j, j < n → is_Some (arbol w !! intento cd ruta j))
          ∧ let destino := intento cd ruta n in
            let w3 := registrar
                        (Descargas.linea_log
                           ("MOVER " +:+ str_ruta ruta +:+ " -> " +:+ str_ruta destino))
                        (con_linea ("[MOVER] " +:+ str_ruta ruta +:+ " -> "
                                    +:+ str_ruta destino) w1) in
            Descargas.mover_y_organizar ruta w
            = if bool_decide (ruta ∈ bloqueados w) then
                Lanza (PermissionError ruta)
              (con_arbol (<[destino := Archivo f d]> (arbol w3)) w3)
              else
                Normal tt (con_arbol (mudado ruta destino (Archivo f d) (arbol w3)) w3).
Proof.
  intros Hn Hv Hlog.
  destruct (indice_mes_descargas (month f) w (proj1 (proj2 Hv))) as (mes & Hl & Hi).
  exists mes. split; [exact Hl|].
  by apply descargas_mover_desde.
Qed.

End paso_descargas.

(** ** Relocations never overwrite *)

Lemma conserva_refl (salvo : list Path) (w : mundo) : conserva salvo w w.
Proof. by intros p x _ Hx. Qed.

Lemma conserva_mudado (salvo : list Path) (src dst : Path) (n : nodo)
    (w w1 w' : mundo) :
  conserva salvo w w1 →
  arbol w !! dst = None →
  arbol w' = mudado src dst n (arbol w1) →
  conserva (src :: salvo) w w'.
Proof.
  intros Hc Hdst Hw' p x Hp Hx. rewrite Hw'. unfold mudado.
  apply not_elem_of_cons in Hp as [Hps Hp].
  rewrite lookup_insert_ne by congruence.
  rewrite lookup_delete_ne by done. by apply Hc.
Qed.

Lemma conserva_copiado (salvo : list Path) (dst : Path) (n : nodo)
    (w w1 w' : mundo) :
  conserva salvo w w1 →
  arbol w !! dst = None →
  arbol w' = <[dst := n]> (arbol w1) →
  conserva salvo w w'.
Proof.
  intros Hc Hdst Hw' p x Hp Hx. rewrite Hw'.
  rewrite lookup_insert_ne by congruence. by apply Hc.
Qed.

Lemma nuevos_copiado (salvo : list Path) (carpeta dst : Path) (n : nodo)
    (w w1 w' : mundo) :
  nuevos salvo carpeta w w1 →
  length dst = 5 + length carpeta →
  arbol w' = <[dst := n]> (arbol w1) →
  nuevos salvo carpeta w w'.
Proof.
  intros Hnv Hlen Hw' q x Hq Hx. rewrite Hw' in Hx.
  destruct (decide (q = dst)) as [->|Hne]; [by right; right|].
  rewrite lookup_insert_ne in Hx by done. by apply Hnv.
Qed.

Lemma mudado_destino (src dst : Path) (n : nodo) (m : gmap Path nodo) :
  mudado src dst n m !! dst = Some n.
Proof. apply lookup_insert_eq. Qed.

Lemma mudado_origen (src dst : Path) (n : nodo) (m : gmap Path nodo) :
  src ≠ dst → mudado src dst n m !! src = None.
Proof.
  intros Hne. unfold mudado. rewrite lookup_insert_ne by done.
  apply lookup_delete_eq.
Qed.

Section seguro.
Context `{Python}.

Lemma mkdir_conserva (cd : Path) (w w1 : mundo) :
  mkdir_parents cd w = Normal tt w1 → conserva [] w w1.
Proof.
  intros Hm p x _ Hx.
  destruct (mkdir_parents_casos cd w) as [(e & He & _) | (w1' & Hm' & _ & _ & _ & Hl)].
  - congruence.
  - assert (w1' = w1) as -> by congruence. by rewrite Hl, Hx.
Qed.

Lemma mkdir_lanza_estorbo (archivo cd : Path) (w w' : mundo) (e : excepcion) :
  mkdir_parents cd w = Lanza e w' → ¬ via_libre archivo cd w.
Proof.
  intros Hm (_ & Hv).
  destruct (mkdir_parents_casos cd w)
    as [(e' & _ & q & Hq & Hf) | (w1 & Hm' & _)]; [|congruence].
  rewrite Hv in Hf by done. discriminate.
Qed.

(** What [mkdir_parents] leaves behind, as a relocation needs it. *)
Lemma mkdir_prepara (cd : Path) (w w1 : mundo) :
  cd ≠ [] →
  mkdir_parents cd w = Normal tt w1 →
  conserva [] w w1
  ∧ (∀ q x, arbol w1 !! q = Some x →
            arbol w !! q = Some x ∨ es_directorio x = true)
  ∧ bloqueados w1 = bloqueados w
  ∧ (∀ q, q ∈ prefijos cd → es_archivo_en (arbol w) q = false)
  ∧ ∀ q, q ∈ prefijos cd → es_dir_en (arbol w1) q = true.
Proof.
  intros Hcd Hm.
  destruct (mkdir_parents_casos cd w)
    as [(e & He & _) | (w1' & Hm' & Hb & _ & Hnf & Hl)]; [congruence|].
  assert (w1' = w1) as -> by congruence.
  split_and!; [by eapply mkdir_conserva| |done|done|by eapply mkdir_deja_directorio].
  intros q x Hx. rewrite Hl in Hx. destruct (arbol w !! q); [by left|].
  case_decide; [|done]. injection Hx as <-. by right.
Qed.

(** The tree after the file went to its new place. *)
Lemma paso_mudado (salvo : list Path) (archivo destino cd : Path) (n : nodo)
    (w w1 w' : mundo) :
  arbol w !! archivo = Some n →
  es_directorio n = false →
  archivo ∉ salvo →
  arbol w !! destino = None →
  length destino = S (length cd) →
  conserva salvo w w1 →
  (∀ q x, q ∉ salvo → arbol w1 !! q = Some x →
          arbol w !! q = Some x ∨ es_directorio x = true) →
  (∀ q, q ∈ prefijos cd → es_dir_en (arbol w1) q = true) →
  arbol w' = mudado archivo destino n (arbol w1) →
  arbol w' !! destino = Some n
  ∧ arbol w' !! archivo = None
  ∧ conserva (archivo :: salvo) w w'
  ∧ solo_llega salvo destino n w w'
  ∧ ∀ q, q ∈ prefijos cd → es_dir_en (arbol w') q = true.
Proof.
  intros Hn Hfile Hsalvo Hfree Hlen Hc Hnew Hdirs Hw'.
  assert (Hne : archivo ≠ destino) by congruence.
  split_and!.
  - rewrite Hw'. apply mudado_destino.
  - rewrite Hw'. by apply mudado_origen.
  - by eapply conserva_mudado.
  - intros q x Hq Hx. rewrite Hw' in Hx. unfold mudado in Hx.
    destruct (decide (q = destino)) as [->|Hqd].
    + rewrite lookup_insert_eq in Hx. injection Hx as <-. by right; right.
    + rewrite lookup_insert_ne in Hx by done.
      destruct (decide (q = archivo)) as [->|Hqa].
      * by rewrite lookup_delete_eq in Hx.
      * rewrite lookup_delete_ne in Hx by done.
        destruct (Hnew q x Hq Hx) as [?|?]; [by left | by right; left].
  - intros q Hq. pose proof (Hdirs q Hq) as Hd.
    unfold es_dir_en in *. rewrite Hw'. unfold mudado.
    rewrite lookup_insert_ne.
    + rewrite lookup_delete_ne; [done|].
      intros <-. rewrite (Hc archivo n Hsalvo Hn) in Hd. congruence.
    + intros <-. apply prefijos_spec in Hq as [_ Hq%prefix_length]. lia.
Qed.

(** The tree after the file was copied and could not be removed. *)
Lemma paso_copiado (salvo : list Path) (destino : Path) (n : nodo)
    (w w1 w' : mundo) :
  arbol w !! destino = None →
  conserva salvo w w1 →
  (∀ q x, q ∉ salvo → arbol w1 !! q = Some x →
          arbol w !! q = Some x ∨ es_directorio x = true) →
  arbol w' = <[destino := n]> (arbol w1) →
  conserva salvo w w' ∧ solo_llega salvo destino n w w'.
Proof.
  intros Hfree Hc Hnew Hw'. split.
  - intros p x Hp Hx. rewrite Hw'.
    rewrite lookup_insert_ne by congruence. by apply Hc.
  - intros q x Hq Hx. rewrite Hw' in Hx.
    destruct (decide (q = destino)) as [->|Hqd].
    + rewrite lookup_insert_eq in Hx. injection Hx as <-. by right; right.
    + rewrite lookup_insert_ne in Hx by done.
      destruct (Hnew q x Hq Hx) as [?|?]; [by left | by right; left].
Qed.

Lemma paso_seguro_completa {A} (salvo : list Path) (archivo cd : Path)
    (n : nodo) (w : mundo) (r : resultado A) :
  paso_seguro salvo archivo cd n w r →
  via_libre archivo cd w →
  ∃ x w', r = Normal x w'.
Proof.
  intros (k & _ & _ & Hr) Hv.
  destruct r as [x w'|e w'|]; [eauto | by destruct Hr | done].
Qed.

Lemma typer_paso_seguro (carpeta archivo : Path) (cuenta : nat * nat)
    (w : mundo) (f : fecha) (d : string) :
  arbol w !! archivo = Some (Archivo f d) →
  fecha_valida f →
  Typer.es_temporal archivo = false →
  ∃ cd, Typer.destino_para_archivo archivo carpeta w = Normal cd w
      ∧ paso_seguro [] archivo cd (Archivo f d) w
          (Typer.cuerpo carpeta false archivo cuenta w).
Proof.
  intros Hn Hv Ht.
  destruct (typer_cuerpo_archivo carpeta archivo false cuenta w f d Hn Hv Ht)
    as (cd & Hd & [(e & He & ->) | (w1 & n & Hm & Hfree & Hmin & ->)]).
  - exists cd. split; [done|].
    destruct (destino_libre_primero cd archivo w) as (k & _ & Hk & Hkmin).
    exists k. split; [done|]. split; [done|]. split_and!.
    + by eapply mkdir_lanza_estorbo.
    + apply conserva_refl.
    + intros q x _ Hx. by left.
    + done.
  - exists cd. split; [done|]. exists n. split; [done|]. split; [done|].
    assert (Hcd : cd ≠ []).
    { destruct (destino_para_archivo_casos archivo carpeta w)
        as [(e & He) | (a & b & c & x & Hx)]; [congruence|].
      rewrite Hd in Hx. injection Hx as ->. apply barra_no_vacia. }
    destruct (mkdir_prepara cd w w1 Hcd Hm) as (Hc & Hnew & Hb & Hnf & Hdirs).
    cbv zeta. case_bool_decide as Hlock.
    + destruct (paso_copiado [] (intento cd archivo n) (Archivo f d) w w1
                  (con_arbol (<[intento cd archivo n := Archivo f d]> (arbol w1))
                     (con_linea ("[MOVER] " +:+ str_ruta archivo +:+ " -> "
                                 +:+ str_ruta (intento cd archivo n)) w1)))
        as (Hc' & Hs'); [done | done | by intros q x _; apply Hnew | done |].
      split_and!; [by intros [? _] | done | done |].
      cbn [bloqueados con_arbol con_linea]. exact Hb.
    + destruct (paso_mudado [] archivo (intento cd archivo n) cd (Archivo f d) w w1
                  (con_arbol (mudado archivo (intento cd archivo n) (Archivo f d)
                                (arbol w1))
                     (con_linea ("[MOVER] " +:+ str_ruta archivo +:+ " -> "
                                 +:+ str_ruta (intento cd archivo n)) w1)))
        as (H1 & H2 & H3 & H4 & H5);
        [done | done | apply not_elem_of_nil | done | apply length_intento
        | done | by intros q x _; apply Hnew | done | done |].
      by split_and!.
Qed.

Lemma registrar_directorios (linea : string) (w : mundo) (q : Path) :
  es_dir_en (arbol w) q = true →
  es_dir_en (arbol (registrar linea w)) q = true.
Proof.
  intros Hd. destruct (decide (q = Descargas.FICHERO_LOG)) as [->|Hq].
  - unfold registrar, es_dir_en in *.
    destruct (arbol w !! Descargas.FICHERO_LOG) as [[]|] eqn:E; try done.
    case_bool_decide; by rewrite E.
  - unfold es_dir_en. by rewrite registrar_otros.
Qed.

Lemma descargas_paso_seguro (ruta : Path) (w : mundo) (f : fecha) (d : string) :
  arbol w !! ruta = Some (Archivo f d) →
  fecha_valida f →
  ruta ≠ Descargas.FICHERO_LOG →
  ∃ mes, Descargas.MESES_ES !! (month f - 1) = Some mes
    ∧ paso_seguro [Descargas.FICHERO_LOG] ruta
        (Descargas.CARPETA_ORDENADA
         // Descargas.categoria_para_extension (str_lower (suffix (name ruta)))
         // pretty (year f) // mes // Descargas.quincena_de f)
        (Archivo f d) w (Descargas.mover_y_organizar ruta w).
Proof.
  intros Hn Hv Hlog.
  destruct (descargas_mover_archivo ruta w f d Hn Hv Hlog)
    as (mes & Hmes & [(e & He & ->) | (w1 & n & Hm & Hfree & Hmin & ->)]).
  - exists mes. split; [done|].
    set (cd := _ // _ // _ // _ // _) in *.
    destruct (destino_libre_primero cd ruta w) as (k & _ & Hk & Hkmin).
    exists k. split; [done|]. split; [done|]. split_and!.
    + by eapply mkdir_lanza_estorbo.
    + apply conserva_refl.
    + intros q x _ Hx. by left.
    + done.
  - exists mes. split; [done|].
    set (cd := _ // _ // _ // _ // _) in *.
    exists n. split; [done|]. split; [done|].
    assert (Hcd : cd ≠ []) by apply barra_no_vacia.
    destruct (mkdir_prepara cd w w1 Hcd Hm) as (Hc & Hnew & Hb & Hnf & Hdirs).
    cbv zeta. set (w3 := registrar _ _).
    assert (Hotros : ∀ q, q ∉ [Descargas.FICHERO_LOG] →
                          arbol w3 !! q = arbol w1 !! q).
    { intros q Hq. unfold w3.
      rewrite registrar_otros by (intros ->; apply Hq, list_elem_of_here).
      done. }
    assert (Hc3 : conserva [Descargas.FICHERO_LOG] w w3).
    { intros p x Hp Hx. rewrite Hotros by done.
      apply Hc; [apply not_elem_of_nil | done]. }
    assert (Hnew3 : ∀ q x, q ∉ [Descargas.FICHERO_LOG] →
                           arbol w3 !! q = Some x →
                           arbol w !! q = Some x ∨ es_directorio x = true).
    { intros q x Hq Hx. rewrite Hotros in Hx by done. by apply Hnew. }
    assert (Hb3 : bloqueados w3 = bloqueados w).
    { unfold w3. rewrite registrar_bloqueados. exact Hb. }
    assert (Hdirs3 : ∀ q, q ∈ prefijos cd → es_dir_en (arbol w3) q = true).
    { intros q Hq. unfold w3. apply registrar_directorios.
      cbn [arbol con_linea]. by apply Hdirs. }
    case_bool_decide as Hlock.
    + destruct (paso_copiado [Descargas.FICHERO_LOG] (intento cd ruta n)
                  (Archivo f d) w w3
                  (con_arbol (<[intento cd ruta n := Archivo f d]> (arbol w3)) w3))
        as (Hc' & Hs'); [done | done | done | done |].
      split_and!; [by intros [? _] | done | done | exact Hb3].
    + destruct (paso_mudado [Descargas.FICHERO_LOG] ruta (intento cd ruta n) cd
                  (Archivo f d) w w3
                  (con_arbol (mudado ruta (intento cd ruta n) (Archivo f d)
                                (arbol w3)) w3))
        as (H1 & H2 & H3 & H4 & H5);
        [done | done | by intros ?%list_elem_of_singleton | done
        | apply length_intento | done | done | done | done |].
      split_and!; try done.
Qed.

(** Two files of the same name relocated one after the other towards the
    same directory end under different attempts, both present, and nothing
    else was touched. *)
Lemma homonimos_distintos {A B} (salvo : list Path) (a1 a2 cd : Path)
    (n1 n2 : nodo) (w w1 w2 : mundo) (x1 : A) (x2 : B) :
  name a1 = name a2 →
  is_Some (arbol w !! a2) →
  (∀ k, intento cd a1 k ∉ salvo) →
  paso_seguro salvo a1 cd n1 w (Normal x1 w1) →
  paso_seguro salvo a2 cd n2 w1 (Normal x2 w2) →
  ∃ k1 k2, k1 ≠ k2
    ∧ arbol w2 !! intento cd a1 k1 = Some n1
    ∧ arbol w2 !! intento cd a1 k2 = Some n2
    ∧ conserva (a1 :: a2 :: salvo) w w2.
Proof.
  intros Hname Ha2 Hsalvo (k1 & Hf1 & _ & Hd1 & _ & Hc1 & _)
    (k2 & Hf2 & _ & Hd2 & _ & Hc2 & _).
  rewrite <- (intento_mismo_nombre cd a1 a2) in Hf2, Hd2 by done.
  exists k1, k2. split_and!; [| |done|].
  - intros ->. congruence.
  - apply Hc2; [|done]. intros [Heq|Hin]%elem_of_cons.
    + rewrite <- Heq in Ha2. rewrite Hf1 in Ha2. by destruct Ha2.
    + by apply Hsalvo in Hin.
  - intros p x Hp Hx.
    apply not_elem_of_cons in Hp as [Hp1 Hp].
    apply not_elem_of_cons in Hp as [Hp2 Hp].
    apply Hc2; [by apply not_elem_of_cons|].
    apply Hc1; [by apply not_elem_of_cons|done].
Qed.

End seguro.

Section homonimos.
Context `{Python}.

Lemma typer_es_temporal_nombre (a b : Path) :
  name a = name b → Typer.es_temporal a = Typer.es_temporal b.
Proof. intros Hn. unfold Typer.es_temporal. by rewrite Hn. Qed.

(** The planner looks at the file's own entry only. *)
Lemma destino_para_archivo_entrada (archivo base cd : Path) (w w1 : mundo)
    (n : nodo) :
  arbol w !! archivo = Some n →
  arbol w1 !! archivo = Some n →
  Typer.destino_para_archivo archivo base w = Normal cd w →
  fecha_valida (mtime n)
  ∧ Typer.destino_para_archivo archivo base w1 = Normal cd w1.
Proof.
  intros Hn Hn1 Hd.
  assert (Hv : fecha_valida (mtime n)).
  { destruct (stat_fecha_casos archivo w) as [(e & He)|(n' & Hn' & Hv & _)].
    - unfold Typer.destino_para_archivo in Hd. rewrite bind_eq, He in Hd.
      discriminate.
    - congruence. }
  split; [done|].
  destruct (destino_para_archivo_ok archivo base w _ Hn Hv) as (m & Hm & Hdw).
  destruct (destino_para_archivo_ok archivo base w1 _ Hn1 Hv) as (m1 & Hm1 & Hdw1).
  rewrite Hm in Hm1. injection Hm1 as <-. congruence.
Qed.

Lemma typer_homonimos (carpeta a1 a2 cd : Path) (cuenta : nat * nat)
    (w : mundo) (f1 f2 : fecha) (d1 d2 : string) :
  arbol w !! a1 = Some (Archivo f1 d1) →
  arbol w !! a2 = Some (Archivo f2 d2) →
  a1 ≠ a2 →
  name a1 = name a2 →
  Typer.es_temporal a1 = false →
  Typer.destino_para_archivo a1 carpeta w = Normal cd w →
  Typer.destino_para_archivo a2 carpeta w = Normal cd w →
  via_libre a1 cd w →
  a2 ∉ bloqueados w →
  ∃ c w' k1 k2,
    para_cada (Typer.cuerpo carpeta false) [a1; a2] cuenta w = Normal c w'
    ∧ k1 ≠ k2
    ∧ arbol w' !! intento cd a1 k1 = Some (Archivo f1 d1)
    ∧ arbol w' !! intento cd a1 k2 = Some (Archivo f2 d2)
    ∧ conserva [a1; a2] w w'.
Proof.
  intros H1 H2 Hne Hname Ht Hd1 Hd2 Hv1 Hb2.
  destruct (destino_para_archivo_entrada a1 carpeta cd w w _ H1 H1 Hd1)
    as [Hf1 _].
  destruct (typer_paso_seguro carpeta a1 cuenta w f1 d1 H1 Hf1 Ht)
    as (cd1 & Hcd1 & Hs1).
  assert (cd1 = cd) as -> by congruence.
  destruct (paso_seguro_completa _ _ _ _ _ _ Hs1 Hv1) as (c1 & w1 & E1).
  rewrite E1 in Hs1.
  assert (H2' : arbol w1 !! a2 = Some (Archivo f2 d2)).
  { destruct Hs1 as (k & _ & _ & _ & _ & Hc & _). apply Hc; [|done].
    intros ?%list_elem_of_singleton. congruence. }
  destruct (destino_para_archivo_entrada a2 carpeta cd w w1 _ H2 H2' Hd2)
    as [Hf2 Hd2'].
  assert (Ht2 : Typer.es_temporal a2 = false)
    by (by rewrite <- (typer_es_temporal_nombre a1 a2)).
  destruct (typer_paso_seguro carpeta a2 c1 w1 f2 d2 H2' Hf2 Ht2)
    as (cd2 & Hcd2 & Hs2).
  assert (cd2 = cd) as -> by congruence.
  assert (Hv2 : via_libre a2 cd w1).
  { destruct Hs1 as (k & _ & _ & _ & _ & _ & _ & Hb & Hdirs).
    split; [by rewrite Hb|]. intros q Hq. apply Hdirs in Hq.
    unfold es_dir_en, es_archivo_en in *. by destruct (arbol w1 !! q) as [[]|]. }
  destruct (paso_seguro_completa _ _ _ _ _ _ Hs2 Hv2) as (c2 & w2 & E2).
  rewrite E2 in Hs2.
  destruct (homonimos_distintos [] a1 a2 cd (Archivo f1 d1) (Archivo f2 d2)
              w w1 w2 c1 c2)
    as (k1 & k2 & Hk & Hl1 & Hl2 & Hc); try done.
  { intros k. apply not_elem_of_nil. }
  exists c2, w2, k1, k2. split_and!; try done.
  cbn [para_cada]. rewrite bind_eq, E1. cbv beta iota.
  rewrite bind_eq, E2. reflexivity.
Qed.

Lemma descargas_homonimos (a1 a2 : Path) (w : mundo) (f1 f2 : fecha)
    (d1 d2 : string) :
  arbol w !! a1 = Some (Archivo f1 d1) →
  arbol w !! a2 = Some (Archivo f2 d2) →
  a1 ≠ a2 →
  name a1 = name a2 →
  fecha_valida f1 →
  fecha_valida f2 →
  year f2 = year f1 →
  month f2 = month f1 →
  Descargas.quincena_de f2 = Descargas.quincena_de f1 →
  a1 ≠ Descargas.FICHERO_LOG →
  a2 ≠ Descargas.FICHERO_LOG →
  ∃ mes,
    Descargas.MESES_ES !! (month f1 - 1) = Some mes
    ∧ let cd := Descargas.CARPETA_ORDENADA
                // Descargas.categoria_para_extension (str_lower (suffix (name a1)))
                // pretty (year f1) // mes // Descargas.quincena_de f1 in
      via_libre a1 cd w →
      a2 ∉ bloqueados w →
      ∃ w' k1 k2,
        (Descargas.mover_y_organizar a1 ;;; Descargas.mover_y_organizar a2) w
          = Normal tt w'
        ∧ k1 ≠ k2
        ∧ arbol w' !! intento cd a1 k1 = Some (Archivo f1 d1)
        ∧ arbol w' !! intento cd a1 k2 = Some (Archivo f2 d2)
        ∧ conserva [a1; a2; Descargas.FICHERO_LOG] w w'.
Proof.
  intros H1 H2 Hne Hname Hf1 Hf2 Hy Hm Hq Hl1 Hl2.
  destruct (descargas_paso_seguro a1 w f1 d1 H1 Hf1 Hl1) as (mes & Hmes & Hs1).
  exists mes. split; [done|]. intros cd Hv1 Hb2. fold cd in Hs1.
  destruct (paso_seguro_completa _ _ _ _ _ _ Hs1 Hv1) as ([] & w1 & E1).
  rewrite E1 in Hs1.
  assert (H2' : arbol w1 !! a2 = Some (Archivo f2 d2)).
  { destruct Hs1 as (k & _ & _ & _ & _ & Hc & _). apply Hc; [|done].
    intros [?|?%list_elem_of_singleton]%elem_of_cons; congruence. }
  destruct (descargas_paso_seguro a2 w1 f2 d2 H2' Hf2 Hl2) as (mes2 & Hmes2 & Hs2).
  rewrite Hm, Hmes in Hmes2. injection Hmes2 as <-.
  rewrite <- Hname, Hy, Hq in Hs2. fold cd in Hs2.
  assert (Hv2 : via_libre a2 cd w1).
  { destruct Hs1 as (k & _ & _ & _ & _ & _ & _ & Hb & Hdirs).
    split; [by rewrite Hb|]. intros q Hq'. apply Hdirs in Hq'.
    unfold es_dir_en, es_archivo_en in *. by destruct (arbol w1 !! q) as [[]|]. }
  destruct (paso_seguro_completa _ _ _ _ _ _ Hs2 Hv2) as ([] & w2 & E2).
  rewrite E2 in Hs2.
  destruct (homonimos_distintos [Descargas.FICHERO_LOG] a1 a2 cd
              (Archivo f1 d1) (Archivo f2 d2) w w1 w2 tt tt)
    as (k1 & k2 & Hk & Hr1 & Hr2 & Hc); try done.
  { intros k Heq%list_elem_of_singleton%(f_equal length).
    rewrite length_intento, length_FICHERO_LOG in Heq.
    unfold cd, Descargas.CARPETA_ORDENADA in Heq.
    rewrite !length_barra in Heq. lia. }
  exists w2, k1, k2. split_and!; try done.
  rewrite bind_eq, E1. exact E2.
Qed.

End homonimos.

(** C2. The directory planned for a file is
    root / category / year / month name / half-month bucket: year, month and
    day are those of the file's modification date, the month name is entry
    month - 1 of the twelve-entry table [MESES_ES], and the bucket is "1-15"
    when the day is at most 15 and "16-31" otherwise. For the command line
    this is what [destino_para_archivo] returns, and two files with the same
    category and the same modification date get the same directory; for the
    watch script it is the directory a completed [mover_y_organizar] has put
    the file in. *)
Theorem destino_determinado `{Python} :
  (∀ (a1 a2 base : Path) (w1 w2 : mundo) (n1 n2 : nodo),
     arbol w1 !! a1 = Some n1 →
     arbol w2 !! a2 = Some n2 →
     fecha_valida (mtime n1) →
     Typer.categoria_para_extension (str_lower (suffix (name a2)))
       = Typer.categoria_para_extension (str_lower (suffix (name a1))) →
     mtime n2 = mtime n1 →
     length Typer.MESES_ES = 12
     ∧ ∃ mes, Typer.MESES_ES !! (month (mtime n1) - 1) = Some mes
       ∧ let d := base
                  // Typer.categoria_para_extension (str_lower (suffix (name a1)))
                  // pretty (year (mtime n1)) // mes
                  // (if bool_decide (day (mtime n1) ≤ 15) then "1-15" else "16-31")
         in Typer.destino_para_archivo a1 base w1 = Normal d w1
            ∧ Typer.destino_para_archivo a2 base w2 = Normal d w2)
  ∧ (∀ (ruta : Path) (w w' : mundo) (f : fecha) (d : string),
       arbol w !! ruta = Some (Archivo f d) →
       fecha_valida f →
       ruta ≠ Descargas.FICHERO_LOG →
       Descargas.mover_y_organizar ruta w = Normal tt w' →
       length Descargas.MESES_ES = 12
       ∧ ∃ mes k,
           Descargas.MESES_ES !! (month f - 1) = Some mes
           ∧ arbol w'
             !! intento
                  (Descargas.CARPETA_ORDENADA
                   // Descargas.categoria_para_extension
                        (str_lower (suffix (name ruta)))
                   // pretty (year f) // mes
                   // (if bool_decide (day f ≤ 15) then "1-15" else "16-31"))
                  ruta k
             = Some (Archivo f d)).
Proof.
  split.
  - apply typer_mismo_destino.
  - intros ruta w w' f d Hn Hv Hlog Hrun. split; [reflexivity|].
    destruct (descargas_paso_seguro ruta w f d Hn Hv Hlog) as (mes & Hmes & Hs).
    rewrite Hrun in Hs. destruct Hs as (k & _ & _ & Hk & _).
    exists mes, k. split; [exact Hmes|].
    rewrite <- quincena_descargas. exact Hk.
Qed.

(** C2, for "report.pdf" and "notas.TXT", both last modified on 2024-03-10. *)
Lemma destino_determinado_witness :
  length (@Typer.MESES_ES) = 12
  ∧ ∃ mes, Typer.MESES_ES !! 2 = Some mes
    ∧ @Typer.destino_para_archivo python_ascii (descargas // "report.pdf")
        descargas mundo0
      = Normal (descargas // "documentos" // "2024" // mes // "1-15") mundo0
    ∧ @Typer.destino_para_archivo python_ascii (descargas // "notas.TXT")
        descargas mundo0
      = Normal (descargas // "documentos" // "2024" // mes // "1-15") mundo0.
Proof.
  apply (proj1 (@destino_determinado python_ascii)
           (descargas // "report.pdf") (descargas // "notas.TXT") descargas
           mundo0 mundo0
           (Archivo (Fecha 2024 3 10) "uno") (Archivo (Fecha 2024 3 10) "tres")).
  - vm_compute. reflexivity.
  - vm_compute. reflexivity.
  - unfold fecha_valida. simpl. lia.
  - vm_compute. reflexivity.
  - reflexivity.
Defined.


(** The two files named "photo.jpg" of [mundo_fotos], swept one after the
    other: the first keeps its name, the second becomes "photo_1.jpg". *)
Example dos_fotos :
  let destino := descargas // "imagenes" // "2024" // "marzo" // "1-15" in
  let r := para_cada (@Typer.cuerpo python_ascii descargas false)
             [descargas // "photo.jpg"; descargas // "viaje" // "photo.jpg"]
             (0, 0) mundo_fotos in
  valor r = Some (2, 2)
  ∧ arbol (mundo_final mundo_fotos r) !! (destino // "photo.jpg")
    = Some (Archivo (Fecha 2024 3 10) "playa")
  ∧ arbol (mundo_final mundo_fotos r) !! (destino // "photo_1.jpg")
    = Some (Archivo (Fecha 2024 3 10) "monte").
Proof. intros destino r. split_and!; vm_compute; reflexivity. Qed.

(** C1. A relocation, by the body of the command-line sweep or by
    [mover_y_organizar], tries the file's own name and then stem_1.ext,
    stem_2.ext, ... up to the first of these names that is not in the
    destination directory. It completes whenever nothing stands in the way
    (the file is not locked and no regular file sits where the destination
    directory has to be), and then the file is under that name with its
    date and contents and is gone from its old place. It raises only when
    something stands in the way. In both cases every other entry of the
    tree is as it was (the watch script also appends to its log file), and
    nothing arrives in the tree but directories and the file itself under
    that name. Two different files of the same name destined for the same
    directory and relocated one after the other, with nothing in the way,
    are both relocated: they end under two different names of that
    directory, each with its own date and contents, and no other entry
    changed. *)
Theorem reubicacion_sin_sobrescribir `{Python} :
  (∀ (carpeta archivo : Path) (cuenta : nat * nat) (w : mundo)
     (f : fecha) (d : string),
     arbol w !! archivo = Some (Archivo f d) →
     fecha_valida f →
     Typer.es_temporal archivo = false →
     ∃ cd, Typer.destino_para_archivo archivo carpeta w = Normal cd w
         ∧ paso_seguro [] archivo cd (Archivo f d) w
             (Typer.cuerpo carpeta false archivo cuenta w)
         ∧ (via_libre archivo cd w →
            ∃ c w', Typer.cuerpo carpeta false archivo cuenta w = Normal c w'))
  ∧ (∀ (ruta : Path) (w : mundo) (f : fecha) (d : string),
       arbol w !! ruta = Some (Archivo f d) →
       fecha_valida f →
       ruta ≠ Descargas.FICHERO_LOG →
       ∃ mes, Descargas.MESES_ES !! (month f - 1) = Some mes
         ∧ let cd := Descargas.CARPETA_ORDENADA
                     // Descargas.categoria_para_extension
                          (str_lower (suffix (name ruta)))
                     // pretty (year f) // mes // Descargas.quincena_de f in
           paso_seguro [Descargas.FICHERO_LOG] ruta cd (Archivo f d) w
             (Descargas.mover_y_organizar ruta w)
           ∧ (via_libre ruta cd w →
              ∃ w', Descargas.mover_y_organizar ruta w = Normal tt w'))
  ∧ (∀ (carpeta a1 a2 cd : Path) (cuenta : nat * nat) (w : mundo)
       (f1 f2 : fecha) (d1 d2 : string),
       arbol w !! a1 = Some (Archivo f1 d1) →
       arbol w !! a2 = Some (Archivo f2 d2) →
       a1 ≠ a2 →
       name a1 = name a2 →
       Typer.es_temporal a1 = false →
       Typer.destino_para_archivo a1 carpeta w = Normal cd w →
       Typer.destino_para_archivo a2 carpeta w = Normal cd w →
       via_libre a1 cd w →
       a2 ∉ bloqueados w →
       ∃ c w' k1 k2,
         para_cada (Typer.cuerpo carpeta false) [a1; a2] cuenta w = Normal c w'
         ∧ k1 ≠ k2
         ∧ arbol w' !! intento cd a1 k1 = Some (Archivo f1 d1)
         ∧ arbol w' !! intento cd a1 k2 = Some (Archivo f2 d2)
         ∧ conserva [a1; a2] w w')
  ∧ (∀ (a1 a2 : Path) (w : mundo) (f1 f2 : fecha) (d1 d2 : string),
       arbol w !! a1 = Some (Archivo f1 d1) →
       arbol w !! a2 = Some (Archivo f2 d2) →
       a1 ≠ a2 →
       name a1 = name a2 →
       fecha_valida f1 →
       fecha_valida f2 →
       year f2 = year f1 →
       month f2 = month f1 →
       Descargas.quincena_de f2 = Descargas.quincena_de f1 →
       a1 ≠ Descargas.FICHERO_LOG →
       a2 ≠ Descargas.FICHERO_LOG →
       ∃ mes,
         Descargas.MESES_ES !! (month f1 - 1) = Some mes
         ∧ let cd := Descargas.CARPETA_ORDENADA
                     // Descargas.categoria_para_extension
                          (str_lower (suffix (name a1)))
                     // pretty (year f1) // mes // Descargas.quincena_de f1 in
           via_libre a1 cd w →
           a2 ∉ bloqueados w →
           ∃ w' k1 k2,
             (Descargas.mover_y_organizar a1 ;;; Descargas.mover_y_organizar a2) w
               = Normal tt w'
             ∧ k1 ≠ k2
             ∧ arbol w' !! intento cd a1 k1 = Some (Archivo f1 d1)
             ∧ arbol w' !! intento cd a1 k2 = Some (Archivo f2 d2)
             ∧ conserva [a1; a2; Descargas.FICHERO_LOG] w w').
Proof.
  split_and!.
  - intros carpeta archivo cuenta w f d Hn Hv Ht.
    destruct (typer_paso_seguro carpeta archivo cuenta w f d Hn Hv Ht)
      as (cd & Hd & Hs).
    exists cd. split_and!; [done | done |].
    by apply paso_seguro_completa with (1 := Hs).
  - intros ruta w f d Hn Hv Hlog.
    destruct (descargas_paso_seguro ruta w f d Hn Hv Hlog) as (mes & Hmes & Hs).
    exists mes. split; [done|]. intros cd. split; [done|]. intros Hvia.
    destruct (paso_seguro_completa _ _ _ _ _ _ Hs Hvia) as ([] & w' & E).
    by exists w'.
  - apply typer_homonimos.
  - apply descargas_homonimos.
Qed.

(** C1 for the two files named "photo.jpg" of [mundo_fotos], relocated one
    after the other by the command line and by the watch script: both are
    relocated, and they end under two different names of the directory
    for the images of the first half of March 2024. Evaluating the two
    runs shows the names: the first file keeps "photo.jpg", the second
    becomes "photo_1.jpg". *)
Lemma reubicacion_sin_sobrescribir_witness :
  (∃ c w' k1 k2,
     para_cada (@Typer.cuerpo python_ascii descargas false)
       [descargas // "photo.jpg"; descargas // "viaje" // "photo.jpg"]
       (0, 0) mundo_fotos = Normal c w'
     ∧ k1 ≠ k2
     ∧ arbol w' !! intento (descargas // "imagenes" // "2024" // "marzo" // "1-15")
                     (descargas // "photo.jpg") k1
       = Some (Archivo (Fecha 2024 3 10) "playa")
     ∧ arbol w' !! intento (descargas // "imagenes" // "2024" // "marzo" // "1-15")
                     (descargas // "photo.jpg") k2
       = Some (Archivo (Fecha 2024 3 10) "monte")
     ∧ conserva [descargas // "photo.jpg"; descargas // "viaje" // "photo.jpg"]
         mundo_fotos w')
  ∧ (∃ w' k1 k2,
       (@Descargas.mover_y_organizar python_ascii (descargas // "photo.jpg") ;;;
        @Descargas.mover_y_organizar python_ascii
          (descargas // "viaje" // "photo.jpg")) mundo_fotos
       = Normal tt w'
       ∧ k1 ≠ k2
       ∧ arbol w' !! intento (descargas // "imagenes" // "2024" // "marzo" // "1-15")
                       (descargas // "photo.jpg") k1
         = Some (Archivo (Fecha 2024 3 10) "playa")
       ∧ arbol w' !! intento (descargas // "imagenes" // "2024" // "marzo" // "1-15")
                       (descargas // "photo.jpg") k2
         = Some (Archivo (Fecha 2024 3 10) "monte")
       ∧ conserva [descargas // "photo.jpg"; descargas // "viaje" // "photo.jpg";
                   @Descargas.FICHERO_LOG python_ascii]
           mundo_fotos w')
  ∧ (let destino := descargas // "imagenes" // "2024" // "marzo" // "1-15" in
     let rt := para_cada (@Typer.cuerpo python_ascii descargas false)
                 [descargas // "photo.jpg"; descargas // "viaje" // "photo.jpg"]
                 (0, 0) mundo_fotos in
     let rd := (@Descargas.mover_y_organizar python_ascii
                  (descargas // "photo.jpg") ;;;
                @Descargas.mover_y_organizar python_ascii
                  (descargas // "viaje" // "photo.jpg")) mundo_fotos in
     arbol (mundo_final mundo_fotos rt) !! (destino // "photo.jpg")
     = Some (Archivo (Fecha 2024 3 10) "playa")
     ∧ arbol (mundo_final mundo_fotos rt) !! (destino // "photo_1.jpg")
       = Some (Archivo (Fecha 2024 3 10) "monte")
     ∧ arbol (mundo_final mundo_fotos rd) !! (destino // "photo.jpg")
       = Some (Archivo (Fecha 2024 3 10) "playa")
     ∧ arbol (mundo_final mundo_fotos rd) !! (destino // "photo_1.jpg")
       = Some (Archivo (Fecha 2024 3 10) "monte")).
Proof.
  assert (Hvia : via_libre (descargas // "photo.jpg")
                   (descargas // "imagenes" // "2024" // "marzo" // "1-15")
                   mundo_fotos).
  { split.
    - apply (bool_decide_unpack _). vm_compute. exact I.
    - apply Forall_forall. apply (bool_decide_unpack _). vm_compute. exact I. }
  split_and!; [| |intros destino rt rd; split_and!; vm_compute; reflexivity].
  - apply (proj1 (proj2 (proj2 (@reubicacion_sin_sobrescribir python_ascii)))).
    + vm_compute. reflexivity.
    + vm_compute. reflexivity.
    + intros Heq. vm_compute in Heq. discriminate Heq.
    + vm_compute. reflexivity.
    + vm_compute. reflexivity.
    + vm_compute. reflexivity.
    + vm_compute. reflexivity.
    + exact Hvia.
    + apply (bool_decide_unpack _). vm_compute. exact I.
  - destruct (proj2 (proj2 (proj2 (@reubicacion_sin_sobrescribir python_ascii)))
                (descargas // "photo.jpg") (descargas // "viaje" // "photo.jpg")
                mundo_fotos (Fecha 2024 3 10) (Fecha 2024 3 10) "playa" "monte")
      as (mes & Hmes & Hrun).
    + vm_compute. reflexivity.
    + vm_compute. reflexivity.
    + intros Heq. vm_compute in Heq. discriminate Heq.
    + vm_compute. reflexivity.
    + unfold fecha_valida. simpl. lia.
    + unfold fecha_valida. simpl. lia.
    + reflexivity.
    + reflexivity.
    + reflexivity.
    + intros Heq. vm_compute in Heq. discriminate Heq.
    + intros Heq. vm_compute in Heq. discriminate Heq.
    + vm_compute in Hmes. injection Hmes as <-.
      apply Hrun.
      * exact Hvia.
      * apply (bool_decide_unpack _). vm_compute. exact I.
Defined.

(** ** What one turn of a sweep may change *)

Lemma conserva_debil (s1 s2 : list Path) (w w' : mundo) :
  s1 ⊆ s2 → conserva s1 w w' → conserva s2 w w'.
Proof. intros Hsub Hc p x Hp Hx. apply Hc; [|done]. intros ?. by apply Hp, Hsub. Qed.

Lemma nuevos_refl (salvo : list Path) (carpeta : Path) (w : mundo) :
  nuevos salvo carpeta w w.
Proof. intros q x _ Hx. by left. Qed.

Section efectos.
Context `{Python}.

Lemma mkdir_nuevos (salvo : list Path) (carpeta cd : Path) (w w1 : mundo) :
  mkdir_parents cd w = Normal tt w1 → nuevos salvo carpeta w w1.
Proof.
  intros Hm q x _ Hx.
  destruct (mkdir_parents_casos cd w)
    as [(e & He & _) | (w1' & Hm' & _ & _ & _ & Hl)]; [congruence|].
  assert (w1' = w1) as -> by congruence.
  rewrite Hl in Hx. destruct (arbol w !! q); [by left|].
  case_decide; [|done]. injection Hx as <-. by right; left.
Qed.

Lemma mkdir_bloqueados (cd : Path) (w w1 : mundo) :
  mkdir_parents cd w = Normal tt w1 → bloqueados w1 = bloqueados w.
Proof.
  intros Hm.
  destruct (mkdir_parents_casos cd w)
    as [(e & He & _) | (w1' & Hm' & Hb & _)]; congruence.
Qed.

Lemma typer_cuerpo_no_elegible (carpeta archivo : Path) (dry_run : bool)
    (cuenta : nat * nat) (w : mundo) :
  ¬ elegible_typer w archivo →
  Typer.cuerpo carpeta dry_run archivo cuenta w = Normal cuenta w.
Proof.
  intros Hne. unfold Typer.cuerpo. rewrite bind_eq. unfold is_file.
  destruct (arbol w !! archivo) as [[m|f d]|] eqn:Hn; try reflexivity.
  cbn [es_directorio negb]. cbv beta iota.
  destruct (Typer.es_temporal archivo) eqn:Ht; [reflexivity|].
  exfalso. apply Hne. by exists f, d.
Qed.

Lemma typer_cuerpo_destino_lanza (carpeta archivo : Path) (dry_run : bool)
    (cuenta : nat * nat) (w : mundo) (e : excepcion) :
  elegible_typer w archivo →
  Typer.destino_para_archivo archivo carpeta w = Lanza e w →
  Typer.cuerpo carpeta dry_run archivo cuenta w = Lanza e w.
Proof.
  intros (f & d & Hn & Ht) Hd. unfold Typer.cuerpo. rewrite bind_eq.
  unfold is_file. rewrite Hn. cbn [es_directorio negb]. cbv beta iota.
  rewrite Ht, bind_eq, Hd. reflexivity.
Qed.

Lemma typer_cuerpo_efecto (carpeta archivo : Path) (dry_run : bool)
    (cuenta : nat * nat) (w : mundo) :
  efecto_typer carpeta archivo dry_run w
    (Typer.cuerpo carpeta dry_run archivo cuenta w).
Proof.
  destruct (arbol w !! archivo) as [[m|f d]|] eqn:Hn.
  1,3: rewrite typer_cuerpo_no_elegible
         by (intros (f' & d' & Hf & _); congruence);
       (split_and!; [apply conserva_refl | apply nuevos_refl | done |]);
       intros (f' & d' & Hf & _); congruence.
  destruct (Typer.es_temporal archivo) eqn:Ht.
  { rewrite typer_cuerpo_no_elegible
      by (intros (f' & d' & _ & Hf); congruence).
    split_and!; [apply conserva_refl | apply nuevos_refl | done |].
    intros (f' & d' & _ & Hf); congruence. }
  assert (Hel : elegible_typer w archivo) by (by exists f, d).
  destruct (destino_para_archivo_casos archivo carpeta w)
    as [(e & He) | (a & b & c & x & Hd)].
  { rewrite (typer_cuerpo_destino_lanza _ _ _ _ _ e Hel He).
    split_and!; [apply conserva_refl | apply nuevos_refl | done]. }
  set (cd := carpeta // a // b // c // x) in *.
  destruct (typer_cuerpo_desde carpeta archivo cd dry_run cuenta w f d Hn Ht Hd)
    as [(e & _ & ->) | (w1 & n & Hm & Hfree & _ & ->)].
  { split_and!; [apply conserva_refl | apply nuevos_refl | done]. }
  pose proof (mkdir_conserva _ _ _ Hm) as Hc.
  pose proof (mkdir_nuevos [] carpeta _ _ _ Hm) as Hnv.
  pose proof (mkdir_bloqueados _ _ _ Hm) as Hb.
  cbv zeta. destruct dry_run.
  { split_and!; try done.
    eapply conserva_debil; [|exact Hc]. apply list_subseteq_nil. }
  assert (Hlen : length (intento cd archivo n) = 5 + length carpeta).
  { rewrite length_intento. unfold cd. rewrite !length_barra. lia. }
  case_bool_decide.
  { split_and!; [|by eapply nuevos_copiado|done].
    eapply conserva_copiado; [exact Hc | exact Hfree | reflexivity]. }
  split_and!.
  - eapply conserva_mudado; [exact Hc | exact Hfree | reflexivity].
  - intros q y Hq Hy. cbn [arbol con_arbol con_linea] in Hy. unfold mudado in Hy.
    destruct (decide (q = intento cd archivo n)) as [->|Hne].
    + right; right. rewrite length_intento. unfold cd.
      rewrite !length_barra. lia.
    + rewrite lookup_insert_ne in Hy by done.
      destruct (decide (q = archivo)) as [->|Hne'].
      * by rewrite lookup_delete_eq in Hy.
      * rewrite lookup_delete_ne in Hy by done. by apply Hnv.
  - done.
  - intros _ _. cbn [arbol con_arbol con_linea]. apply mudado_origen.
    intros Heq. rewrite <- Heq in Hfree. congruence.
Qed.

End efectos.

Section efectos_descargas.
Context `{Python}.

Lemma descargas_mover_ausente (ruta : Path) (w : mundo) :
  arbol w !! ruta = None → Descargas.mover_y_organizar ruta w = Normal tt w.
Proof.
  intros Hn. unfold Descargas.mover_y_organizar. rewrite bind_eq.
  unfold exists_. rewrite bool_decide_eq_false_2; [reflexivity|].
  rewrite Hn. by intros [? ?].
Qed.

Lemma descargas_mover_fecha_lanza (ruta : Path) (w : mundo) (n : nodo) :
  arbol w !! ruta = Some n →
  ¬ fecha_valida (mtime n) →
  Descargas.mover_y_organizar ruta w = Lanza (ValueError ruta) w.
Proof.
  intros Hn Hv. unfold Descargas.mover_y_organizar. rewrite bind_eq.
  unfold exists_. rewrite bool_decide_eq_true_2 by (by rewrite Hn).
  cbn [negb]. cbv beta iota. rewrite bind_eq. unfold stat_fecha.
  rewrite Hn. by rewrite bool_decide_eq_false_2.
Qed.

Lemma descargas_mover_indice_lanza (ruta : Path) (w : mundo) (f : fecha)
    (d : string) :
  arbol w !! ruta = Some (Archivo f d) →
  fecha_valida f →
  indice Descargas.MESES_ES (Z.of_nat (month f) - 1) w = Lanza IndexError w →
  Descargas.mover_y_organizar ruta w = Lanza IndexError w.
Proof.
  intros Hn Hv Hi. unfold Descargas.mover_y_organizar. rewrite bind_eq.
  unfold exists_. rewrite bool_decide_eq_true_2 by (by rewrite Hn).
  cbn [negb]. cbv beta iota. rewrite bind_eq, (stat_fecha_ok ruta w _ Hn Hv).
  cbn [mtime]. cbv beta iota. rewrite bind_eq, Hi. reflexivity.
Qed.

Lemma descargas_mover_efecto (ruta : Path) (w : mundo) :
  es_dir_en (arbol w) ruta = false →
  ruta ≠ Descargas.FICHERO_LOG →
  efecto_mover ruta w (Descargas.mover_y_organizar ruta w).
Proof.
  intros Hdir Hlog. unfold es_dir_en in Hdir.
  destruct (arbol w !! ruta) as [[m|f d]|] eqn:Hn; [done| |].
  2: { rewrite descargas_mover_ausente by done.
       split_and!; [apply conserva_refl | apply nuevos_refl | done |].
       by intros [? ?]. }
  destruct (decide (fecha_valida f)) as [Hv|Hv].
  2: { rewrite (descargas_mover_fecha_lanza _ _ _ Hn Hv).
       split_and!; [apply conserva_refl | apply nuevos_refl | done]. }
  destruct (indice_casos Descargas.MESES_ES (Z.of_nat (month f) - 1) w)
    as [Hi|[mes Hi]].
  { rewrite (descargas_mover_indice_lanza _ _ _ _ Hn Hv Hi).
    split_and!; [apply conserva_refl | apply nuevos_refl | done]. }
  destruct (descargas_mover_desde ruta w f d mes Hn Hv Hi Hlog)
    as [(e & _ & ->) | (w1 & n & Hm & Hfree & _ & ->)].
  { split_and!; [apply conserva_refl | apply nuevos_refl | done]. }
  set (cd := _ // _ // _ // _ // _) in *. cbv zeta.
  set (w3 := registrar _ _).
  pose proof (mkdir_conserva _ _ _ Hm) as Hc.
  pose proof (mkdir_nuevos [Descargas.FICHERO_LOG]
                Descargas.CARPETA_DESCARGAS _ _ _ Hm) as Hnv.
  pose proof (mkdir_bloqueados _ _ _ Hm) as Hb.
  assert (Hc3 : conserva [Descargas.FICHERO_LOG] w w3).
  { intros p x Hp Hx. unfold w3.
    rewrite registrar_otros by (intros ->; apply Hp, list_elem_of_here).
    cbn [arbol con_linea]. apply Hc; [apply not_elem_of_nil | done]. }
  assert (Hn3 : nuevos [Descargas.FICHERO_LOG] Descargas.CARPETA_DESCARGAS w w3).
  { intros q x Hq Hx. apply Hnv; [done|]. revert Hx. unfold w3.
    by rewrite registrar_otros by (intros ->; apply Hq, list_elem_of_here). }
  assert (Hb3 : bloqueados w3 = bloqueados w).
  { unfold w3. by rewrite registrar_bloqueados. }
  assert (Hlen : length (intento cd ruta n)
                 = 5 + length Descargas.CARPETA_DESCARGAS).
  { rewrite length_intento. unfold cd, Descargas.CARPETA_ORDENADA.
    rewrite !length_barra. lia. }
  case_bool_decide.
  { split_and!; [|by eapply nuevos_copiado|done].
    eapply conserva_copiado; [exact Hc3 | exact Hfree | reflexivity]. }
  split_and!.
  - eapply conserva_mudado; [exact Hc3 | exact Hfree | reflexivity].
  - intros q y Hq Hy. cbn [arbol con_arbol] in Hy. unfold mudado in Hy.
    destruct (decide (q = intento cd ruta n)) as [->|Hne].
    + right; right. rewrite length_intento. unfold cd, Descargas.CARPETA_ORDENADA.
      rewrite !length_barra. lia.
    + rewrite lookup_insert_ne in Hy by done.
      destruct (decide (q = ruta)) as [->|Hne'].
      * by rewrite lookup_delete_eq in Hy.
      * rewrite lookup_delete_ne in Hy by done. by apply Hn3.
  - done.
  - intros _. cbn [arbol con_arbol]. apply mudado_origen.
    intros Heq. rewrite <- Heq in Hfree. congruence.
Qed.

Lemma descargas_cuerpo_omitido (ruta : Path) (cuenta : nat * nat) (w : mundo) :
  es_dir_en (arbol w) ruta = true ∨ ruta = Descargas.FICHERO_LOG
  ∨ Descargas.es_temporal ruta = true →
  Descargas.cuerpo ruta cuenta w = Normal cuenta w.
Proof.
  intros Hcaso. unfold Descargas.cuerpo. rewrite bind_eq. unfold is_dir.
  fold (es_dir_en (arbol w) ruta).
  destruct (es_dir_en (arbol w) ruta); [reflexivity|]. cbv beta iota.
  case_bool_decide; [reflexivity|].
  destruct (Descargas.es_temporal ruta); [reflexivity|].
  by destruct Hcaso as [?|[?|?]].
Qed.

Lemma descargas_cuerpo_efecto (ruta : Path) (cuenta : nat * nat) (w : mundo) :
  efecto_descargas ruta cuenta w (Descargas.cuerpo ruta cuenta w).
Proof.
  destruct (es_dir_en (arbol w) ruta) eqn:Hdir.
  { rewrite descargas_cuerpo_omitido by (by left).
    split_and!; [apply conserva_refl | apply nuevos_refl | done | lia..|].
    intros (f & d & Hn & _). unfold es_dir_en in Hdir. by rewrite Hn in Hdir. }
  destruct (decide (ruta = Descargas.FICHERO_LOG)) as [Hlog|Hlog].
  { rewrite descargas_cuerpo_omitido by (by right; left).
    split_and!; [apply conserva_refl | apply nuevos_refl | done | lia..|].
    by intros (f & d & _ & ? & _). }
  destruct (Descargas.es_temporal ruta) eqn:Ht.
  { rewrite descargas_cuerpo_omitido by (by right; right).
    split_and!; [apply conserva_refl | apply nuevos_refl | done | lia..|].
    intros (f & d & _ & _ & ?). congruence. }
  pose proof (descargas_mover_efecto ruta w Hdir Hlog) as Hef.
  unfold Descargas.cuerpo. rewrite bind_eq. unfold is_dir.
  fold (es_dir_en (arbol w) ruta). rewrite Hdir. cbv beta iota.
  rewrite bool_decide_eq_false_2 by done. rewrite Ht.
  rewrite try_except_eq, bind_eq.
  destruct (Descargas.mover_y_organizar ruta w) as [[] w'|e we|]; [| |done].
  - destruct Hef as (Hc & Hnv & Hb & Hgone).
    split_and!; cbn [fst snd]; try done; try lia.
    intros (f & d & Hn & _) _. apply Hgone. by rewrite Hn.
  - destruct Hef as (Hc & Hnv & Hb).
    rewrite bind_eq, print_eq. cbv beta iota. rewrite bind_eq.
    destruct (escribir_log_conserva
                ("ERROR al mover existente " +:+ str_ruta ruta +:+ ": "
                 +:+ str_exc e)
                (con_linea ("[ERROR] No se pudo mover existente "
                            +:+ str_ruta ruta +:+ ": " +:+ str_exc e) we))
      as (w' & -> & Hb' & _ & Hc' & Hn').
    split_and!; cbn [fst snd]; try lia.
    + intros p x Hp Hx. apply not_elem_of_cons in Hp as [_ Hp].
      apply Hc'; [by intros ->; apply Hp, list_elem_of_here|].
      cbn [arbol con_linea]. by apply Hc.
    + intros q x Hq Hx.
      destruct (Hn' q x) as [Hold|Hd]; [by intros ->; apply Hq, list_elem_of_here
                                        | done | | by right; left].
      apply Hnv; done.
    + by rewrite Hb'.
Qed.

End efectos_descargas.

(** ** Loops *)

Lemma para_cada_invariante {A S} (cuerpo : A → S → M S) (P : mundo → Prop) :
  (∀ a s w, P w →
     match cuerpo a s w with
     | Normal _ w' | Lanza _ w' => P w'
     | Agotado => False
     end) →
  ∀ l s w, P w →
    match para_cada cuerpo l s w with
    | Normal _ w' | Lanza _ w' => P w'
    | Agotado => False
    end.
Proof.
  intros Hpaso l. induction l as [|a l IH]; intros s w HP; [exact HP|].
  cbn [para_cada]. rewrite bind_eq.
  specialize (Hpaso a s w HP).
  destruct (cuerpo a s w) as [s' w'|e w'|]; [|done..].
  by apply IH.
Qed.

(** ** Partial downloads are left alone *)

Section temporales.
Context `{Python}.

Lemma typer_cuerpo_guarda (carpeta a p : Path) (dry_run : bool)
    (cuenta : nat * nat) (w : mundo) (x : nodo) :
  Typer.es_temporal p = true →
  arbol w !! p = Some x →
  match Typer.cuerpo carpeta dry_run a cuenta w with
  | Normal _ w' | Lanza _ w' => arbol w' !! p = Some x
  | Agotado => False
  end.
Proof.
  intros Ht Hx.
  destruct (decide (a = p)) as [->|Hne].
  { rewrite typer_cuerpo_no_elegible; [done|].
    intros (f & d & _ & Hf). congruence. }
  pose proof (typer_cuerpo_efecto carpeta a dry_run cuenta w) as Hef.
  destruct (Typer.cuerpo carpeta dry_run a cuenta w) as [c w'|e w'|];
    [| |done].
  - destruct Hef as (Hc & _). apply Hc; [|done].
    intros ?%list_elem_of_singleton. congruence.
  - destruct Hef as (Hc & _). apply Hc; [apply not_elem_of_nil | done].
Qed.

Lemma descargas_cuerpo_guarda (a p : Path) (cuenta : nat * nat) (w : mundo)
    (x : nodo) :
  Descargas.es_temporal p = true →
  p ≠ Descargas.FICHERO_LOG →
  arbol w !! p = Some x →
  match Descargas.cuerpo a cuenta w with
  | Normal _ w' | Lanza _ w' => arbol w' !! p = Some x
  | Agotado => False
  end.
Proof.
  intros Ht Hlog Hx.
  destruct (decide (a = p)) as [->|Hne].
  { by rewrite descargas_cuerpo_omitido by (by right; right). }
  pose proof (descargas_cuerpo_efecto a cuenta w) as Hef.
  destruct (Descargas.cuerpo a cuenta w) as [c w'|e w'|]; [|done..].
  destruct Hef as (Hc & _). apply Hc; [|done].
  intros [?|?%list_elem_of_singleton]%elem_of_cons; congruence.
Qed.

Lemma organizar_guarda (carpeta p : Path) (recursivo dry_run : bool)
    (w : mundo) (x : nodo) :
  Typer.es_temporal p = true →
  arbol w !! p = Some x →
  match Typer.organizar carpeta recursivo dry_run w with
  | Normal _ w' | Lanza _ w' => arbol w' !! p = Some x
  | Agotado => False
  end.
Proof.
  intros Ht Hx. unfold Typer.organizar, Typer.echo.
  rewrite bind_eq, print_eq. cbv beta iota. rewrite bind_eq.
  set (w1 := con_linea _ w).
  assert (∃ w2, (if dry_run then print "Modo: simulación (no se moverán archivos)"
                 else ret tt) w1 = Normal tt w2 ∧ arbol w2 = arbol w)
    as (w2 & -> & Hw2) by (destruct dry_run; eexists; split; reflexivity).
  cbv beta iota. rewrite bind_eq.
  assert (∃ w3, (if recursivo
                 then print "Recorrido: recursivo (incluye subcarpetas)"
                 else ret tt) w2 = Normal tt w3 ∧ arbol w3 = arbol w)
    as (w3 & -> & Hw3) by (destruct recursivo; eexists; split; done).
  cbv beta iota. rewrite bind_eq.
  assert (Hx3 : arbol w3 !! p = Some x) by (by rewrite Hw3).
  assert (Hit : (∃ l, Typer.iterar_archivos carpeta recursivo w3 = Normal l w3)
                ∨ ∃ e, Typer.iterar_archivos carpeta recursivo w3 = Lanza e w3).
  { unfold Typer.iterar_archivos, rglob, iterdir.
    destruct recursivo; [left; eauto|].
    destruct (arbol w3 !! carpeta) as [[]|]; eauto. }
  destruct Hit as [[l ->]|[e ->]]; [|done]. cbv beta iota. rewrite bind_eq.
  pose proof (para_cada_invariante (Typer.cuerpo carpeta dry_run)
                (λ w, arbol w !! p = Some x)
                (λ a s w0 H0, typer_cuerpo_guarda carpeta a p dry_run s w0 x Ht H0)
                l (0, 0) w3 Hx3) as Hinv.
  destruct (para_cada _ l (0, 0) w3) as [c w4|e w4|]; [|done..].
  rewrite bind_eq, print_eq. cbv beta iota. rewrite bind_eq.
  destruct dry_run; rewrite print_eq; exact Hinv.
Qed.

Lemma procesar_guarda (p : Path) (w : mundo) (x : nodo) :
  Descargas.es_temporal p = true →
  p ≠ Descargas.FICHERO_LOG →
  arbol w !! p = Some x →
  match Descargas.procesar_archivos_existentes w with
  | Normal _ w' | Lanza _ w' => arbol w' !! p = Some x
  | Agotado => False
  end.
Proof.
  intros Ht Hlog Hx. unfold Descargas.procesar_archivos_existentes.
  rewrite bind_eq, print_eq. cbv beta iota. rewrite bind_eq.
  set (w1 := con_linea _ w). unfold iterdir. cbn [arbol con_linea w1].
  destruct (arbol w !! Descargas.CARPETA_DESCARGAS) as [[m|f d]|]; try done.
  cbv beta iota. rewrite bind_eq.
  pose proof (para_cada_invariante Descargas.cuerpo
                (λ w, arbol w !! p = Some x)
                (λ a s w0 H0, descargas_cuerpo_guarda a p s w0 x Ht Hlog H0)
                (hijos (arbol w) Descargas.CARPETA_DESCARGAS) (0, 0) w1 Hx)
    as Hinv.
  destruct (para_cada _ _ (0, 0) w1) as [c w4|e w4|]; [|done..].
  rewrite bind_eq, print_eq. exact Hinv.
Qed.

End temporales.

(** C6. A path whose lowercased suffix is ".crdownload", ".part" or ".tmp"
    is skipped by every entry point before anything else happens: the
    event handler (for a created file and for the target of a rename), the
    body of the watch script's sweep and the body of the command-line sweep
    all return at once and leave the whole world, tree and log file included,
    as it was. A complete sweep of either script, whatever else it moves,
    leaves such an entry where it is, unchanged. *)
Theorem temporales_nunca_movidos `{Python} (p : Path) :
  str_lower (suffix (name p)) ∈ Descargas.EXTENSIONES_TEMPORALES →
  (∀ w, Descargas._procesar_archivo_nuevo p w = Normal tt w)
  ∧ (∀ dir otro w, Descargas.on_created (Descargas.Evento dir p otro) w = Normal tt w)
  ∧ (∀ dir otro w, Descargas.on_moved (Descargas.Evento dir otro p) w = Normal tt w)
  ∧ (∀ cuenta w, Descargas.cuerpo p cuenta w = Normal cuenta w)
  ∧ (∀ carpeta dry_run cuenta w,
       Typer.cuerpo carpeta dry_run p cuenta w = Normal cuenta w)
  ∧ (∀ x w, arbol w !! p = Some x → p ≠ Descargas.FICHERO_LOG →
       match Descargas.procesar_archivos_existentes w with
       | Normal _ w' | Lanza _ w' => arbol w' !! p = Some x
       | Agotado => False
       end)
  ∧ (∀ x carpeta recursivo dry_run w, arbol w !! p = Some x →
       match Typer.organizar carpeta recursivo dry_run w with
       | Normal _ w' | Lanza _ w' => arbol w' !! p = Some x
       | Agotado => False
       end).
Proof.
  intros Hext.
  assert (Htd : Descargas.es_temporal p = true)
    by (unfold Descargas.es_temporal; by apply bool_decide_eq_true_2).
  assert (Htt : Typer.es_temporal p = true)
    by (unfold Typer.es_temporal; by apply bool_decide_eq_true_2).
  assert (Hn : ∀ w, Descargas._procesar_archivo_nuevo p w = Normal tt w).
  { intros w. unfold Descargas._procesar_archivo_nuevo.
    case_bool_decide; [reflexivity|]. by rewrite Htd. }
  split_and!.
  - exact Hn.
  - intros dir otro w. unfold Descargas.on_created. cbn.
    destruct dir; [reflexivity | apply Hn].
  - intros dir otro w. unfold Descargas.on_moved. cbn.
    destruct dir; [reflexivity | apply Hn].
  - intros cuenta w. apply descargas_cuerpo_omitido. by right; right.
  - intros carpeta dry_run cuenta w. apply typer_cuerpo_no_elegible.
    intros (f & d & _ & Hf). congruence.
  - intros x w Hx Hlog. by apply procesar_guarda.
  - intros x carpeta recursivo dry_run w Hx. by apply organizar_guarda.
Qed.

(** C6 for "x.crdownload" of [mundo0]. *)
Lemma temporales_nunca_movidos_witness :
  @Descargas._procesar_archivo_nuevo python_ascii
    (descargas // "x.crdownload") mundo0 = Normal tt mundo0.
Proof.
  apply (@temporales_nunca_movidos python_ascii (descargas // "x.crdownload")).
  apply (bool_decide_unpack _). vm_compute. exact I.
Defined.

(** ** Simulation mode *)

(** C4 fails on the code: a simulated run over [mundo0] completes having
    moved nothing, yet it has created the destination directory
    documentos/2024/marzo/1-15, which was not there, because [organizar]
    calls [mkdir] before it looks at [dry_run]. *)
Theorem simulacion_crea_carpetas :
  let r := @Typer.organizar python_ascii descargas false true mundo0 in
  let w' := mundo_final mundo0 r in
  valor r = Some (2, 0)
  ∧ arbol mundo0 !! (descargas // "documentos" // "2024" // "marzo" // "1-15")
    = None
  ∧ arbol w' !! (descargas // "documentos" // "2024" // "marzo" // "1-15")
    = Some (Directorio (Fecha 2024 3 20))
  ∧ arbol w' !! (descargas // "report.pdf")
    = Some (Archivo (Fecha 2024 3 10) "uno")
  ∧ arbol w' ≠ arbol mundo0.
Proof.
  intros r w'.
  assert (H0 : arbol mundo0
               !! (descargas // "documentos" // "2024" // "marzo" // "1-15")
               = None) by (vm_compute; reflexivity).
  assert (H1 : arbol w'
               !! (descargas // "documentos" // "2024" // "marzo" // "1-15")
               = Some (Directorio (Fecha 2024 3 20)))
    by (vm_compute; reflexivity).
  split_and!; [vm_compute; reflexivity | exact H0 | exact H1
               | vm_compute; reflexivity |].
  intros Heq. rewrite Heq, H0 in H1. discriminate H1.
Qed.

Section simulacion.
Context `{Python}.

Lemma solo_carpetas_refl (w : mundo) : solo_carpetas w w.
Proof. split; [apply conserva_refl|]. intros q x Hx. by left. Qed.

Lemma solo_carpetas_trans (w1 w2 w3 : mundo) :
  solo_carpetas w1 w2 → solo_carpetas w2 w3 → solo_carpetas w1 w3.
Proof.
  intros [Hc1 Hn1] [Hc2 Hn2]. split.
  - intros p x Hp Hx. apply Hc2; [done|]. by apply Hc1.
  - intros q x Hx. destruct (Hn2 q x Hx) as [Hx2|Hd]; [|by right].
    by apply Hn1.
Qed.

Lemma solo_carpetas_arbol (w w1 w2 : mundo) :
  arbol w2 = arbol w1 → solo_carpetas w w1 → solo_carpetas w w2.
Proof.
  intros Heq [Hc Hn]. split.
  - intros p x Hp Hx. rewrite Heq. by apply Hc.
  - intros q x Hx. rewrite Heq in Hx. by apply Hn.
Qed.

Lemma mkdir_solo_carpetas (cd : Path) (w w1 : mundo) :
  mkdir_parents cd w = Normal tt w1 → solo_carpetas w w1.
Proof.
  intros Hm. split; [by eapply mkdir_conserva|]. intros q x Hx.
  destruct (mkdir_parents_casos cd w)
    as [(e & He & _) | (w1' & Hm' & _ & _ & _ & Hl)]; [congruence|].
  assert (w1' = w1) as -> by congruence.
  rewrite Hl in Hx. destruct (arbol w !! q); [by left|].
  case_decide; [|done]. injection Hx as <-. by right.
Qed.

(** One turn of a simulated sweep moves nothing: it can only add
    directories. *)
Lemma typer_cuerpo_simulado (carpeta a : Path) (cuenta : nat * nat) (w : mundo) :
  match Typer.cuerpo carpeta true a cuenta w with
  | Normal _ w' | Lanza _ w' => solo_carpetas w w'
  | Agotado => False
  end.
Proof.
  destruct (arbol w !! a) as [[m|f d]|] eqn:Hn.
  1,3: rewrite typer_cuerpo_no_elegible
         by (intros (f' & d' & Hf & _); congruence);
       apply solo_carpetas_refl.
  destruct (Typer.es_temporal a) eqn:Ht.
  { rewrite typer_cuerpo_no_elegible
      by (intros (f' & d' & _ & Hf); congruence).
    apply solo_carpetas_refl. }
  assert (Hel : elegible_typer w a) by (by exists f, d).
  destruct (destino_para_archivo_casos a carpeta w)
    as [(e & He) | (x1 & x2 & x3 & x4 & Hd)].
  { rewrite (typer_cuerpo_destino_lanza _ _ _ _ _ e Hel He).
    apply solo_carpetas_refl. }
  destruct (typer_cuerpo_desde carpeta a _ true cuenta w f d Hn Ht Hd)
    as [(e & _ & ->) | (w1 & n & Hm & _ & _ & ->)].
  { apply solo_carpetas_refl. }
  cbv zeta. apply (solo_carpetas_arbol w w1); [done|].
  by eapply mkdir_solo_carpetas.
Qed.

(** A simulated run of [organizar] moves no file and changes no existing
    entry, the log file included; what it adds are directories. *)
Lemma organizar_simulado (carpeta : Path) (recursivo : bool) (w : mundo) :
  match Typer.organizar carpeta recursivo true w with
  | Normal _ w' | Lanza _ w' => solo_carpetas w w'
  | Agotado => False
  end.
Proof.
  unfold Typer.organizar, Typer.echo.
  rewrite bind_eq, print_eq. cbv beta iota. rewrite bind_eq, print_eq.
  cbv beta iota. rewrite bind_eq.
  set (w1 := con_linea _ (con_linea _ w)).
  assert (∃ w3, (if recursivo
                 then print "Recorrido: recursivo (incluye subcarpetas)"
                 else ret tt) w1 = Normal tt w3 ∧ arbol w3 = arbol w)
    as (w3 & -> & Hw3) by (destruct recursivo; eexists; split; done).
  cbv beta iota. rewrite bind_eq.
  assert (H3 : solo_carpetas w w3)
    by (apply (solo_carpetas_arbol w w); [done | apply solo_carpetas_refl]).
  assert (Hit : (∃ l, Typer.iterar_archivos carpeta recursivo w3 = Normal l w3)
                ∨ ∃ e, Typer.iterar_archivos carpeta recursivo w3 = Lanza e w3).
  { unfold Typer.iterar_archivos, rglob, iterdir.
    destruct recursivo; [left; eauto|].
    destruct (arbol w3 !! carpeta) as [[]|]; eauto. }
  destruct Hit as [[l ->]|[e ->]]; [|done]. cbv beta iota. rewrite bind_eq.
  pose proof (para_cada_invariante (Typer.cuerpo carpeta true)
                (λ w0, solo_carpetas w w0)
                (λ a s w0 H0,
                   match Typer.cuerpo carpeta true a s w0 as r
                     return (match r with
                             | Normal _ w' | Lanza _ w' => solo_carpetas w0 w'
                             | Agotado => False
                             end →
                             match r with
                             | Normal _ w' | Lanza _ w' => solo_carpetas w w'
                             | Agotado => False
                             end)
                   with
                   | Normal _ w' | Lanza _ w' =>
                       λ Hs, solo_carpetas_trans w w0 w' H0 Hs
                   | Agotado => λ Hs, Hs
                   end (typer_cuerpo_simulado carpeta a s w0))
                l (0, 0) w3 H3) as Hinv.
  destruct (para_cada _ l (0, 0) w3) as [c w4|e w4|]; [|done..].
  rewrite bind_eq, print_eq. cbv beta iota. rewrite bind_eq, print_eq.
  cbv beta iota. exact Hinv.
Qed.

End simulacion.

(** ** One failure and the rest of the batch *)

Section aislamiento.
Context `{Python}.

(** The sweep of the watch script never raises: each turn catches what
    [mover_y_organizar] raises and goes on with the next path. *)
Lemma descargas_barrido_completo (l : list Path) (cuenta : nat * nat) (w : mundo) :
  ∃ c w', para_cada Descargas.cuerpo l cuenta w = Normal c w'.
Proof.
  revert cuenta w. induction l as [|a l IH]; intros cuenta w.
  - by exists cuenta, w.
  - cbn [para_cada]. rewrite bind_eq.
    pose proof (descargas_cuerpo_efecto a cuenta w) as Hef.
    destruct (Descargas.cuerpo a cuenta w) as [c1 w1| |]; [|done..].
    apply IH.
Qed.

(** The command-line sweep has no handler: what one turn raises ends the
    loop, whatever is still pending. *)
Lemma typer_barrido_aborta (carpeta a : Path) (resto : list Path)
    (dry_run : bool) (cuenta : nat * nat) (w w' : mundo) (e : excepcion) :
  Typer.cuerpo carpeta dry_run a cuenta w = Lanza e w' →
  para_cada (Typer.cuerpo carpeta dry_run) (a :: resto) cuenta w = Lanza e w'.
Proof. intros Ha. cbn [para_cada]. by rewrite bind_eq, Ha. Qed.

End aislamiento.

(** C8 fails on the code of the command line: in [mundo_dos] the listing
    yields "b.pdf", which cannot be renamed, before "a.pdf". [organizar]
    ends with the PermissionError of "b.pdf" and never reaches "a.pdf",
    which stays where it was; the sweep of the watch script, on the same
    world, completes and has relocated "a.pdf". *)
Theorem barrido_de_typer_se_interrumpe :
  let rt := @Typer.organizar python_ascii descargas false false mundo_dos in
  let rd := @Descargas.procesar_archivos_existentes python_ascii mundo_dos in
  let destino := descargas // "documentos" // "2024" // "marzo" // "1-15"
                 // "a.pdf" in
  hijos (arbol mundo_dos) descargas = [descargas // "b.pdf"; descargas // "a.pdf"]
  ∧ lanzada rt = Some (PermissionError (descargas // "b.pdf"))
  ∧ arbol (mundo_final mundo_dos rt) !! (descargas // "a.pdf")
    = Some (Archivo (Fecha 2024 3 10) "uno")
  ∧ arbol (mundo_final mundo_dos rt) !! destino = None
  ∧ valor rd = Some (2, 1)
  ∧ arbol (mundo_final mundo_dos rd) !! (descargas // "a.pdf") = None
  ∧ arbol (mundo_final mundo_dos rd) !! destino
    = Some (Archivo (Fecha 2024 3 10) "uno").
Proof.
  intros rt rd destino. split_and!; vm_compute; reflexivity.
Qed.

(** ** What reaches the log file *)

Section registro_movimientos.
Context `{Python}.

Lemma contenido_log_igual (w w' : mundo) :
  arbol w' !! Descargas.FICHERO_LOG = arbol w !! Descargas.FICHERO_LOG →
  contenido_log w' = contenido_log w.
Proof. intros Heq. unfold contenido_log. by rewrite Heq. Qed.

Lemma registrar_contenido (linea : string) (w : mundo) :
  log_escribible w →
  contenido_log (registrar linea w) = contenido_log w +:+ linea.
Proof.
  intros (Hb & Hd & Hdirs). unfold registrar, contenido_log.
  rewrite bool_decide_eq_false_2 by done.
  unfold es_dir_en in Hd.
  destruct (arbol w !! Descargas.FICHERO_LOG) as [[m|f d]|] eqn:Hl; [done| |].
  - cbn [arbol con_arbol]. by rewrite lookup_insert_eq.
  - rewrite parent_FICHERO_LOG, Hdirs by apply prefijos_mismo, barra_no_vacia.
    cbn [arbol con_arbol]. by rewrite lookup_insert_eq.
Qed.

Lemma registrar_escribible (linea : string) (w : mundo) :
  log_escribible w → log_escribible (registrar linea w).
Proof.
  intros (Hb & Hd & Hdirs). split_and!.
  - by rewrite registrar_bloqueados.
  - unfold es_dir_en, registrar. rewrite bool_decide_eq_false_2 by done.
    unfold es_dir_en in Hd.
    destruct (arbol w !! Descargas.FICHERO_LOG) as [[m|f d]|] eqn:Hl; [done| |].
    + cbn [arbol con_arbol]. by rewrite lookup_insert_eq.
    + rewrite parent_FICHERO_LOG, Hdirs by apply prefijos_mismo, barra_no_vacia.
      cbn [arbol con_arbol]. by rewrite lookup_insert_eq.
  - intros q Hq. unfold es_dir_en. rewrite registrar_otros; [by apply Hdirs|].
    intros ->. apply prefijos_spec in Hq as [_ Hq%prefix_length].
    rewrite length_FICHERO_LOG in Hq. lia.
Qed.

Lemma con_linea_escribible (linea : string) (w : mundo) :
  log_escribible w → log_escribible (con_linea linea w).
Proof. done. Qed.

Lemma categoria_no_es_log (s : string) :
  Descargas.categoria_para_extension s ≠ "_watchdog_descargas.log".
Proof.
  intros Heq.
  assert (Hin : Descargas.categoria_para_extension s ∈ categorias).
  { rewrite descargas_primera. apply primera_en_categorias.
    apply (bool_decide_unpack _). vm_compute. exact I. }
  rewrite Heq in Hin. revert Hin. apply (bool_decide_unpack _).
  vm_compute. exact I.
Qed.

(** Creating the destination directory leaves the log file as it is. *)
Lemma mkdir_destino_escribible (ruta : Path) (f : fecha) (mes : string)
    (w w1 : mundo) :
  log_escribible w →
  mkdir_parents
    (Descargas.CARPETA_ORDENADA
     // Descargas.categoria_para_extension (str_lower (suffix (name ruta)))
     // pretty (year f) // mes // Descargas.quincena_de f) w = Normal tt w1 →
  log_escribible w1
  ∧ arbol w1 !! Descargas.FICHERO_LOG = arbol w !! Descargas.FICHERO_LOG.
Proof.
  intros (Hb & Hd & Hdirs) Hm.
  set (cd := _ // _ // _ // _ // _) in *.
  destruct (mkdir_parents_casos cd w)
    as [(e & He & _) | (w1' & Hm' & Hb' & _ & _ & Hl)]; [congruence|].
  assert (w1' = w1) as -> by congruence.
  assert (Hno : Descargas.FICHERO_LOG ∉ prefijos cd).
  { intros [_ [r Hr]]%prefijos_spec.
    unfold cd, Descargas.CARPETA_ORDENADA, Descargas.FICHERO_LOG, barra in Hr.
    rewrite <- !app_assoc in Hr. apply app_inv_head in Hr. simpl in Hr.
    injection Hr as Hr _. by apply categoria_no_es_log in Hr. }
  assert (Hlog : arbol w1 !! Descargas.FICHERO_LOG
                 = arbol w !! Descargas.FICHERO_LOG).
  { rewrite Hl. destruct (arbol w !! Descargas.FICHERO_LOG); [done|].
    by rewrite decide_False. }
  split; [|exact Hlog]. split_and!.
  - by rewrite Hb'.
  - unfold es_dir_en. rewrite Hlog. exact Hd.
  - intros q Hq. specialize (Hdirs q Hq). unfold es_dir_en in *. rewrite Hl.
    by destruct (arbol w !! q).
Qed.

Lemma descargas_mover_registro (ruta : Path) (w : mundo) (f : fecha) (d : string) :
  arbol w !! ruta = Some (Archivo f d) →
  fecha_valida f →
  ruta ≠ Descargas.FICHERO_LOG →
  log_escribible w →
  match Descargas.mover_y_organizar ruta w with
  | Normal _ w' =>
      log_escribible w'
      ∧ ∃ destino,
          arbol w' !! destino = Some (Archivo f d)
          ∧ contenido_log w' = contenido_log w +:+ linea_mover ruta destino
  | Lanza e w' =>
      log_escribible w'
      ∧ ((e = PermissionError ruta
          ∧ ∃ destino,
              contenido_log w' = contenido_log w +:+ linea_mover ruta destino)
         ∨ (e ≠ PermissionError ruta ∧ w' = w))
  | Agotado => False
  end.
Proof.
  intros Hn Hv Hlog Hw.
  destruct (descargas_mover_archivo ruta w f d Hn Hv Hlog)
    as (mes & Hmes & [(e & He & ->) | (w1 & n & Hm & Hfree & Hmin & ->)]).
  - split; [done|]. right. split; [|done]. intros ->.
    destruct (mkdir_parents_casos
                (Descargas.CARPETA_ORDENADA
                 // Descargas.categoria_para_extension
                      (str_lower (suffix (name ruta)))
                 // pretty (year f) // mes // Descargas.quincena_de f) w)
      as [(e' & He' & q & Hq & Hf) | (w1 & Hm & _)]; [|congruence].
    rewrite He in He'. unfold mkdir_parents in He.
    destruct (existsb _ _); [|done]. by destruct (es_archivo_en _ _).
  - set (cd := _ // _ // _ // _ // _) in *. cbv zeta.
    destruct (mkdir_destino_escribible ruta f mes w w1 Hw Hm) as [Hw1 Hl1].
    set (destino := intento cd ruta n).
    set (w2 := con_linea _ w1).
    assert (Hw3 : log_escribible (registrar (linea_mover ruta destino) w2))
      by (by apply registrar_escribible).
    assert (Hc3 : contenido_log (registrar (linea_mover ruta destino) w2)
                  = contenido_log w +:+ linea_mover ruta destino).
    { rewrite registrar_contenido by done. f_equal.
      by apply contenido_log_igual. }
    fold (linea_mover ruta destino).
    set (w3 := registrar _ w2) in *.
    assert (Hdl : destino ≠ Descargas.FICHERO_LOG).
    { intros Heq%(f_equal length). unfold destino in Heq.
      rewrite length_intento, length_FICHERO_LOG in Heq.
      unfold cd, Descargas.CARPETA_ORDENADA in Heq.
      rewrite !length_barra in Heq. lia. }
    case_bool_decide.
    + assert (Hsame : ∀ q, q ≠ destino →
                arbol (con_arbol (<[destino := Archivo f d]> (arbol w3)) w3) !! q
                = arbol w3 !! q).
      { intros q Hq. cbn [arbol con_arbol]. by rewrite lookup_insert_ne. }
      split.
      * destruct Hw3 as (Hb3 & Hd3 & Hdirs3). split_and!.
        -- done.
        -- unfold es_dir_en. rewrite Hsame by done. exact Hd3.
        -- intros q Hq. unfold es_dir_en. rewrite Hsame; [by apply Hdirs3|].
           intros ->. apply prefijos_spec in Hq as [_ Hq%prefix_length].
           unfold destino in Hq. rewrite length_intento in Hq.
           unfold cd, Descargas.CARPETA_ORDENADA in Hq.
           rewrite !length_barra in Hq. lia.
      * left. split; [done|]. exists destino.
        rewrite <- Hc3. apply contenido_log_igual. by apply Hsame.
    + assert (Hsame : ∀ q, q ≠ ruta → q ≠ destino →
                arbol (con_arbol (mudado ruta destino (Archivo f d) (arbol w3)) w3)
                  !! q = arbol w3 !! q).
      { intros q Hq1 Hq2. cbn [arbol con_arbol]. unfold mudado.
        rewrite lookup_insert_ne by done. by rewrite lookup_delete_ne. }
      split.
      * destruct Hw3 as (Hb3 & Hd3 & Hdirs3). split_and!.
        -- done.
        -- unfold es_dir_en. rewrite Hsame by done. exact Hd3.
        -- intros q Hq. unfold es_dir_en. rewrite Hsame.
           ++ by apply Hdirs3.
           ++ intros ->. specialize (Hdirs3 ruta Hq). unfold es_dir_en in Hdirs3.
              assert (arbol w3 !! ruta = Some (Archivo f d)) as Hr; [|by rewrite Hr in Hdirs3].
              unfold w3. rewrite registrar_otros by done.
              cbn [arbol con_linea w2]. eapply mkdir_conserva; [done| |done].
              apply not_elem_of_nil.
           ++ intros ->. apply prefijos_spec in Hq as [_ Hq%prefix_length].
              unfold destino in Hq. rewrite length_intento in Hq.
              unfold cd, Descargas.CARPETA_ORDENADA in Hq.
              rewrite !length_barra in Hq. lia.
      * exists destino. split; [apply mudado_destino|].
        rewrite <- Hc3. apply contenido_log_igual. by apply Hsame.
Qed.

End registro_movimientos.

Section registro_barrido.
Context `{Python}.

Lemma descargas_cuerpo_registro (ruta : Path) (cuenta : nat * nat) (w : mundo)
    (f : fecha) (d : string) :
  arbol w !! ruta = Some (Archivo f d) →
  fecha_valida f →
  ruta ≠ Descargas.FICHERO_LOG →
  Descargas.es_temporal ruta = false →
  log_escribible w →
  ∃ c w', Descargas.cuerpo ruta cuenta w = Normal c w'
    ∧ ((c = (S cuenta.1, S cuenta.2)
        ∧ ∃ destino,
            arbol w' !! destino = Some (Archivo f d)
            ∧ contenido_log w' = contenido_log w +:+ linea_mover ruta destino)
       ∨ (c = (S cuenta.1, cuenta.2)
          ∧ ∃ destino,
              contenido_log w'
              = (contenido_log w +:+ linea_mover ruta destino)
                +:+ linea_error ruta (PermissionError ruta))
       ∨ (c = (S cuenta.1, cuenta.2)
          ∧ ∃ e, e ≠ PermissionError ruta
               ∧ contenido_log w' = contenido_log w +:+ linea_error ruta e)).
Proof.
  intros Hn Hv Hlog Ht Hw.
  pose proof (descargas_mover_registro ruta w f d Hn Hv Hlog Hw) as Hreg.
  unfold Descargas.cuerpo. rewrite bind_eq. unfold is_dir. rewrite Hn.
  cbn [es_directorio]. cbv beta iota.
  rewrite bool_decide_eq_false_2 by done. rewrite Ht.
  rewrite try_except_eq, bind_eq.
  destruct (Descargas.mover_y_organizar ruta w) as [[] w'|e we|]; [| |done].
  - destruct Hreg as (_ & destino & Hd & Hc).
    eexists _, _. split; [reflexivity|]. left. split; [done|]. by exists destino.
  - destruct Hreg as (Hwe & Hcasos).
    rewrite bind_eq, print_eq. cbv beta iota. rewrite bind_eq.
    rewrite escribir_log_registrar by apply Hwe.
    cbv beta iota. fold (linea_error ruta e).
    eexists _, _. split; [reflexivity|]. right.
    rewrite registrar_contenido by (by apply con_linea_escribible).
    destruct Hcasos as [(-> & destino & Hc) | (Hne & ->)].
    + left. split; [done|]. exists destino. f_equal.
      rewrite <- Hc. by apply contenido_log_igual.
    + right. split; [done|]. exists e. split; [done|]. f_equal.
Qed.

(** C7, amended. In the watch script, with a log file that can be written:
    a relocation by [mover_y_organizar] that completes has appended exactly
    one line "[timestamp] MOVER source -> destination" to the log; one
    whose move raises has appended that same line; one that raises before
    the move has appended nothing. The sweep adds to this one line "ERROR
    al mover existente ..." for a relocation that raised, and goes on. *)
Theorem registro_de_reubicaciones (ruta : Path) (cuenta : nat * nat)
    (w : mundo) (f : fecha) (d : string) :
  arbol w !! ruta = Some (Archivo f d) →
  fecha_valida f →
  ruta ≠ Descargas.FICHERO_LOG →
  Descargas.es_temporal ruta = false →
  log_escribible w →
  match Descargas.mover_y_organizar ruta w with
  | Normal _ w' =>
      ∃ destino,
        arbol w' !! destino = Some (Archivo f d)
        ∧ contenido_log w' = contenido_log w +:+ linea_mover ruta destino
  | Lanza e w' =>
      (e = PermissionError ruta
       ∧ ∃ destino,
           contenido_log w' = contenido_log w +:+ linea_mover ruta destino)
      ∨ (e ≠ PermissionError ruta ∧ w' = w)
  | Agotado => False
  end
  ∧ ∃ c w', Descargas.cuerpo ruta cuenta w = Normal c w'
    ∧ ((c = (S cuenta.1, S cuenta.2)
        ∧ ∃ destino,
            arbol w' !! destino = Some (Archivo f d)
            ∧ contenido_log w' = contenido_log w +:+ linea_mover ruta destino)
       ∨ (c = (S cuenta.1, cuenta.2)
          ∧ ∃ destino,
              contenido_log w'
              = (contenido_log w +:+ linea_mover ruta destino)
                +:+ linea_error ruta (PermissionError ruta))
       ∨ (c = (S cuenta.1, cuenta.2)
          ∧ ∃ e, e ≠ PermissionError ruta
               ∧ contenido_log w' = contenido_log w +:+ linea_error ruta e)).
Proof.
  intros Hn Hv Hlog Ht Hw. split.
  - pose proof (descargas_mover_registro ruta w f d Hn Hv Hlog Hw) as Hreg.
    destruct (Descargas.mover_y_organizar ruta w) as [[] w'|e we|];
      [| |done]; by destruct Hreg.
  - by apply descargas_cuerpo_registro.
Qed.

End registro_barrido.

(** C7 as stated fails in two ways. The command line relocates "report.pdf"
    of [mundo_uno] and writes no log at all; and when "report.pdf" cannot
    be renamed ([mundo_bloqueado]), the sweep of the watch script leaves
    two lines in the log for that one attempt. *)
Lemma registro_ni_uno_ni_siempre :
  let rt := @Typer.organizar python_ascii descargas false false mundo_uno in
  let rd := @Descargas.procesar_archivos_existentes python_ascii mundo_bloqueado in
  let destino := descargas // "documentos" // "2024" // "marzo" // "1-15"
                 // "report.pdf" in
  valor rt = Some (1, 1)
  ∧ arbol (mundo_final mundo_uno rt) !! destino
    = Some (Archivo (Fecha 2024 3 10) "uno")
  ∧ arbol (mundo_final mundo_uno rt) !! @Descargas.FICHERO_LOG python_ascii = None
  ∧ filter (λ kv, es_directorio kv.2 = false)
      (map_to_list (arbol (mundo_final mundo_uno rt)))
    = [(destino, Archivo (Fecha 2024 3 10) "uno")]
  ∧ valor rd = Some (1, 0)
  ∧ @contenido_log python_ascii (mundo_final mundo_bloqueado rd)
    = @linea_mover python_ascii (descargas // "report.pdf") destino
      +:+ @linea_error python_ascii (descargas // "report.pdf")
            (PermissionError (descargas // "report.pdf")).
Proof.
  intros rt rd destino. split_and!; vm_compute; reflexivity.
Qed.

(** C7 amended, for "report.pdf" of [mundo_uno]. *)
Lemma registro_de_reubicaciones_witness :
  ∃ c w', @Descargas.cuerpo python_ascii (descargas // "report.pdf") (0, 0)
            mundo_uno = Normal c w'.
Proof.
  destruct (@registro_de_reubicaciones python_ascii (descargas // "report.pdf")
              (0, 0) mundo_uno (Fecha 2024 3 10) "uno")
    as (_ & c & w' & Hc & _).
  - vm_compute. reflexivity.
  - unfold fecha_valida. simpl. lia.
  - intros Heq. vm_compute in Heq. discriminate Heq.
  - vm_compute. reflexivity.
  - split_and!.
    + apply (bool_decide_unpack _). vm_compute. exact I.
    + vm_compute. reflexivity.
    + intros q Hq. apply (bool_decide_unpack _).
      revert q Hq. apply Forall_forall.
      apply (bool_decide_unpack _). vm_compute. exact I.
  - by exists c, w'.
Defined.

(** ** A second sweep *)

Lemma hijos_spec (m : gmap Path nodo) (d q : Path) :
  q ∈ hijos m d ↔ (q ≠ [] ∧ parent q = d) ∧ is_Some (m !! q).
Proof.
  unfold hijos. rewrite list_elem_of_filter, list_elem_of_fmap.
  split; intros [Hq Hin]; (split; [exact Hq|]).
  - destruct Hin as ([k x] & -> & Hkx). apply elem_of_map_to_list in Hkx.
    by exists x.
  - destruct Hin as [x Hx]. exists (q, x). split; [done|].
    by apply elem_of_map_to_list.
Qed.

Lemma length_parent (p : Path) : p ≠ [] → length p = S (length (parent p)).
Proof.
  intros Hp. destruct (exists_last Hp) as (q & x & ->).
  unfold parent. rewrite removelast_last, length_app. simpl. lia.
Qed.

Lemma parent_distinto (p : Path) : p ≠ [] → p ≠ parent p.
Proof. intros Hp Heq%(f_equal length). rewrite (length_parent p Hp) in Heq. lia. Qed.

Lemma para_cada_inv_normal {A S} (cuerpo : A → S → M S)
    (P : list A → S → mundo → Prop) :
  (∀ a resto s w s' w',
     P (a :: resto) s w → cuerpo a s w = Normal s' w' → P resto s' w') →
  ∀ l s w s' w',
    P l s w → para_cada cuerpo l s w = Normal s' w' → P [] s' w'.
Proof.
  intros Hpaso l. induction l as [|a l IH]; intros s w s' w' HP Hrun.
  - cbv [para_cada ret] in Hrun. by injection Hrun as <- <-.
  - cbn [para_cada] in Hrun. rewrite bind_eq in Hrun.
    destruct (cuerpo a s w) as [s1 w1|e w1|] eqn:Ea; [|done..].
    eapply IH; [|exact Hrun]. by eapply Hpaso.
Qed.


Section segundo_barrido.
Context `{Python}.

Lemma elegible_typer_arbol (w w' : mundo) (q : Path) :
  arbol w' = arbol w → elegible_typer w q → elegible_typer w' q.
Proof. intros Heq (f & d & Hq & Ht). exists f, d. by rewrite Heq. Qed.

Lemma typer_barrido_limpia (carpeta : Path) (l : list Path)
    (s s' : nat * nat) (w w' : mundo) (n : nodo) :
  arbol w !! carpeta = Some n →
  (∀ a, a ∈ l → a ≠ [] ∧ parent a = carpeta) →
  (∀ q, q ∈ hijos (arbol w) carpeta → elegible_typer w q → q ∈ l) →
  para_cada (Typer.cuerpo carpeta false) l s w = Normal s' w' →
  arbol w' !! carpeta = Some n ∧ limpio_typer carpeta w'.
Proof.
  intros Hc Hl Hin Hrun.
  pose (P := λ (pend : list Path) (_ : nat * nat) (w0 : mundo),
          arbol w0 !! carpeta = Some n
          ∧ (∀ a, a ∈ pend → a ≠ [] ∧ parent a = carpeta)
          ∧ (∀ q, q ∈ hijos (arbol w0) carpeta → elegible_typer w0 q → q ∈ pend)).
  assert (Hfin : P [] s' w').
  { eapply (para_cada_inv_normal _ P); [|by split_and!|exact Hrun].
    clear. intros a resto s w s' w' (Hc & Hl & Hin) Hrun.
    pose proof (typer_cuerpo_efecto carpeta a false s w) as Hef.
    rewrite Hrun in Hef. destruct Hef as (Hcons & Hnv & _ & Hgone).
    destruct (Hl a (list_elem_of_here _ _)) as [Ha Hpa].
    split_and!.
    - apply Hcons; [|done]. intros ->%list_elem_of_singleton.
      by apply (parent_distinto a).
    - intros b Hb. by apply Hl, list_elem_of_further.
    - intros q [[Hq Hpq] _]%hijos_spec (f & d & Hqf & Ht).
      destruct (Hnv q _ (not_elem_of_nil _) Hqf) as [Hold|[Hd|Hlen]].
      + assert (Hel : elegible_typer w q) by (by exists f, d).
        assert (Hqa : q ∈ a :: resto).
        { apply Hin; [|done]. apply hijos_spec. by rewrite Hold. }
        apply elem_of_cons in Hqa as [->|?]; [|done].
        rewrite Hgone in Hqf by done. done.
      + done.
      + rewrite (length_parent q Hq), Hpq in Hlen. lia. }
  destruct Hfin as (Hc' & _ & Hnone). split; [done|].
  intros q Hq Hel. by apply Hnone, elem_of_nil in Hel.
Qed.



(** What a completed run of [organizar] without the recursive flag was. *)
Lemma organizar_normal_inv (carpeta : Path) (dry_run : bool) (w w1 : mundo)
    (c : nat * nat) :
  Typer.organizar carpeta false dry_run w = Normal c w1 →
  ∃ w0 w4 m,
    arbol w0 = arbol w
    ∧ arbol w !! carpeta = Some (Directorio m)
    ∧ para_cada (Typer.cuerpo carpeta dry_run) (hijos (arbol w) carpeta)
        (0, 0) w0 = Normal c w4
    ∧ arbol w1 = arbol w4.
Proof.
  unfold Typer.organizar, Typer.echo.
  rewrite bind_eq, print_eq. cbv beta iota. rewrite bind_eq.
  set (w1' := con_linea _ w).
  assert (∃ w2, (if dry_run then print "Modo: simulación (no se moverán archivos)"
                 else ret tt) w1' = Normal tt w2 ∧ arbol w2 = arbol w)
    as (w2 & -> & Hw2) by (destruct dry_run; eexists; split; reflexivity).
  cbv beta iota. rewrite bind_eq. cbv [ret]. cbv beta iota. rewrite bind_eq.
  unfold Typer.iterar_archivos, iterdir. rewrite Hw2.
  destruct (arbol w !! carpeta) as [[m|f d]|] eqn:Hc; [|done..].
  cbv beta iota. rewrite bind_eq.
  destruct (para_cada _ _ (0, 0) w2) as [c' w4|e w4|] eqn:Hrun; [|done..].
  rewrite bind_eq, print_eq. cbv beta iota. rewrite bind_eq.
  intros Hfin. exists w2, w4, m. split_and!; try done.
  - destruct dry_run; rewrite print_eq in Hfin; cbv beta iota in Hfin;
      cbv [ret] in Hfin; by injection Hfin as <- _.
  - destruct dry_run; rewrite print_eq in Hfin; cbv beta iota in Hfin;
      cbv [ret] in Hfin; by injection Hfin as _ <-.
Qed.



End segundo_barrido.

Section segundo_barrido_descargas.
Context `{Python}.

Lemma elegible_descargas_arbol (w w' : mundo) (q : Path) :
  arbol w' = arbol w → elegible_descargas w q → elegible_descargas w' q.
Proof. intros Heq (f & d & Hq & Ht). exists f, d. by rewrite Heq. Qed.


Lemma descargas_barrido_limpia (l : list Path) (s' : nat * nat)
    (w w' : mundo) (n : nodo) :
  arbol w !! Descargas.CARPETA_DESCARGAS = Some n →
  (∀ a, a ∈ l → a ≠ [] ∧ parent a = Descargas.CARPETA_DESCARGAS) →
  (∀ q, q ∈ hijos (arbol w) Descargas.CARPETA_DESCARGAS →
        elegible_descargas w q → q ∈ l) →
  para_cada Descargas.cuerpo l (0, 0) w = Normal s' w' →
  arbol w' !! Descargas.CARPETA_DESCARGAS = Some n
  ∧ s'.2 ≤ s'.1
  ∧ (s'.1 = s'.2 → limpio_descargas w').
Proof.
  intros Hc Hl Hin Hrun.
  pose (P := λ (pend : list Path) (c : nat * nat) (w0 : mundo),
          arbol w0 !! Descargas.CARPETA_DESCARGAS = Some n
          ∧ (∀ a, a ∈ pend → a ≠ [] ∧ parent a = Descargas.CARPETA_DESCARGAS)
          ∧ c.2 ≤ c.1
          ∧ (c.1 = c.2 →
             ∀ q, q ∈ hijos (arbol w0) Descargas.CARPETA_DESCARGAS →
                  elegible_descargas w0 q → q ∈ pend)).
  assert (Hfin : P [] s' w').
  { eapply (para_cada_inv_normal _ P); [| |exact Hrun];
      [| unfold P; split_and!; [done | done | cbn [fst snd]; lia | by intros _]].
    clear. intros a resto s w s' w' (Hc & Hl & Hle & Hin) Hrun.
    pose proof (descargas_cuerpo_efecto a s w) as Hef.
    rewrite Hrun in Hef.
    destruct Hef as (Hcons & Hnv & _ & H1 & H2 & H3 & Hgone).
    destruct (Hl a (list_elem_of_here _ _)) as [Ha Hpa].
    split_and!.
    - apply Hcons; [|done].
      intros [Heq|Heq%list_elem_of_singleton]%elem_of_cons.
      + apply (parent_distinto a); congruence.
      + apply (f_equal length) in Heq. rewrite length_FICHERO_LOG in Heq. lia.
    - intros b Hb. by apply Hl, list_elem_of_further.
    - lia.
    - intros Heq q [[Hq Hpq] _]%hijos_spec (f & d & Hqf & Hql & Ht).
      assert (Hql' : q ∉ [Descargas.FICHERO_LOG])
        by (by intros ?%list_elem_of_singleton).
      destruct (Hnv q _ Hql' Hqf) as [Hold|[Hd|Hlen]].
      + assert (Hel : elegible_descargas w q) by (by exists f, d).
        assert (Hqa : q ∈ a :: resto).
        { apply Hin; [lia| |done]. apply hijos_spec. by rewrite Hold. }
        apply elem_of_cons in Hqa as [->|?]; [|done].
        rewrite Hgone in Hqf; [done | done | lia].
      + done.
      + rewrite (length_parent q Hq), Hpq in Hlen. lia. }
  destruct Hfin as (Hc' & _ & Hle & Hnone). split_and!; [done..|].
  intros Heq q Hq Hel. by apply (Hnone Heq), elem_of_nil in Hel.
Qed.


Lemma procesar_normal_inv (w w1 : mundo) (c : nat * nat) :
  Descargas.procesar_archivos_existentes w = Normal c w1 →
  ∃ w0 w4 m,
    arbol w0 = arbol w
    ∧ arbol w !! Descargas.CARPETA_DESCARGAS = Some (Directorio m)
    ∧ para_cada Descargas.cuerpo
        (hijos (arbol w) Descargas.CARPETA_DESCARGAS) (0, 0) w0 = Normal c w4
    ∧ arbol w1 = arbol w4.
Proof.
  unfold Descargas.procesar_archivos_existentes.
  rewrite bind_eq, print_eq. cbv beta iota. rewrite bind_eq.
  set (w0 := con_linea _ w). unfold iterdir. cbn [arbol con_linea w0].
  destruct (arbol w !! Descargas.CARPETA_DESCARGAS) as [[m|f d]|] eqn:Hc;
    [|done..].
  cbv beta iota. rewrite bind_eq.
  destruct (para_cada _ _ (0, 0) w0) as [c' w4|e w4|] eqn:Hrun; [|done..].
  rewrite bind_eq, print_eq. cbv beta iota. cbv [ret].
  intros Hfin. injection Hfin as <- <-. by exists w0, w4, m.
Qed.



End segundo_barrido_descargas.

Lemma normal_final {A} (w0 : mundo) (r : resultado A) (a : A) :
  valor r = Some a → r = Normal a (mundo_final w0 r).
Proof. destruct r; simpl; congruence. Qed.




(** With the recursive flag the walk also goes through the folders that
    sweeps have made. Over the tree that a sweep of [mundo_uno] without the
    flag has left, where every folder the walk goes through is there from
    the start, "report.pdf" is found in the folder it was put in, its name
    is taken there by the file itself, and it becomes "report_1.pdf". *)
Example recursivo_choca_consigo :
  let destino := descargas // "documentos" // "2024" // "marzo" // "1-15" in
  let w1 := mundo_final mundo_uno
              (@Typer.organizar python_ascii descargas false false mundo_uno) in
  let r2 := @Typer.organizar python_ascii descargas true false w1 in
  arbol w1 !! (destino // "report.pdf") = Some (Archivo (Fecha 2024 3 10) "uno")
  ∧ valor r2 = Some (1, 1)
  ∧ arbol (mundo_final w1 r2) !! (destino // "report.pdf") = None
  ∧ arbol (mundo_final w1 r2) !! (destino // "report_1.pdf")
    = Some (Archivo (Fecha 2024 3 10) "uno").
Proof.
  intros destino w1 r2. split_and!; vm_compute; reflexivity.
Qed.

(** * Further properties of the scripts *)

(** ** The log file only grows *)

Lemma app_assoc_str (a b c : string) : (a +:+ b) +:+ c = a +:+ (b +:+ c).
Proof.
  induction a as [|x a IH]; [reflexivity|].
  by rewrite !app_String, IH.
Qed.

Section log_crece.
Context `{Python}.

Lemma log_crece_refl (w : mundo) : log_crece w w.
Proof. split; [|done]. exists "". by rewrite app_vacia_r. Qed.

Lemma log_crece_trans (w1 w2 w3 : mundo) :
  log_crece w1 w2 → log_crece w2 w3 → log_crece w1 w3.
Proof.
  intros [[s1 H1] Ha1] [[s2 H2] Ha2]. split; [|auto].
  exists (s1 +:+ s2). by rewrite H2, H1, app_assoc_str.
Qed.

Lemma log_crece_igual (w w' : mundo) :
  arbol w' !! Descargas.FICHERO_LOG = arbol w !! Descargas.FICHERO_LOG →
  log_crece w w'.
Proof.
  intros Heq. split.
  - exists "". rewrite app_vacia_r. by apply contenido_log_igual.
  - unfold es_archivo_en. by rewrite Heq.
Qed.

Lemma registrar_crece (linea : string) (w : mundo) :
  log_crece w (registrar linea w).
Proof.
  unfold registrar. case_bool_decide; [apply log_crece_refl|].
  destruct (arbol w !! Descargas.FICHERO_LOG) as [[m|f d]|] eqn:Hl.
  - apply log_crece_refl.
  - split.
    + exists linea. unfold contenido_log. cbn [arbol con_arbol].
      by rewrite lookup_insert_eq, Hl.
    + intros _. unfold es_archivo_en. cbn [arbol con_arbol].
      by rewrite lookup_insert_eq.
  - destruct (es_dir_en _ _); [|apply log_crece_refl]. split.
    + exists linea. unfold contenido_log. cbn [arbol con_arbol].
      by rewrite lookup_insert_eq, Hl.
    + intros _. unfold es_archivo_en. cbn [arbol con_arbol].
      by rewrite lookup_insert_eq.
Qed.

(** Creating the folders of the log file's own directory cannot create or
    change the log file. *)
Lemma mkdir_carpeta_log (w w1 : mundo) :
  mkdir_parents (parent Descargas.FICHERO_LOG) w = Normal tt w1 →
  arbol w1 !! Descargas.FICHERO_LOG = arbol w !! Descargas.FICHERO_LOG.
Proof.
  intros Hm.
  destruct (mkdir_parents_casos (parent Descargas.FICHERO_LOG) w)
    as [(e & He & _) | (w1' & Hm' & _ & _ & _ & Hl)]; [congruence|].
  assert (w1' = w1) as -> by congruence. rewrite Hl.
  destruct (arbol w !! Descargas.FICHERO_LOG); [done|].
  rewrite decide_False; [done|]. apply no_prefijo_mas_largo.
  rewrite parent_FICHERO_LOG, length_FICHERO_LOG. lia.
Qed.

Lemma escribir_log_crece (mensaje : string) (w : mundo) :
  ∃ w', Descargas.escribir_log mensaje w = Normal tt w' ∧ log_crece w w'.
Proof.
  unfold Descargas.escribir_log. rewrite try_except_eq, bind_eq.
  destruct (mkdir_parents (parent Descargas.FICHERO_LOG) w)
    as [[] w1|e w1|] eqn:Hm.
  - pose proof (anadir_registrar (Descargas.linea_log mensaje) w1) as Ha.
    rewrite try_except_eq in Ha.
    exists (registrar (Descargas.linea_log mensaje) w1). split.
    + by destruct (anadir _ _ w1).
    + eapply log_crece_trans; [|apply registrar_crece].
      apply log_crece_igual. by apply mkdir_carpeta_log.
  - destruct (mkdir_parents_casos (parent Descargas.FICHERO_LOG) w)
      as [(e' & He' & _) | (w1' & Hm' & _)]; [|congruence].
    assert (w1 = w) as -> by congruence.
    exists w. split; [reflexivity | apply log_crece_refl].
  - destruct (mkdir_parents_casos (parent Descargas.FICHERO_LOG) w)
      as [(e' & He' & _) | (w1' & Hm' & _)]; congruence.
Qed.

End log_crece.

(** X1. [escribir_log] never raises. It changes no entry of the tree other
    than the log file, adds nothing but the log file and missing folders,
    and only ever appends to the log: the old contents open the new ones.
    When the log can be written the new contents are the old ones followed
    by the line "[timestamp] message" and a line feed; when the log file is
    write-protected the contents stay as they are. *)
Theorem escribir_log_nunca_lanza `{Python} (mensaje : string) (w : mundo) :
  ∃ w', Descargas.escribir_log mensaje w = Normal tt w'
    ∧ bloqueados w' = bloqueados w ∧ salida w' = salida w
    ∧ (∀ q x, q ≠ Descargas.FICHERO_LOG →
              arbol w !! q = Some x → arbol w' !! q = Some x)
    ∧ (∀ q x, q ≠ Descargas.FICHERO_LOG → arbol w' !! q = Some x →
              arbol w !! q = Some x ∨ es_directorio x = true)
    ∧ log_crece w w'
    ∧ (log_escribible w →
       contenido_log w'
       = contenido_log w +:+ ("[" +:+ ahora +:+ "] " +:+ mensaje +:+ nl))
    ∧ (Descargas.FICHERO_LOG ∈ bloqueados w →
       contenido_log w' = contenido_log w).
Proof.
  destruct (escribir_log_conserva mensaje w) as (w' & Hw' & Hb & Hs & Hc & Hn).
  destruct (escribir_log_crece mensaje w) as (w'' & Hw'' & Hcrece).
  assert (w'' = w') as -> by congruence.
  exists w'. split_and!; try done.
  - intros Hesc. pose proof Hesc as (_ & _ & Hdirs).
    rewrite (escribir_log_registrar mensaje w Hdirs) in Hw'.
    injection Hw' as <-. by apply registrar_contenido.
  - intros Hbl. revert Hw'. unfold Descargas.escribir_log.
    rewrite try_except_eq, bind_eq.
    destruct (mkdir_parents_casos (parent Descargas.FICHERO_LOG) w)
      as [(e & He & _) | (w1 & Hm & Hb1 & _ & _ & Hl)].
    + rewrite He. cbv [ret]. by intros [= <-].
    + rewrite Hm. unfold anadir.
      rewrite bool_decide_eq_true_2 by (by rewrite Hb1).
      cbv [ret]. intros [= <-]. apply contenido_log_igual.
      by apply mkdir_carpeta_log.
Qed.

(** Discharges [log_escribible] on a concrete world by evaluation. *)
Ltac escribible_por_calculo :=
  split_and!;
  [ apply (bool_decide_unpack _); vm_compute; exact I
  | vm_compute; reflexivity
  | let q := fresh "q" in
    let Hq := fresh "Hq" in
    intros q Hq; apply (bool_decide_unpack _); revert q Hq;
    apply Forall_forall; apply (bool_decide_unpack _); vm_compute; exact I ].

(** X1 for a first message written in [mundo_uno], where there is no log
    file yet. *)
Lemma escribir_log_nunca_lanza_witness :
  ∃ w', @Descargas.escribir_log python_ascii "hola" mundo_uno = Normal tt w'
      ∧ @contenido_log python_ascii w'
        = @contenido_log python_ascii mundo_uno
          +:+ ("[" +:+ "2024-03-20 10:00:00" +:+ "] " +:+ "hola" +:+ nl).
Proof.
  destruct (@escribir_log_nunca_lanza python_ascii "hola" mundo_uno)
    as (w' & Hw' & _ & _ & _ & _ & _ & Hesc & _).
  exists w'. split; [exact Hw'|]. apply Hesc. escribible_por_calculo.
Defined.

Section log_en_barrido.
Context `{Python}.

Lemma mkdir_destino_log_igual (ruta : Path) (f : fecha) (mes : string)
    (w w1 : mundo) :
  mkdir_parents
    (Descargas.CARPETA_ORDENADA
     // Descargas.categoria_para_extension (str_lower (suffix (name ruta)))
     // pretty (year f) // mes // Descargas.quincena_de f) w = Normal tt w1 →
  arbol w1 !! Descargas.FICHERO_LOG = arbol w !! Descargas.FICHERO_LOG.
Proof.
  intros Hm. set (cd := _ // _ // _ // _ // _) in *.
  destruct (mkdir_parents_casos cd w)
    as [(e & He & _) | (w1' & Hm' & _ & _ & _ & Hl)]; [congruence|].
  assert (w1' = w1) as -> by congruence.
  rewrite Hl. destruct (arbol w !! Descargas.FICHERO_LOG); [done|].
  rewrite decide_False; [done|].
  intros [_ [r Hr]]%prefijos_spec.
  unfold cd, Descargas.CARPETA_ORDENADA, Descargas.FICHERO_LOG, barra in Hr.
  rewrite <- !app_assoc in Hr. apply app_inv_head in Hr. simpl in Hr.
  injection Hr as Hr _. by apply categoria_no_es_log in Hr.
Qed.

Lemma descargas_mover_crece (ruta : Path) (w : mundo) :
  es_dir_en (arbol w) ruta = false →
  ruta ≠ Descargas.FICHERO_LOG →
  match Descargas.mover_y_organizar ruta w with
  | Normal _ w' | Lanza _ w' => log_crece w w'
  | Agotado => False
  end.
Proof.
  intros Hdir Hlog. unfold es_dir_en in Hdir.
  destruct (arbol w !! ruta) as [[m|f d]|] eqn:Hn; [done| |].
  2: { rewrite descargas_mover_ausente by done. apply log_crece_refl. }
  destruct (decide (fecha_valida f)) as [Hv|Hv].
  2: { rewrite (descargas_mover_fecha_lanza _ _ _ Hn Hv). apply log_crece_refl. }
  destruct (indice_casos Descargas.MESES_ES (Z.of_nat (month f) - 1) w)
    as [Hi|[mes Hi]].
  { rewrite (descargas_mover_indice_lanza _ _ _ _ Hn Hv Hi). apply log_crece_refl. }
  destruct (descargas_mover_desde ruta w f d mes Hn Hv Hi Hlog)
    as [(e & _ & ->) | (w1 & n & Hm & Hfree & _ & ->)].
  { apply log_crece_refl. }
  set (cd := _ // _ // _ // _ // _) in *. cbv zeta.
  set (w3 := registrar _ _).
  assert (H3 : log_crece w w3).
  { eapply log_crece_trans; [|apply registrar_crece].
    apply log_crece_igual. cbn [arbol con_linea].
    by eapply mkdir_destino_log_igual. }
  assert (Hdl : intento cd ruta n ≠ Descargas.FICHERO_LOG).
  { intros Heq%(f_equal length).
    rewrite length_intento, length_FICHERO_LOG in Heq.
    unfold cd, Descargas.CARPETA_ORDENADA in Heq.
    rewrite !length_barra in Heq. lia. }
  case_bool_decide.
  { eapply log_crece_trans; [exact H3|]. apply log_crece_igual.
    cbn [arbol con_arbol]. by rewrite lookup_insert_ne. }
  eapply log_crece_trans; [exact H3|]. apply log_crece_igual.
  cbn [arbol con_arbol]. unfold mudado.
  rewrite lookup_insert_ne by done. by rewrite lookup_delete_ne.
Qed.

Lemma descargas_cuerpo_crece (ruta : Path) (cuenta : nat * nat) (w : mundo) :
  match Descargas.cuerpo ruta cuenta w with
  | Normal _ w' | Lanza _ w' => log_crece w w'
  | Agotado => False
  end.
Proof.
  destruct (es_dir_en (arbol w) ruta) eqn:Hdir.
  { rewrite descargas_cuerpo_omitido by (by left). apply log_crece_refl. }
  destruct (decide (ruta = Descargas.FICHERO_LOG)) as [Hlog|Hlog].
  { rewrite descargas_cuerpo_omitido by (by right; left). apply log_crece_refl. }
  destruct (Descargas.es_temporal ruta) eqn:Ht.
  { rewrite descargas_cuerpo_omitido by (by right; right). apply log_crece_refl. }
  pose proof (descargas_mover_crece ruta w Hdir Hlog) as Hcr.
  unfold Descargas.cuerpo. rewrite bind_eq. unfold is_dir.
  fold (es_dir_en (arbol w) ruta). rewrite Hdir. cbv beta iota.
  rewrite bool_decide_eq_false_2 by done. rewrite Ht.
  rewrite try_except_eq, bind_eq.
  destruct (Descargas.mover_y_organizar ruta w) as [[] w'|e we|]; [| |done].
  - exact Hcr.
  - rewrite bind_eq, print_eq. cbv beta iota. rewrite bind_eq.
    destruct (escribir_log_crece
                ("ERROR al mover existente " +:+ str_ruta ruta +:+ ": "
                 +:+ str_exc e)
                (con_linea ("[ERROR] No se pudo mover existente "
                            +:+ str_ruta ruta +:+ ": " +:+ str_exc e) we))
      as (w' & -> & Hcr').
    cbv beta iota. cbv [ret].
    eapply log_crece_trans; [exact Hcr|]. exact Hcr'.
Qed.

Lemma log_crece_para_cada (l : list Path) (cuenta : nat * nat) (w : mundo) :
  match para_cada Descargas.cuerpo l cuenta w with
  | Normal _ w' | Lanza _ w' => log_crece w w'
  | Agotado => False
  end.
Proof.
  revert cuenta w. induction l as [|a l IH]; intros cuenta w.
  - apply log_crece_refl.
  - cbn [para_cada]. rewrite bind_eq.
    pose proof (descargas_cuerpo_crece a cuenta w) as Ha.
    destruct (Descargas.cuerpo a cuenta w) as [c1 w1|e w1|]; [|done..].
    specialize (IH c1 w1).
    destruct (para_cada Descargas.cuerpo l c1 w1) as [c2 w2|e w2|]; [| |done];
      by eapply log_crece_trans.
Qed.

End log_en_barrido.

(** X2. The log file is append-only for the watch script: whatever the
    initial sweep does and however it ends, the log file's earlier contents
    open its contents afterwards, and a log file that was there is still a
    regular file at its place: the sweep never moves, truncates or
    replaces it. *)
Theorem barrido_solo_anade_al_log `{Python} (w : mundo) :
  match Descargas.procesar_archivos_existentes w with
  | Normal _ w' | Lanza _ w' =>
      (∃ s, contenido_log w' = contenido_log w +:+ s)
      ∧ (∀ f d, arbol w !! Descargas.FICHERO_LOG = Some (Archivo f d) →
           ∃ f' d', arbol w' !! Descargas.FICHERO_LOG = Some (Archivo f' d'))
  | Agotado => False
  end.
Proof.
  assert (Hforma : ∀ w', log_crece w w' →
            (∃ s, contenido_log w' = contenido_log w +:+ s)
            ∧ (∀ f d, arbol w !! Descargas.FICHERO_LOG = Some (Archivo f d) →
                 ∃ f' d', arbol w' !! Descargas.FICHERO_LOG
                          = Some (Archivo f' d'))).
  { intros w' [Hs Ha]. split; [exact Hs|]. intros f d Hl.
    unfold es_archivo_en in Ha. rewrite Hl in Ha. specialize (Ha eq_refl).
    destruct (arbol w' !! Descargas.FICHERO_LOG) as [[m|f' d']|]; try done.
    by exists f', d'. }
  unfold Descargas.procesar_archivos_existentes.
  rewrite bind_eq, print_eq. cbv beta iota. rewrite bind_eq.
  set (w0 := con_linea _ w). unfold iterdir. cbn [arbol con_linea w0].
  destruct (arbol w !! Descargas.CARPETA_DESCARGAS) as [[m|f d]|];
    try (apply Hforma, log_crece_igual; reflexivity).
  cbv beta iota. rewrite bind_eq.
  pose proof (log_crece_para_cada
                (hijos (arbol w) Descargas.CARPETA_DESCARGAS) (0, 0) w0) as Hp.
  destruct (para_cada _ _ (0, 0) w0) as [c w4|e w4|]; [| |done].
  - rewrite bind_eq, print_eq. cbv beta iota. cbv [ret].
    apply Hforma. eapply log_crece_trans; [|exact Hp].
    by apply log_crece_igual.
  - apply Hforma. eapply log_crece_trans; [|exact Hp].
    by apply log_crece_igual.
Qed.

(** ** Every statement comes to an end *)

Lemma termina_ret {A} (a : A) : termina (ret a).
Proof. by intros w. Qed.

Lemma termina_bind {A B} (c : M A) (k : A → M B) :
  termina c → (∀ a, termina (k a)) → termina (bind c k).
Proof.
  intros Hc Hk w. rewrite bind_eq.
  destruct (c w) as [a w'|e w'|] eqn:E; [apply Hk | done | by apply Hc in E].
Qed.

Lemma termina_try_except {A} (c : M A) (h : excepcion → M A) :
  termina c → (∀ e, termina (h e)) → termina (try_except c h).
Proof.
  intros Hc Hh w. rewrite try_except_eq.
  destruct (c w) as [a w'|e w'|] eqn:E; [done | apply Hh | by apply Hc in E].
Qed.

Lemma termina_para_cada {A S} (cuerpo : A → S → M S) (l : list A) (s : S) :
  (∀ a s', termina (cuerpo a s')) → termina (para_cada cuerpo l s).
Proof.
  intros Hc. revert s. induction l as [|a l IH]; intros s.
  - apply termina_ret.
  - cbn [para_cada]. apply termina_bind; [apply Hc | apply IH].
Qed.

Lemma termina_print (linea : string) : termina (print linea).
Proof. by intros w. Qed.

Lemma termina_exists (p : Path) : termina (exists_ p).
Proof. by intros w. Qed.

Lemma termina_is_dir (p : Path) : termina (is_dir p).
Proof. by intros w. Qed.

Lemma termina_is_file (p : Path) : termina (is_file p).
Proof. by intros w. Qed.

Lemma termina_stat_fecha (p : Path) : termina (stat_fecha p).
Proof.
  intros w. unfold stat_fecha. destruct (arbol w !! p); [|done].
  by case_bool_decide.
Qed.

Lemma termina_iterdir (p : Path) : termina (iterdir p).
Proof. intros w. unfold iterdir. by destruct (arbol w !! p) as [[]|]. Qed.

Lemma termina_rglob (p : Path) : termina (rglob p).
Proof. by intros w. Qed.

Lemma termina_indice {A} (l : list A) (i : Z) : termina (indice l i).
Proof.
  intros w. unfold indice. cbv zeta.
  destruct (_ <? 0)%Z; [done|]. by destruct (l !! _).
Qed.

Lemma termina_mkdir_parents `{Python} (p : Path) : termina (mkdir_parents p).
Proof. intros w. unfold mkdir_parents. by destruct (existsb _ _). Qed.

Lemma termina_shutil_move (src dst : Path) : termina (shutil_move src dst).
Proof.
  intros w. unfold shutil_move. cbv zeta.
  destruct (_ && _); [done|]. destruct (_ && _); [done|].
  destruct (arbol w !! src) as [[m|f d]|]; [| |done].
  - destruct (bool_decide _); [done|]. by destruct (negb _).
  - destruct (negb _); [done|]. destruct (bool_decide _); [|done].
    by destruct (bool_decide _).
Qed.

Lemma termina_anadir `{Python} (p : Path) (texto : string) :
  termina (anadir p texto).
Proof.
  intros w. unfold anadir. cbv zeta. destruct (bool_decide _); [done|].
  destruct (arbol w !! p) as [[]|]; [done..|]. by destruct (es_dir_en _ _).
Qed.

Lemma termina_destino_libre (cd archivo : Path) :
  termina (destino_libre cd archivo).
Proof.
  intros w. destruct (destino_libre_primero cd archivo w) as (n & -> & _). done.
Qed.

Section terminan.
Context `{Python}.

Lemma termina_escribir_log (mensaje : string) :
  termina (Descargas.escribir_log mensaje).
Proof.
  apply termina_try_except; [|intros; apply termina_ret].
  apply termina_bind; [apply termina_mkdir_parents|].
  intros _. apply termina_anadir.
Qed.

Lemma termina_mover_y_organizar (ruta : Path) :
  termina (Descargas.mover_y_organizar ruta).
Proof.
  unfold Descargas.mover_y_organizar.
  apply termina_bind; [apply termina_exists|]. intros e.
  destruct e; cbn [negb]; [|apply termina_ret].
  apply termina_bind; [apply termina_stat_fecha|]. intros f.
  apply termina_bind; [apply termina_indice|]. intros mes. cbv zeta.
  apply termina_bind; [apply termina_mkdir_parents|]. intros _.
  apply termina_bind; [apply termina_destino_libre|]. intros destino.
  apply termina_bind; [apply termina_print|]. intros _.
  apply termina_bind; [apply termina_escribir_log|]. intros _.
  apply termina_shutil_move.
Qed.

Lemma procesar_archivo_nuevo_normal (ruta : Path) (w : mundo) :
  ∃ w', Descargas._procesar_archivo_nuevo ruta w = Normal tt w'.
Proof.
  unfold Descargas._procesar_archivo_nuevo.
  case_bool_decide; [by eexists|].
  destruct (Descargas.es_temporal ruta); [by eexists|].
  rewrite bind_eq. unfold time_sleep, ret. cbv beta iota.
  rewrite try_except_eq.
  destruct (Descargas.mover_y_organizar ruta w) as [[] w'|e w'|] eqn:E.
  - by eexists.
  - rewrite print_eq. by eexists.
  - by apply termina_mover_y_organizar in E.
Qed.

End terminan.

(** X3. The event handler of the watch script never raises and never runs
    out of steps: for every notification and every state of the file tree,
    [on_created] and [on_moved] return normally, whatever the relocation
    behind them does. A notification about a directory changes nothing,
    and neither does one about the log file itself. *)
Theorem manejador_nunca_lanza `{Python} (event : Descargas.evento) (w : mundo) :
  (∃ w', Descargas.on_created event w = Normal tt w')
  ∧ (∃ w', Descargas.on_moved event w = Normal tt w')
  ∧ (Descargas.is_directory event = true →
     Descargas.on_created event w = Normal tt w
     ∧ Descargas.on_moved event w = Normal tt w)
  ∧ (Descargas.src_path event = Descargas.FICHERO_LOG →
     Descargas.on_created event w = Normal tt w)
  ∧ (Descargas.dest_path event = Descargas.FICHERO_LOG →
     Descargas.on_moved event w = Normal tt w).
Proof.
  unfold Descargas.on_created, Descargas.on_moved.
  split_and!.
  - destruct (Descargas.is_directory event); [by eexists|].
    apply procesar_archivo_nuevo_normal.
  - destruct (Descargas.is_directory event); [by eexists|].
    apply procesar_archivo_nuevo_normal.
  - by intros ->.
  - intros ->. destruct (Descargas.is_directory event); [done|].
    unfold Descargas._procesar_archivo_nuevo.
    by rewrite bool_decide_eq_true_2.
  - intros ->. destruct (Descargas.is_directory event); [done|].
    unfold Descargas._procesar_archivo_nuevo.
    by rewrite bool_decide_eq_true_2.
Qed.

(** X3 for the notification that "report.pdf" appeared in [mundo_uno] and
    for one about a directory. *)
Lemma manejador_nunca_lanza_witness :
  (∃ w', @Descargas.on_created python_ascii
           (Descargas.Evento false (descargas // "report.pdf") []) mundo_uno
         = Normal tt w')
  ∧ @Descargas.on_moved python_ascii
      (Descargas.Evento true [] (descargas // "sub")) mundo_uno
    = Normal tt mundo_uno
  ∧ @Descargas.on_created python_ascii
      (Descargas.Evento false (@Descargas.FICHERO_LOG python_ascii) []) mundo_uno
    = Normal tt mundo_uno.
Proof.
  split_and!.
  - exact (proj1 (@manejador_nunca_lanza python_ascii
                    (Descargas.Evento false (descargas // "report.pdf") [])
                    mundo_uno)).
  - destruct (@manejador_nunca_lanza python_ascii
                (Descargas.Evento true [] (descargas // "sub")) mundo_uno)
      as (_ & _ & Hdir & _ & _).
    apply Hdir. reflexivity.
  - destruct (@manejador_nunca_lanza python_ascii
                (Descargas.Evento false (@Descargas.FICHERO_LOG python_ascii) [])
                mundo_uno)
      as (_ & _ & _ & Hlog & _).
    apply Hlog. reflexivity.
Defined.

(** ** What the counters of a sweep count *)

Lemma NoDup_hijos (m : gmap Path nodo) (d : Path) : NoDup (hijos m d).
Proof. apply NoDup_filter, NoDup_fst_map_to_list. Qed.

Lemma NoDup_descendientes (m : gmap Path nodo) (d : Path) :
  NoDup (descendientes m d).
Proof. apply NoDup_filter, NoDup_fst_map_to_list. Qed.

Lemma descendientes_presentes (m : gmap Path nodo) (d q : Path) :
  q ∈ descendientes m d → is_Some (m !! q).
Proof.
  unfold descendientes. rewrite list_elem_of_filter, list_elem_of_fmap.
  intros [_ ([k x] & -> & Hkx)]. apply elem_of_map_to_list in Hkx. by exists x.
Qed.

Lemma listado_NoDup (recursivo : bool) (m : gmap Path nodo) (d : Path) :
  NoDup (listado recursivo m d).
Proof. destruct recursivo; [apply NoDup_descendientes | apply NoDup_hijos]. Qed.

Lemma listado_presentes (recursivo : bool) (m : gmap Path nodo) (d q : Path) :
  q ∈ listado recursivo m d → is_Some (m !! q).
Proof.
  destruct recursivo; [apply descendientes_presentes|].
  by intros [_ ?]%hijos_spec.
Qed.

Section cuentas.
Context `{Python}.

Lemma trasladable_typer_spec (w : mundo) (p : Path) :
  trasladable_typer w p = true ↔ elegible_typer w p.
Proof.
  unfold trasladable_typer, elegible_typer, es_archivo_en.
  rewrite andb_true_iff, negb_true_iff. split.
  - intros [Ha Ht]. destruct (arbol w !! p) as [[m|f d]|]; try done.
    by exists f, d.
  - intros (f & d & -> & Ht). done.
Qed.

Lemma trasladable_typer_igual (w w0 : mundo) (p : Path) :
  arbol w !! p = arbol w0 !! p → trasladable_typer w p = trasladable_typer w0 p.
Proof. intros Heq. unfold trasladable_typer, es_archivo_en. by rewrite Heq. Qed.

Lemma typer_cuerpo_cuenta (carpeta a : Path) (dry_run : bool)
    (c c1 : nat * nat) (w w1 : mundo) :
  Typer.cuerpo carpeta dry_run a c w = Normal c1 w1 →
  c1 = if trasladable_typer w a
       then (S c.1, if dry_run then c.2 else S c.2) else c.
Proof.
  intros Hrun. destruct (trasladable_typer w a) eqn:Ht.
  - apply trasladable_typer_spec in Ht as (f & d & Hn & Ht).
    destruct (destino_para_archivo_casos a carpeta w)
      as [(e & He) | (x1 & x2 & x3 & x4 & Hd)].
    { rewrite (typer_cuerpo_destino_lanza _ _ _ _ _ e) in Hrun;
        [done | by exists f, d | done]. }
    destruct (typer_cuerpo_desde carpeta a _ dry_run c w f d Hn Ht Hd)
      as [(e & _ & Hl) | (w2 & n & _ & _ & _ & Heq)]; [congruence|].
    rewrite Heq in Hrun. cbv zeta in Hrun. destruct dry_run.
    + by injection Hrun as <- _.
    + destruct (bool_decide _); [done|]. by injection Hrun as <- _.
  - rewrite typer_cuerpo_no_elegible in Hrun.
    + by injection Hrun as <- _.
    + intros Hel%trasladable_typer_spec. congruence.
Qed.

Lemma typer_cuenta_para_cada (carpeta : Path) (dry_run : bool) (w0 : mundo)
    (l : list Path) :
  NoDup l →
  (∀ q, q ∈ l → is_Some (arbol w0 !! q)) →
  ∀ c w c' w',
    (∀ q, q ∈ l → arbol w !! q = arbol w0 !! q) →
    para_cada (Typer.cuerpo carpeta dry_run) l c w = Normal c' w' →
    c'.1 = c.1 + length (filter (λ p, trasladable_typer w0 p = true) l)
    ∧ c'.2 = c.2 + (if dry_run then 0
                    else length (filter (λ p, trasladable_typer w0 p = true) l)).
Proof.
  induction l as [|a l IH]; intros Hnd Hpres c w c' w' Hsame Hrun.
  - cbv [para_cada ret] in Hrun. injection Hrun as <- _.
    cbn [filter list_filter length]. destruct dry_run; lia.
  - apply NoDup_cons in Hnd as [Ha Hnd].
    cbn [para_cada] in Hrun. rewrite bind_eq in Hrun.
    destruct (Typer.cuerpo carpeta dry_run a c w) as [c1 w1|e w1|] eqn:Ea;
      [|done..].
    pose proof (typer_cuerpo_cuenta _ _ _ _ _ _ _ Ea) as Hc1.
    rewrite (trasladable_typer_igual w w0)
      in Hc1 by (apply Hsame, list_elem_of_here).
    pose proof (typer_cuerpo_efecto carpeta a dry_run c w) as Hef.
    rewrite Ea in Hef. destruct Hef as (Hcons & _).
    destruct (IH Hnd (λ q Hq, Hpres q (list_elem_of_further _ _ _ Hq))
                c1 w1 c' w') as [H1 H2]; [|exact Hrun|].
    { intros q Hq.
      destruct (Hpres q (list_elem_of_further _ _ _ Hq)) as [x Hx].
      rewrite Hx. apply Hcons.
      - intros ->%list_elem_of_singleton. done.
      - rewrite Hsame by (by apply list_elem_of_further). done. }
    rewrite filter_cons. destruct (decide _) as [Hy|Hn].
    + rewrite Hy in Hc1. subst c1. cbn [fst snd length] in *.
      destruct dry_run; lia.
    + apply not_true_is_false in Hn. rewrite Hn in Hc1. subst c1.
      destruct dry_run; lia.
Qed.

Lemma trasladable_descargas_spec (w : mundo) (p : Path) :
  trasladable_descargas w p = true ↔ elegible_descargas w p.
Proof.
  unfold trasladable_descargas, elegible_descargas, es_archivo_en.
  rewrite !andb_true_iff, !negb_true_iff, bool_decide_eq_false. split.
  - intros [[Ha Hl] Ht]. destruct (arbol w !! p) as [[m|f d]|]; try done.
    by exists f, d.
  - intros (f & d & -> & Hl & Ht). done.
Qed.

(** The body of the sweep always completes; it counts a path as found
    unless the path is a directory, the log or a partial download. *)
Lemma descargas_cuerpo_cuenta (ruta : Path) (c : nat * nat) (w : mundo) :
  ∃ c1 w1,
    Descargas.cuerpo ruta c w = Normal c1 w1
    ∧ c1.1 = c.1 + (if negb (es_dir_en (arbol w) ruta)
                       && negb (bool_decide (ruta = Descargas.FICHERO_LOG))
                       && negb (Descargas.es_temporal ruta)
                    then 1 else 0)
    ∧ c.2 ≤ c1.2 ∧ c1.2 + c.1 ≤ c1.1 + c.2
    ∧ conserva [ruta; Descargas.FICHERO_LOG] w w1
    ∧ bloqueados w1 = bloqueados w.
Proof.
  pose proof (descargas_cuerpo_efecto ruta c w) as Hef.
  destruct (Descargas.cuerpo ruta c w) as [c1 w1|e w1|] eqn:Ec; [|done..].
  destruct Hef as (Hcons & _ & Hb & _ & H2 & H3 & _).
  exists c1, w1. split_and!; try done.
  destruct (es_dir_en (arbol w) ruta) eqn:Hdir.
  { rewrite descargas_cuerpo_omitido in Ec by (by left).
    injection Ec as <- _. cbn [negb andb]. lia. }
  case_bool_decide as Hlog.
  { rewrite descargas_cuerpo_omitido in Ec by (by right; left).
    injection Ec as <- _. cbn [negb andb]. lia. }
  destruct (Descargas.es_temporal ruta) eqn:Ht.
  { rewrite descargas_cuerpo_omitido in Ec by (by right; right).
    injection Ec as <- _. cbn [negb andb]. lia. }
  cbn [negb andb].
  unfold Descargas.cuerpo in Ec. rewrite bind_eq in Ec. unfold is_dir in Ec.
  fold (es_dir_en (arbol w) ruta) in Ec. rewrite Hdir in Ec.
  cbv beta iota in Ec. rewrite bool_decide_eq_false_2 in Ec by done.
  rewrite Ht in Ec. rewrite try_except_eq, bind_eq in Ec.
  destruct (Descargas.mover_y_organizar ruta w) as [[] w'|e we|]; [| |done].
  - cbv [ret] in Ec. injection Ec as <- _. cbn [fst]. lia.
  - rewrite bind_eq, print_eq in Ec. cbv beta iota in Ec. rewrite bind_eq in Ec.
    destruct (Descargas.escribir_log _ _) as [[] w2|e2 w2|]; [|done..].
    cbv [ret] in Ec. injection Ec as <- _. cbn [fst]. lia.
Qed.

Lemma descargas_cuenta_para_cada (w0 : mundo) (l : list Path) :
  NoDup l →
  (∀ q, q ∈ l → is_Some (arbol w0 !! q)) →
  ∀ c w,
    (∀ q, q ∈ l → q ≠ Descargas.FICHERO_LOG → arbol w !! q = arbol w0 !! q) →
    ∃ c' w',
      para_cada Descargas.cuerpo l c w = Normal c' w'
      ∧ c'.1 = c.1 + length (filter (λ p, trasladable_descargas w0 p = true) l)
      ∧ c.2 ≤ c'.2 ∧ c'.2 + c.1 ≤ c'.1 + c.2
      ∧ bloqueados w' = bloqueados w.
Proof.
  induction l as [|a l IH]; intros Hnd Hpres c w Hsame.
  - exists c, w. cbn [filter list_filter length].
    split_and!; [done | lia.. | done].
  - apply NoDup_cons in Hnd as [Ha Hnd].
    destruct (descargas_cuerpo_cuenta a c w)
      as (c1 & w1 & Ea & Hc1 & H2 & H3 & Hcons & Hb).
    destruct (IH Hnd (λ q Hq, Hpres q (list_elem_of_further _ _ _ Hq)) c1 w1)
      as (c' & w' & Hrun & K1 & K2 & K3 & Kb).
    { intros q Hq Hlog.
      destruct (Hpres q (list_elem_of_further _ _ _ Hq)) as [x Hx].
      rewrite Hx. apply Hcons.
      - intros [Heq|Heq%list_elem_of_singleton]%elem_of_cons; by subst.
      - rewrite Hsame by (done || by apply list_elem_of_further). done. }
    exists c', w'. cbn [para_cada]. rewrite bind_eq, Ea.
    split; [exact Hrun|].
    assert (Hcont : negb (es_dir_en (arbol w) a)
                    && negb (bool_decide (a = Descargas.FICHERO_LOG))
                    && negb (Descargas.es_temporal a)
                    = trasladable_descargas w0 a).
    { unfold trasladable_descargas. case_bool_decide as Hlog.
      - by rewrite !andb_false_r.
      - unfold es_dir_en, es_archivo_en.
        rewrite Hsame by (done || apply list_elem_of_here).
        destruct (Hpres a (list_elem_of_here _ _)) as [x ->].
        by destruct x. }
    rewrite Hcont in Hc1.
    rewrite filter_cons. destruct (decide _) as [Hy|Hn].
    + rewrite Hy in Hc1. cbn [length]. split_and!; try lia; try done.
      congruence.
    + apply not_true_is_false in Hn. rewrite Hn in Hc1.
      split_and!; try lia; try done. congruence.
Qed.

Lemma typer_destino_termina (archivo base : Path) :
  termina (Typer.destino_para_archivo archivo base).
Proof.
  unfold Typer.destino_para_archivo.
  apply termina_bind; [apply termina_stat_fecha|]. intros f.
  apply termina_bind; [apply termina_indice|]. intros mes. apply termina_ret.
Qed.

Lemma typer_cuerpo_termina (carpeta : Path) (dry_run : bool) (archivo : Path)
    (cuenta : nat * nat) :
  termina (Typer.cuerpo carpeta dry_run archivo cuenta).
Proof.
  unfold Typer.cuerpo, Typer.echo.
  apply termina_bind; [apply termina_is_file|]. intros f.
  destruct f; cbn [negb]; [|apply termina_ret].
  destruct (Typer.es_temporal archivo); [apply termina_ret|].
  apply termina_bind; [apply typer_destino_termina|]. intros cd.
  apply termina_bind; [apply termina_mkdir_parents|]. intros _.
  apply termina_bind; [apply termina_destino_libre|]. intros destino.
  destruct dry_run.
  - apply termina_bind; [apply termina_print|]. intros _. apply termina_ret.
  - apply termina_bind; [apply termina_print|]. intros _.
    apply termina_bind; [apply termina_shutil_move|]. intros _.
    apply termina_ret.
Qed.

End cuentas.

(** The sweep of the watch script completes when the downloads folder is
    a directory and raises at once when it is not. *)
Lemma barrido_casos `{Python} (w : mundo) :
  let inicio := nl +:+ "[INICIO] Procesando archivos existentes en Descargas..." in
  match arbol w !! Descargas.CARPETA_DESCARGAS with
  | Some (Directorio _) =>
      ∃ c w', Descargas.procesar_archivos_existentes w = Normal c w'
            ∧ bloqueados w' = bloqueados w
  | Some (Archivo _ _) =>
      Descargas.procesar_archivos_existentes w
      = Lanza (NotADirectoryError Descargas.CARPETA_DESCARGAS) (con_linea inicio w)
  | None =>
      Descargas.procesar_archivos_existentes w
      = Lanza (FileNotFoundError Descargas.CARPETA_DESCARGAS) (con_linea inicio w)
  end.
Proof.
  intros inicio. unfold Descargas.procesar_archivos_existentes.
  rewrite bind_eq, print_eq. cbv beta iota. rewrite bind_eq.
  fold inicio. set (w0 := con_linea inicio w).
  unfold iterdir. cbn [arbol con_linea w0].
  destruct (arbol w !! Descargas.CARPETA_DESCARGAS) as [[m|f d]|];
    [|reflexivity..].
  cbv beta iota. rewrite bind_eq.
  destruct (descargas_cuenta_para_cada w
              (hijos (arbol w) Descargas.CARPETA_DESCARGAS)
              (NoDup_hijos _ _)
              (λ q Hq, proj2 (proj1 (hijos_spec _ _ _) Hq))
              (0, 0) w0 (λ _ _ _, eq_refl))
    as (c & w4 & -> & _ & _ & _ & Hb).
  rewrite bind_eq, print_eq. cbv beta iota. cbv [ret].
  by eexists c, _.
Qed.

(** X4. The initial sweep of the watch script over a downloads folder that
    is a directory always completes. The number it reports as found is the
    number of regular files directly in the folder that are neither the log
    file nor partial downloads; the number it reports as moved is never
    larger; both are in the last line it prints. When the folder is missing
    or is a regular file, the sweep raises after printing its first line
    and changes nothing else. *)
Theorem barrido_cuenta_los_archivos `{Python} (w : mundo) :
  let inicio := nl +:+ "[INICIO] Procesando archivos existentes en Descargas..." in
  match arbol w !! Descargas.CARPETA_DESCARGAS with
  | Some (Directorio _) =>
      ∃ c w',
        Descargas.procesar_archivos_existentes w = Normal c w'
        ∧ c.1 = length (filter (λ p, trasladable_descargas w p = true)
                          (hijos (arbol w) Descargas.CARPETA_DESCARGAS))
        ∧ c.2 ≤ c.1
        ∧ bloqueados w' = bloqueados w
        ∧ ∃ antes,
            salida w'
            = antes ++ ["[FIN] Archivos existentes encontrados: " +:+ pretty c.1
                        +:+ ", movidos: " +:+ pretty c.2 +:+ nl]
  | Some (Archivo _ _) =>
      Descargas.procesar_archivos_existentes w
      = Lanza (NotADirectoryError Descargas.CARPETA_DESCARGAS) (con_linea inicio w)
  | None =>
      Descargas.procesar_archivos_existentes w
      = Lanza (FileNotFoundError Descargas.CARPETA_DESCARGAS) (con_linea inicio w)
  end.
Proof.
  intros inicio. unfold Descargas.procesar_archivos_existentes.
  rewrite bind_eq, print_eq. cbv beta iota. rewrite bind_eq.
  fold inicio. set (w0 := con_linea inicio w).
  unfold iterdir. cbn [arbol con_linea w0].
  destruct (arbol w !! Descargas.CARPETA_DESCARGAS) as [[m|f d]|];
    [|reflexivity..].
  cbv beta iota. rewrite bind_eq.
  destruct (descargas_cuenta_para_cada w
              (hijos (arbol w) Descargas.CARPETA_DESCARGAS)
              (NoDup_hijos _ _)
              (λ q Hq, proj2 (proj1 (hijos_spec _ _ _) Hq))
              (0, 0) w0 (λ _ _ _, eq_refl))
    as (c & w4 & -> & H1 & _ & H3 & Hb).
  cbn [fst snd] in H1, H3.
  rewrite bind_eq, print_eq. cbv beta iota. cbv [ret].
  eexists c, _. split; [reflexivity|]. split_and!.
  - exact H1.
  - lia.
  - exact Hb.
  - exists (salida w4). reflexivity.
Qed.

(** X5. The two counters of the command line. When [organizar] completes,
    a real run reports as moved the number it reports as analysed, a dry
    run moved none, and the last two lines printed carry these numbers.
    Without the recursive flag, and in a dry run with it, the number
    analysed is the number of regular files in the listing (the children
    of the folder, or all its descendants) that are not partial downloads.
    Nothing is said here of the number a real run with the recursive flag
    analyses: its walk goes on while files are relocated below the folder
    and can find a file again at its new place. The command never runs out
    of steps. *)
Theorem organizar_cuenta_los_archivos `{Python} (carpeta : Path)
    (recursivo dry_run : bool) (w : mundo) :
  match Typer.organizar carpeta recursivo dry_run w with
  | Normal c w' =>
      (recursivo = false ∨ dry_run = true →
       c.1 = length (filter (λ p, trasladable_typer w p = true)
                       (listado recursivo (arbol w) carpeta)))
      ∧ c.2 = (if dry_run then 0 else c.1)
      ∧ ∃ antes,
          salida w'
          = antes ++ [nl +:+ "Archivos analizados: " +:+ pretty c.1;
                      if dry_run then "Movimientos simulados: " +:+ pretty c.1
                      else "Archivos movidos: " +:+ pretty c.2]
  | Lanza _ _ => True
  | Agotado => False
  end.
Proof.
  unfold Typer.organizar, Typer.echo.
  rewrite bind_eq, print_eq. cbv beta iota. rewrite bind_eq.
  set (w1 := con_linea _ w).
  assert (∃ w2, (if dry_run then print "Modo: simulación (no se moverán archivos)"
                 else ret tt) w1 = Normal tt w2 ∧ arbol w2 = arbol w)
    as (w2 & -> & Hw2) by (destruct dry_run; eexists; split; reflexivity).
  cbv beta iota. rewrite bind_eq.
  assert (∃ w3, (if recursivo then print "Recorrido: recursivo (incluye subcarpetas)"
                 else ret tt) w2 = Normal tt w3 ∧ arbol w3 = arbol w)
    as (w3 & -> & Hw3) by (destruct recursivo; eexists; split; done).
  cbv beta iota. rewrite bind_eq.
  assert (Hlist : match Typer.iterar_archivos carpeta recursivo w3 with
                  | Normal l w' => l = listado recursivo (arbol w) carpeta ∧ w' = w3
                  | Lanza _ _ => True
                  | Agotado => False
                  end).
  { unfold Typer.iterar_archivos, listado.
    destruct recursivo; unfold rglob, iterdir; rewrite Hw3; [done|].
    by destruct (arbol w !! carpeta) as [[m|f d]|]. }
  destruct (Typer.iterar_archivos carpeta recursivo w3) as [l w'|e w'|];
    [|done..].
  destruct Hlist as [-> ->]. rewrite bind_eq.
  pose proof (termina_para_cada (Typer.cuerpo carpeta dry_run)
                (listado recursivo (arbol w) carpeta) (0, 0)
                (λ a s', typer_cuerpo_termina carpeta dry_run a s') w3) as Hter.
  destruct (para_cada _ _ (0, 0) w3) as [c w4|e w4|] eqn:Hrun; [|done..].
  destruct (typer_cuenta_para_cada carpeta dry_run w _
              (listado_NoDup recursivo (arbol w) carpeta)
              (listado_presentes recursivo (arbol w) carpeta)
              (0, 0) w3 c w4) as [H1 H2]; [by intros; rewrite Hw3 | exact Hrun |].
  cbn [fst snd] in H1, H2.
  rewrite bind_eq, print_eq. cbv beta iota. rewrite bind_eq.
  destruct dry_run; rewrite print_eq; cbv beta iota; cbv [ret].
  - split_and!; [by intros _ | lia |].
    exists (salida w4). cbn [salida con_linea]. by rewrite <- app_assoc.
  - split_and!; [by intros _ | lia |].
    exists (salida w4). cbn [salida con_linea]. by rewrite <- app_assoc.
Qed.

(** X5 for a real run over [mundo0] without the recursive flag: two of the
    three files in the folder are analysed and moved, the partial download
    is not. *)
Lemma organizar_cuenta_los_archivos_witness :
  ∃ c w',
    @Typer.organizar python_ascii descargas false false mundo0 = Normal c w'
    ∧ c.1 = length (filter (λ p, @trasladable_typer python_ascii mundo0 p = true)
                      (listado false (arbol mundo0) descargas))
    ∧ c.2 = c.1.
Proof.
  pose proof (@organizar_cuenta_los_archivos python_ascii descargas false false
                mundo0) as Hc.
  destruct (@Typer.organizar python_ascii descargas false false mundo0)
    as [c w'|e w'|] eqn:E.
  - destruct Hc as (H1 & H2 & _). exists c, w'.
    split; [reflexivity|]. split; [apply H1; left; reflexivity | exact H2].
  - vm_compute in E. discriminate E.
  - destruct Hc.
Defined.

(** ** The order of the tests in the classifiers *)

Lemma primera_categoria_cons (c : string) (E : gset string)
    (tabla : list (string * gset string)) (x : string) :
  primera_categoria ((c, E) :: tabla) x
  = if bool_decide (x ∈ E) then c else primera_categoria tabla x.
Proof.
  unfold primera_categoria. cbn [List.find fst snd].
  by destruct (bool_decide (x ∈ E)).
Qed.

Lemma primera_categoria_nombre (tabla : list (string * gset string)) (x : string) :
  primera_categoria tabla x ∈ tabla.*1 ∨ primera_categoria tabla x = "otros".
Proof.
  induction tabla as [|[c E] tabla IH]; [by right|].
  rewrite primera_categoria_cons. destruct (bool_decide (x ∈ E)).
  - left. apply list_elem_of_here.
  - destruct IH as [IH|IH]; [left|by right]. by apply list_elem_of_further.
Qed.

Lemma primera_categoria_otros (tabla : list (string * gset string)) (x : string) :
  "otros" ∉ tabla.*1 →
  primera_categoria tabla x = "otros"
  ↔ ∀ c E, (c, E) ∈ tabla → x ∉ E.
Proof.
  induction tabla as [|[c0 E0] tabla IH]; intros Hno.
  - split; [|done]. intros _ c E Hin. by apply elem_of_nil in Hin.
  - rewrite fmap_cons in Hno. apply not_elem_of_cons in Hno as [Hc0 Hno].
    rewrite primera_categoria_cons. case_bool_decide as Hx.
    + split; [intros Heq; cbn [fst] in Hc0; congruence|].
      intros Hall. exfalso. apply (Hall c0 E0); [apply list_elem_of_here|done].
    + rewrite (IH Hno). split.
      * intros Hall c E [Heq|Hin]%elem_of_cons; [|by eapply Hall].
        by injection Heq as -> ->.
      * intros Hall c E Hin. apply (Hall c E). by apply list_elem_of_further.
Qed.

Lemma primera_categoria_separadas (tabla : list (string * gset string))
    (x c : string) (E : gset string) :
  separadas tabla = true →
  NoDup tabla.*1 →
  "otros" ∉ tabla.*1 →
  (c, E) ∈ tabla →
  primera_categoria tabla x = c ↔ x ∈ E.
Proof.
  induction tabla as [|[c0 E0] tabla IH]; intros Hsep Hnd Hno Hin.
  - by apply elem_of_nil in Hin.
  - cbn [separadas] in Hsep. apply andb_true_iff in Hsep as [Hdis Hsep].
    rewrite forallb_forall in Hdis.
    rewrite fmap_cons in Hnd, Hno. apply NoDup_cons in Hnd as [Hc0 Hnd].
    apply not_elem_of_cons in Hno as [Hotros Hno].
    rewrite primera_categoria_cons.
    apply elem_of_cons in Hin as [Heq|Hin].
    + injection Heq as -> ->. case_bool_decide as Hx; [done|].
      split; [|done]. intros Heq.
      destruct (primera_categoria_nombre tabla x) as [Hn|Hn].
      * rewrite Heq in Hn. done.
      * rewrite Heq in Hn. cbn [fst] in Hotros. congruence.
    + assert (Hc : c ∈ tabla.*1).
      { apply list_elem_of_fmap. by exists (c, E). }
      assert (HE : E0 ## E).
      { apply list_elem_of_In, Hdis in Hin. cbn [snd] in Hin.
        by apply bool_decide_eq_true in Hin. }
      case_bool_decide as Hx.
      * split.
        -- intros ->. done.
        -- intros Hx'. exfalso. by apply (HE x).
      * by apply IH.
Qed.

Lemma tablas_separadas :
  separadas prioridad_descargas = true ∧ separadas prioridad_typer = true.
Proof. split; vm_compute; reflexivity. Qed.

Lemma tablas_nombres :
  (NoDup prioridad_descargas.*1 ∧ "otros" ∉ prioridad_descargas.*1)
  ∧ (NoDup prioridad_typer.*1 ∧ "otros" ∉ prioridad_typer.*1).
Proof.
  cbv [prioridad_descargas prioridad_typer fmap list_fmap fst].
  split; split; apply (bool_decide_unpack _); vm_compute; exact I.
Qed.

(** X6. The six sets of extensions of each script are pairwise disjoint,
    so the order in which the classifier tests them does not matter: the
    category of an extension is a given one of the six exactly when the
    lowercased extension is in the set of that category, and it is "otros"
    exactly when the lowercased extension is in none of the six sets. *)
Theorem categoria_sin_prioridad `{Python} (s c : string) (E : gset string) :
  ((c, E) ∈ prioridad_descargas →
   Descargas.categoria_para_extension s = c ↔ str_lower s ∈ E)
  ∧ ((c, E) ∈ prioridad_typer →
     Typer.categoria_para_extension s = c ↔ str_lower s ∈ E)
  ∧ (Descargas.categoria_para_extension s = "otros"
     ↔ ∀ c' E', (c', E') ∈ prioridad_descargas → str_lower s ∉ E')
  ∧ (Typer.categoria_para_extension s = "otros"
     ↔ ∀ c' E', (c', E') ∈ prioridad_typer → str_lower s ∉ E').
Proof.
  rewrite descargas_primera, typer_primera.
  destruct tablas_separadas as [Hd Ht].
  destruct tablas_nombres as [[Hd1 Hd2] [Ht1 Ht2]].
  split_and!.
  - intros Hin. exact (primera_categoria_separadas _ _ _ _ Hd Hd1 Hd2 Hin).
  - intros Hin. exact (primera_categoria_separadas _ _ _ _ Ht Ht1 Ht2 Hin).
  - exact (primera_categoria_otros _ _ Hd2).
  - exact (primera_categoria_otros _ _ Ht2).
Qed.

(** X6 for the extension ".PDF" and the documents of the watch script. *)
Lemma categoria_sin_prioridad_witness :
  @Descargas.categoria_para_extension python_ascii ".PDF" = "documentos"
  ↔ minusculas ".PDF" ∈ Descargas.EXT_DOCS.
Proof.
  apply (proj1 (@categoria_sin_prioridad python_ascii ".PDF" "documentos"
                  Descargas.EXT_DOCS)).
  apply list_elem_of_further, list_elem_of_here.
Defined.

(** ** Paths that are not there *)

(** X7. A path that is not in the tree when its turn comes. The relocation
    of the watch script returns at once and the event handler with it, both
    leaving the world as it is, without a line printed or logged; yet the
    sweep of the watch script counts such a path both as found and as
    moved. The command line does not count it, and its planner, asked
    directly, raises FileNotFoundError. *)
Theorem ruta_ausente `{Python} (p : Path) (w : mundo) (cuenta : nat * nat) :
  arbol w !! p = None →
  Descargas.mover_y_organizar p w = Normal tt w
  ∧ Descargas._procesar_archivo_nuevo p w = Normal tt w
  ∧ (p ≠ Descargas.FICHERO_LOG → Descargas.es_temporal p = false →
     Descargas.cuerpo p cuenta w = Normal (S cuenta.1, S cuenta.2) w)
  ∧ (∀ carpeta dry_run, Typer.cuerpo carpeta dry_run p cuenta w = Normal cuenta w)
  ∧ (∀ base, Typer.destino_para_archivo p base w = Lanza (FileNotFoundError p) w).
Proof.
  intros Hn. pose proof (descargas_mover_ausente p w Hn) as Hm. split_and!.
  - exact Hm.
  - unfold Descargas._procesar_archivo_nuevo.
    case_bool_decide; [done|]. destruct (Descargas.es_temporal p); [done|].
    rewrite bind_eq. unfold time_sleep, ret. cbv beta iota.
    by rewrite try_except_eq, Hm.
  - intros Hlog Ht. unfold Descargas.cuerpo. rewrite bind_eq. unfold is_dir.
    rewrite Hn. cbv beta iota. rewrite bool_decide_eq_false_2 by done.
    rewrite Ht. by rewrite try_except_eq, bind_eq, Hm.
  - intros carpeta dry_run. apply typer_cuerpo_no_elegible.
    intros (f & d & Hf & _). congruence.
  - intros base. unfold Typer.destino_para_archivo. rewrite bind_eq.
    unfold stat_fecha. by rewrite Hn.
Qed.

(** X7 for a file "ya_no_esta.pdf" that [mundo_uno] does not have. *)
Lemma ruta_ausente_witness :
  @Descargas.cuerpo python_ascii (descargas // "ya_no_esta.pdf") (0, 0) mundo_uno
  = Normal (1, 1) mundo_uno.
Proof.
  destruct (@ruta_ausente python_ascii (descargas // "ya_no_esta.pdf")
              mundo_uno (0, 0)) as (_ & _ & Hc & _).
  - vm_compute. reflexivity.
  - apply Hc.
    + intros Heq. vm_compute in Heq. discriminate Heq.
    + vm_compute. reflexivity.
Defined.

(** ** Invariants of a whole sweep *)

Lemma para_cada_invariante_en {A S} (cuerpo : A → S → M S) (P : mundo → Prop)
    (l : list A) :
  (∀ a s w, a ∈ l → P w →
     match cuerpo a s w with
     | Normal _ w' | Lanza _ w' => P w'
     | Agotado => False
     end) →
  ∀ s w, P w →
    match para_cada cuerpo l s w with
    | Normal _ w' | Lanza _ w' => P w'
    | Agotado => False
    end.
Proof.
  induction l as [|a l IH]; intros Hpaso s w HP; [exact HP|].
  cbn [para_cada]. rewrite bind_eq.
  pose proof (Hpaso a s w (list_elem_of_here _ _) HP) as Ha.
  destruct (cuerpo a s w) as [s1 w1|e w1|]; [|done..].
  apply IH; [|exact Ha].
  intros b s' w' Hb. apply Hpaso. by apply list_elem_of_further.
Qed.

Section invariantes.
Context `{Python}.

(** A property of the tree that every turn of the loop keeps is kept by
    the whole command. *)
Lemma organizar_invariante (carpeta : Path) (recursivo dry_run : bool)
    (w : mundo) (P : mundo → Prop) :
  (∀ w1 w2, arbol w1 = arbol w2 → P w1 → P w2) →
  P w →
  (∀ a s w0, a ∈ listado recursivo (arbol w) carpeta → P w0 →
     match Typer.cuerpo carpeta dry_run a s w0 with
     | Normal _ w' | Lanza _ w' => P w'
     | Agotado => False
     end) →
  match Typer.organizar carpeta recursivo dry_run w with
  | Normal _ w' | Lanza _ w' => P w'
  | Agotado => False
  end.
Proof.
  intros Harbol HP Hpaso. unfold Typer.organizar, Typer.echo.
  rewrite bind_eq, print_eq. cbv beta iota. rewrite bind_eq.
  set (w1 := con_linea _ w).
  assert (∃ w2, (if dry_run then print "Modo: simulación (no se moverán archivos)"
                 else ret tt) w1 = Normal tt w2 ∧ arbol w2 = arbol w)
    as (w2 & -> & Hw2) by (destruct dry_run; eexists; split; reflexivity).
  cbv beta iota. rewrite bind_eq.
  assert (∃ w3, (if recursivo then print "Recorrido: recursivo (incluye subcarpetas)"
                 else ret tt) w2 = Normal tt w3 ∧ arbol w3 = arbol w)
    as (w3 & -> & Hw3) by (destruct recursivo; eexists; split; done).
  cbv beta iota. rewrite bind_eq.
  assert (H3 : P w3) by (by apply (Harbol w)).
  assert (Hlist : match Typer.iterar_archivos carpeta recursivo w3 with
                  | Normal l w' => l = listado recursivo (arbol w) carpeta ∧ w' = w3
                  | Lanza _ w' => w' = w3
                  | Agotado => False
                  end).
  { unfold Typer.iterar_archivos, listado.
    destruct recursivo; unfold rglob, iterdir; rewrite Hw3; [done|].
    by destruct (arbol w !! carpeta) as [[m|f d]|]. }
  destruct (Typer.iterar_archivos carpeta recursivo w3) as [l w'|e w'|];
    [| by subst | done].
  destruct Hlist as [-> ->]. rewrite bind_eq.
  pose proof (para_cada_invariante_en (Typer.cuerpo carpeta dry_run) P
                (listado recursivo (arbol w) carpeta) Hpaso (0, 0) w3 H3) as Hinv.
  destruct (para_cada _ _ (0, 0) w3) as [c w4|e w4|]; [|done..].
  rewrite bind_eq, print_eq. cbv beta iota. rewrite bind_eq.
  destruct dry_run; rewrite print_eq; cbv beta iota; cbv [ret];
    by eapply Harbol; [|exact Hinv].
Qed.

(** The same with one property for the runs that complete and a weaker
    one for those that an exception interrupts. *)
Lemma organizar_invariante_dos (carpeta : Path) (recursivo dry_run : bool)
    (w : mundo) (P Q : mundo → Prop) :
  (∀ w1 w2, arbol w1 = arbol w2 → P w1 → P w2) →
  (∀ w', P w' → Q w') →
  P w →
  (∀ a s w0, a ∈ listado recursivo (arbol w) carpeta → P w0 →
     match Typer.cuerpo carpeta dry_run a s w0 with
     | Normal _ w' => P w'
     | Lanza _ w' => Q w'
     | Agotado => False
     end) →
  match Typer.organizar carpeta recursivo dry_run w with
  | Normal _ w' => P w'
  | Lanza _ w' => Q w'
  | Agotado => False
  end.
Proof.
  intros Harbol HPQ HP Hpaso. unfold Typer.organizar, Typer.echo.
  rewrite bind_eq, print_eq. cbv beta iota. rewrite bind_eq.
  set (w1 := con_linea _ w).
  assert (∃ w2, (if dry_run then print "Modo: simulación (no se moverán archivos)"
                 else ret tt) w1 = Normal tt w2 ∧ arbol w2 = arbol w)
    as (w2 & -> & Hw2) by (destruct dry_run; eexists; split; reflexivity).
  cbv beta iota. rewrite bind_eq.
  assert (∃ w3, (if recursivo then print "Recorrido: recursivo (incluye subcarpetas)"
                 else ret tt) w2 = Normal tt w3 ∧ arbol w3 = arbol w)
    as (w3 & -> & Hw3) by (destruct recursivo; eexists; split; done).
  cbv beta iota. rewrite bind_eq.
  assert (H3 : P w3) by (by apply (Harbol w)).
  assert (Hlist : match Typer.iterar_archivos carpeta recursivo w3 with
                  | Normal l w' => l = listado recursivo (arbol w) carpeta ∧ w' = w3
                  | Lanza _ w' => w' = w3
                  | Agotado => False
                  end).
  { unfold Typer.iterar_archivos, listado.
    destruct recursivo; unfold rglob, iterdir; rewrite Hw3; [done|].
    by destruct (arbol w !! carpeta) as [[m|f d]|]. }
  destruct (Typer.iterar_archivos carpeta recursivo w3) as [l w'|e w'|];
    [| subst; by apply HPQ | done].
  destruct Hlist as [-> ->]. rewrite bind_eq.
  assert (Hinv : match para_cada (Typer.cuerpo carpeta dry_run)
                         (listado recursivo (arbol w) carpeta) (0, 0) w3 with
                 | Normal _ w' => P w'
                 | Lanza _ w' => Q w'
                 | Agotado => False
                 end).
  { revert Hpaso H3. generalize (0, 0). generalize w3.
    induction (listado recursivo (arbol w) carpeta) as [|a l IH];
      intros w0 s Hpaso H0; [exact H0|].
    cbn [para_cada]. rewrite bind_eq.
    pose proof (Hpaso a s w0 (list_elem_of_here _ _) H0) as Ha.
    destruct (Typer.cuerpo carpeta dry_run a s w0) as [s1 w1'|e w1'|]; [|done..].
    apply IH; [|exact Ha].
    intros b s' w' Hb. apply Hpaso. by apply list_elem_of_further. }
  destruct (para_cada _ _ (0, 0) w3) as [c w4|e w4|]; [|done..].
  rewrite bind_eq, print_eq. cbv beta iota. rewrite bind_eq.
  destruct dry_run; rewrite print_eq; cbv beta iota; cbv [ret];
    by eapply Harbol; [|exact Hinv].
Qed.

Lemma procesar_invariante (w : mundo) (P : mundo → Prop) :
  (∀ w1 w2, arbol w1 = arbol w2 → P w1 → P w2) →
  P w →
  (∀ a s w0, a ∈ hijos (arbol w) Descargas.CARPETA_DESCARGAS → P w0 →
     match Descargas.cuerpo a s w0 with
     | Normal _ w' | Lanza _ w' => P w'
     | Agotado => False
     end) →
  match Descargas.procesar_archivos_existentes w with
  | Normal _ w' | Lanza _ w' => P w'
  | Agotado => False
  end.
Proof.
  intros Harbol HP Hpaso. unfold Descargas.procesar_archivos_existentes.
  rewrite bind_eq, print_eq. cbv beta iota. rewrite bind_eq.
  set (w0 := con_linea _ w). unfold iterdir. cbn [arbol con_linea w0].
  assert (H0 : P w0) by (by apply (Harbol w)).
  destruct (arbol w !! Descargas.CARPETA_DESCARGAS) as [[m|f d]|];
    [|exact H0..].
  cbv beta iota. rewrite bind_eq.
  pose proof (para_cada_invariante_en Descargas.cuerpo P
                (hijos (arbol w) Descargas.CARPETA_DESCARGAS) Hpaso (0, 0) w0 H0)
    as Hinv.
  destruct (para_cada _ _ (0, 0) w0) as [c w4|e w4|]; [|done..].
  rewrite bind_eq, print_eq. cbv beta iota. cbv [ret].
  by eapply Harbol; [|exact Hinv].
Qed.

End invariantes.

(** ** No file is lost *)

Section contenidos.
Context (omite : list Path).

Lemma contenidos_insert_nuevo (m : gmap Path nodo) (k : Path) (v : nodo) :
  m !! k = None →
  contenidos omite (<[k := v]> m)
  ≡ₚ match v with
     | Archivo f d => if decide (k ∈ omite) then [] else [(f, d)]
     | Directorio _ => []
     end ++ contenidos omite m.
Proof.
  intros Hk. unfold contenidos. rewrite (map_to_list_insert m k v Hk).
  cbn [omap list_omap fst snd]. destruct v as [f|f d]; [done|].
  by destruct (decide (k ∈ omite)).
Qed.

Lemma contenidos_delete (m : gmap Path nodo) (k : Path) (v : nodo) :
  m !! k = Some v →
  contenidos omite m
  ≡ₚ match v with
     | Archivo f d => if decide (k ∈ omite) then [] else [(f, d)]
     | Directorio _ => []
     end ++ contenidos omite (delete k m).
Proof.
  intros Hk. unfold contenidos. rewrite <- (map_to_list_delete m k v Hk).
  cbn [omap list_omap fst snd]. destruct v as [f|f d]; [done|].
  by destruct (decide (k ∈ omite)).
Qed.

Lemma contenidos_crear_si_falta (f : fecha) (m : gmap Path nodo) (q : Path) :
  contenidos omite (crear_si_falta f m q) ≡ₚ contenidos omite m.
Proof.
  unfold crear_si_falta. destruct (m !! q) eqn:Hq; [done|].
  by rewrite contenidos_insert_nuevo.
Qed.

Lemma contenidos_foldl_crear (f : fecha) (l : list Path) (m : gmap Path nodo) :
  contenidos omite (foldl (crear_si_falta f) m l) ≡ₚ contenidos omite m.
Proof.
  revert m. induction l as [|q l IH]; intros m; [done|].
  cbn [foldl]. by rewrite IH, contenidos_crear_si_falta.
Qed.

Lemma contenidos_mkdir `{Python} (p : Path) (w w1 : mundo) :
  mkdir_parents p w = Normal tt w1 →
  contenidos omite (arbol w1) ≡ₚ contenidos omite (arbol w).
Proof.
  unfold mkdir_parents. destruct (existsb _ _); [done|].
  intros Heq. injection Heq as <-. cbn [arbol con_arbol].
  apply contenidos_foldl_crear.
Qed.

Lemma contenidos_mudado (src dst : Path) (f : fecha) (d : string)
    (m : gmap Path nodo) :
  m !! src = Some (Archivo f d) →
  m !! dst = None →
  src ∉ omite → dst ∉ omite →
  contenidos omite (mudado src dst (Archivo f d) m) ≡ₚ contenidos omite m.
Proof.
  intros Hsrc Hdst Hs Hd. unfold mudado.
  rewrite contenidos_insert_nuevo
    by (rewrite lookup_delete_ne; [done | congruence]).
  rewrite (contenidos_delete m src _ Hsrc).
  by rewrite !decide_False.
Qed.

Lemma contenidos_presente (m : gmap Path nodo) (k : Path) (f : fecha)
    (d : string) :
  m !! k = Some (Archivo f d) → k ∉ omite → (f, d) ∈ contenidos omite m.
Proof.
  intros Hk Ho. rewrite (contenidos_delete m k _ Hk).
  rewrite decide_False by done. apply list_elem_of_here.
Qed.

Lemma contenidos_copiado (src dst : Path) (f : fecha) (d : string)
    (m : gmap Path nodo) :
  m !! src = Some (Archivo f d) →
  m !! dst = None →
  src ∉ omite → dst ∉ omite →
  (f, d) ∈ contenidos omite m
  ∧ contenidos omite (<[dst := Archivo f d]> m) ≡ₚ (f, d) :: contenidos omite m.
Proof.
  intros Hsrc Hdst Hs Hd. split; [by eapply contenidos_presente|].
  rewrite contenidos_insert_nuevo by done. by rewrite decide_False.
Qed.

Lemma contenidos_omitido (m : gmap Path nodo) (k : Path) (v : nodo) :
  k ∈ omite → contenidos omite (<[k := v]> m) ≡ₚ contenidos omite m.
Proof.
  intros Hk. rewrite <- (insert_delete_eq m).
  rewrite contenidos_insert_nuevo by apply lookup_delete_eq.
  assert (Hv : match v with
               | Archivo f d => if decide (k ∈ omite) then [] else [(f, d)]
               | Directorio _ => []
               end = []).
  { destruct v; [done|]. by rewrite decide_True. }
  rewrite Hv. cbn [app].
  destruct (m !! k) as [x|] eqn:Hx.
  - rewrite (contenidos_delete m k x Hx).
    destruct x; [done|]. by rewrite decide_True.
  - by rewrite delete_id.
Qed.

End contenidos.

Section nada_se_pierde.
Context `{Python}.

Lemma typer_cuerpo_contenidos (carpeta a : Path) (dry_run : bool)
    (c : nat * nat) (w : mundo) :
  match Typer.cuerpo carpeta dry_run a c w with
  | Normal _ w' => contenidos [] (arbol w') ≡ₚ contenidos [] (arbol w)
  | Lanza _ w' => igual_o_una_copia [] (arbol w) (arbol w')
  | Agotado => False
  end.
Proof.
  destruct (trasladable_typer w a) eqn:Ht.
  2: { rewrite typer_cuerpo_no_elegible; [done|].
       intros Hel%trasladable_typer_spec. congruence. }
  apply trasladable_typer_spec in Ht as (f & d & Hn & Ht).
  destruct (destino_para_archivo_casos a carpeta w)
    as [(e & He) | (x1 & x2 & x3 & x4 & Hd)].
  { rewrite (typer_cuerpo_destino_lanza _ _ _ _ _ e);
      [by left | by exists f, d | done]. }
  destruct (typer_cuerpo_desde carpeta a _ dry_run c w f d Hn Ht Hd)
    as [(e & _ & ->) | (w1 & n & Hm & Hfree & _ & ->)]; [by left|].
  pose proof (contenidos_mkdir [] _ _ _ Hm) as Hc1.
  cbv zeta. destruct dry_run; [exact Hc1|].
  assert (Hn1 : arbol w1 !! a = Some (Archivo f d))
    by (by apply (mkdir_conserva _ _ _ Hm); [apply not_elem_of_nil|]).
  assert (Hfree1 : arbol w1 !! intento (carpeta // x1 // x2 // x3 // x4) a n = None).
  { destruct (mkdir_parents_casos (carpeta // x1 // x2 // x3 // x4) w)
      as [(e & He & _) | (w1' & Hm' & _ & _ & _ & Hl)]; [congruence|].
    assert (w1' = w1) as -> by congruence.
    by rewrite (mkdir_no_toca_intentos _ a w w1 n Hl). }
  case_bool_decide.
  - right. exists (f, d). cbn [arbol con_arbol con_linea].
    destruct (contenidos_copiado [] a _ f d (arbol w1) Hn1 Hfree1)
      as [Hin Hp]; [apply not_elem_of_nil..|].
    split; [by rewrite <- Hc1 | by rewrite Hp, Hc1].
  - cbn [arbol con_arbol con_linea]. rewrite <- Hc1.
    apply contenidos_mudado; [done | done | apply not_elem_of_nil..].
Qed.

Lemma registrar_contenidos (linea : string) (w : mundo) :
  contenidos [Descargas.FICHERO_LOG] (arbol (registrar linea w))
  ≡ₚ contenidos [Descargas.FICHERO_LOG] (arbol w).
Proof.
  unfold registrar. case_bool_decide; [done|].
  destruct (arbol w !! Descargas.FICHERO_LOG) as [[m|f d]|]; [done| |].
  - cbn [arbol con_arbol]. apply contenidos_omitido, list_elem_of_here.
  - destruct (es_dir_en _ _); [|done].
    cbn [arbol con_arbol]. apply contenidos_omitido, list_elem_of_here.
Qed.

Lemma escribir_log_contenidos (mensaje : string) (w : mundo) :
  ∃ w', Descargas.escribir_log mensaje w = Normal tt w'
      ∧ contenidos [Descargas.FICHERO_LOG] (arbol w')
        ≡ₚ contenidos [Descargas.FICHERO_LOG] (arbol w).
Proof.
  unfold Descargas.escribir_log. rewrite try_except_eq, bind_eq.
  destruct (mkdir_parents (parent Descargas.FICHERO_LOG) w)
    as [[] w1|e w1|] eqn:Hm.
  - pose proof (contenidos_mkdir [Descargas.FICHERO_LOG] _ _ _ Hm) as Hc1.
    unfold anadir. cbv zeta. case_bool_decide; [by eexists|].
    destruct (arbol w1 !! Descargas.FICHERO_LOG) as [[m|f d]|].
    + by eexists.
    + eexists. split; [reflexivity|]. cbn [arbol con_arbol].
      rewrite <- Hc1. apply contenidos_omitido, list_elem_of_here.
    + destruct (es_dir_en _ _); [|by eexists].
      eexists. split; [reflexivity|]. cbn [arbol con_arbol].
      rewrite <- Hc1. apply contenidos_omitido, list_elem_of_here.
  - unfold mkdir_parents in Hm. destruct (existsb _ _); [|done].
    injection Hm as _ <-. by eexists.
  - by apply termina_mkdir_parents in Hm.
Qed.

Lemma descargas_mover_contenidos (ruta : Path) (w : mundo) :
  es_dir_en (arbol w) ruta = false →
  ruta ≠ Descargas.FICHERO_LOG →
  match Descargas.mover_y_organizar ruta w with
  | Normal _ w' =>
      contenidos [Descargas.FICHERO_LOG] (arbol w')
      ≡ₚ contenidos [Descargas.FICHERO_LOG] (arbol w)
  | Lanza _ w' =>
      contenidos [Descargas.FICHERO_LOG] (arbol w')
      ≡ₚ contenidos [Descargas.FICHERO_LOG] (arbol w)
      ∨ (ruta ∈ bloqueados w
         ∧ ∃ x, x ∈ contenidos [Descargas.FICHERO_LOG] (arbol w)
              ∧ contenidos [Descargas.FICHERO_LOG] (arbol w')
                ≡ₚ x :: contenidos [Descargas.FICHERO_LOG] (arbol w))
  | Agotado => False
  end.
Proof.
  intros Hdir Hlog. unfold es_dir_en in Hdir.
  destruct (arbol w !! ruta) as [[m|f d]|] eqn:Hn; [done| |].
  2: { by rewrite descargas_mover_ausente. }
  destruct (decide (fecha_valida f)) as [Hv|Hv].
  2: { rewrite (descargas_mover_fecha_lanza _ _ _ Hn Hv). by left. }
  destruct (indice_casos Descargas.MESES_ES (Z.of_nat (month f) - 1) w)
    as [Hi|[mes Hi]].
  { rewrite (descargas_mover_indice_lanza _ _ _ _ Hn Hv Hi). by left. }
  destruct (descargas_mover_desde ruta w f d mes Hn Hv Hi Hlog)
    as [(e & _ & ->) | (w1 & n & Hm & Hfree & _ & ->)]; [by left|].
  set (cd := _ // _ // _ // _ // _) in *. cbv zeta.
  set (w3 := registrar _ _).
  pose proof (contenidos_mkdir [Descargas.FICHERO_LOG] _ _ _ Hm) as Hc1.
  assert (Hc3 : contenidos [Descargas.FICHERO_LOG] (arbol w3)
                ≡ₚ contenidos [Descargas.FICHERO_LOG] (arbol w)).
  { unfold w3. by rewrite registrar_contenidos. }
  assert (Hdl : intento cd ruta n ≠ Descargas.FICHERO_LOG).
  { intros Heq%(f_equal length).
    rewrite length_intento, length_FICHERO_LOG in Heq.
    unfold cd, Descargas.CARPETA_ORDENADA in Heq.
    rewrite !length_barra in Heq. lia. }
  assert (Hn3 : arbol w3 !! ruta = Some (Archivo f d)).
  { unfold w3. rewrite registrar_otros by done. cbn [arbol con_linea].
    by apply (mkdir_conserva _ _ _ Hm); [apply not_elem_of_nil|]. }
  assert (Hfree3 : arbol w3 !! intento cd ruta n = None).
  { unfold w3. rewrite registrar_otros by done. cbn [arbol con_linea].
    destruct (mkdir_parents_casos cd w)
      as [(e & He & _) | (w1' & Hm' & _ & _ & _ & Hl)]; [congruence|].
    assert (w1' = w1) as -> by congruence.
    by rewrite (mkdir_no_toca_intentos _ ruta w w1 n Hl). }
  assert (Ho1 : ruta ∉ [Descargas.FICHERO_LOG])
    by (by intros ?%list_elem_of_singleton).
  assert (Ho2 : intento cd ruta n ∉ [Descargas.FICHERO_LOG])
    by (by intros ?%list_elem_of_singleton).
  case_bool_decide as Hlock.
  - right. split; [done|]. exists (f, d). cbn [arbol con_arbol].
    destruct (contenidos_copiado [Descargas.FICHERO_LOG] ruta _ f d (arbol w3)
                Hn3 Hfree3 Ho1 Ho2) as [Hin Hp].
    split; [by rewrite <- Hc3 | by rewrite Hp, Hc3].
  - cbn [arbol con_arbol]. rewrite <- Hc3. by apply contenidos_mudado.
Qed.

Lemma descargas_cuerpo_contenidos (ruta : Path) (c : nat * nat) (w : mundo) :
  match Descargas.cuerpo ruta c w with
  | Normal c1 w' =>
      c1.2 + c.1 ≤ c1.1 + c.2
      ∧ (contenidos [Descargas.FICHERO_LOG] (arbol w')
         ≡ₚ contenidos [Descargas.FICHERO_LOG] (arbol w)
         ∨ (c1.2 + c.1 < c1.1 + c.2
            ∧ ∃ x, x ∈ contenidos [Descargas.FICHERO_LOG] (arbol w)
                 ∧ contenidos [Descargas.FICHERO_LOG] (arbol w')
                   ≡ₚ x :: contenidos [Descargas.FICHERO_LOG] (arbol w)))
  | Lanza _ _ => False
  | Agotado => False
  end.
Proof.
  destruct (es_dir_en (arbol w) ruta) eqn:Hdir.
  { rewrite descargas_cuerpo_omitido by (by left). split; [lia | by left]. }
  destruct (decide (ruta = Descargas.FICHERO_LOG)) as [Hlog|Hlog].
  { rewrite descargas_cuerpo_omitido by (by right; left).
    split; [lia | by left]. }
  destruct (Descargas.es_temporal ruta) eqn:Ht.
  { rewrite descargas_cuerpo_omitido by (by right; right).
    split; [lia | by left]. }
  pose proof (descargas_mover_contenidos ruta w Hdir Hlog) as Hm.
  unfold Descargas.cuerpo. rewrite bind_eq. unfold is_dir.
  fold (es_dir_en (arbol w) ruta). rewrite Hdir. cbv beta iota.
  rewrite bool_decide_eq_false_2 by done. rewrite Ht.
  rewrite try_except_eq, bind_eq.
  destruct (Descargas.mover_y_organizar ruta w) as [[] w'|e we|]; [| |done].
  - cbv [ret]. cbn [fst snd]. split; [lia | by left].
  - rewrite bind_eq, print_eq. cbv beta iota. rewrite bind_eq.
    destruct (escribir_log_contenidos
                ("ERROR al mover existente " +:+ str_ruta ruta +:+ ": "
                 +:+ str_exc e)
                (con_linea ("[ERROR] No se pudo mover existente "
                            +:+ str_ruta ruta +:+ ": " +:+ str_exc e) we))
      as (w' & -> & Hc').
    cbv beta iota. cbv [ret]. cbn [fst snd]. split; [lia|].
    cbn [arbol con_linea] in Hc'.
    destruct Hm as [Hm | (_ & x & Hx & Hm)].
    + left. by rewrite Hc'.
    + right. split; [lia|]. exists x. split; [done|]. by rewrite Hc'.
Qed.

Lemma descargas_contenidos_para_cada (l : list Path) (c : nat * nat) (w : mundo) :
  match para_cada Descargas.cuerpo l c w with
  | Normal c' w' =>
      contenidos [Descargas.FICHERO_LOG] (arbol w)
      ⊆+ contenidos [Descargas.FICHERO_LOG] (arbol w')
      ∧ (∀ x, x ∈ contenidos [Descargas.FICHERO_LOG] (arbol w') →
              x ∈ contenidos [Descargas.FICHERO_LOG] (arbol w))
      ∧ length (contenidos [Descargas.FICHERO_LOG] (arbol w')) + c'.2 + c.1
        ≤ length (contenidos [Descargas.FICHERO_LOG] (arbol w)) + c'.1 + c.2
  | Lanza _ _ => False
  | Agotado => False
  end.
Proof.
  revert c w. induction l as [|a l IH]; intros c w.
  - cbv [para_cada ret]. split_and!; [done | done | lia].
  - cbn [para_cada]. rewrite bind_eq.
    pose proof (descargas_cuerpo_contenidos a c w) as Ha.
    destruct (Descargas.cuerpo a c w) as [c1 w1|e w1|]; [|done..].
    specialize (IH c1 w1).
    destruct (para_cada Descargas.cuerpo l c1 w1) as [c2 w2|e w2|]; [|done..].
    destruct IH as (Hsub & Hin & Hlen).
    destruct Ha as [Hc [Hp | (Hlt & x & Hx & Hp)]].
    + rewrite Hp in Hsub, Hlen. split_and!; [done| |lia].
      intros y Hy. rewrite <- Hp. by apply Hin.
    + rewrite Hp in Hsub, Hlen. cbn [length] in Hlen. split_and!.
      * etrans; [|exact Hsub]. by apply submseteq_cons.
      * intros y Hy. apply Hin in Hy. rewrite Hp in Hy.
        apply elem_of_cons in Hy as [->|Hy]; done.
      * lia.
Qed.

End nada_se_pierde.

(** X8. The command line loses no file and invents none. After a run of
    [organizar] that completes (real or simulated, recursive or not) the
    regular files of the tree hold the same contents with the same
    modification dates as before, each as many times as before. After a
    run that an exception interrupts they hold that, or that and one more
    copy of one of them: a file that could be copied to its new place but
    not removed from the old one is in both. *)
Theorem organizar_no_pierde_archivos `{Python} (carpeta : Path)
    (recursivo dry_run : bool) (w : mundo) :
  match Typer.organizar carpeta recursivo dry_run w with
  | Normal _ w' => contenidos [] (arbol w') ≡ₚ contenidos [] (arbol w)
  | Lanza _ w' => igual_o_una_copia [] (arbol w) (arbol w')
  | Agotado => False
  end.
Proof.
  apply (organizar_invariante_dos carpeta recursivo dry_run w
           (λ w', contenidos [] (arbol w') ≡ₚ contenidos [] (arbol w))
           (λ w', igual_o_una_copia [] (arbol w) (arbol w'))).
  - by intros w1 w2 ->.
  - intros w' Hw'. by left.
  - done.
  - intros a s w0 _ H0.
    pose proof (typer_cuerpo_contenidos carpeta a dry_run s w0) as Hc.
    destruct (Typer.cuerpo carpeta dry_run a s w0) as [c1 w1|e w1|]; [| |done].
    + by rewrite Hc.
    + destruct Hc as [Hc | (x & Hx & Hc)].
      * left. by rewrite Hc.
      * right. exists x. split; [by rewrite <- H0 | by rewrite Hc, H0].
Qed.

(** X9. The sweep of the watch script loses no file and invents none.
    Every regular file other than the log that was in the tree is in it
    afterwards, with its contents and modification date and at least as
    many times as before; whatever is there afterwards was there before;
    and there are at most as many more as files were found and not moved:
    a file that could be copied to its new place but not removed from the
    old one is in both. When every file found was moved, the regular files
    hold exactly what they held, each as many times as before. *)
Theorem barrido_no_pierde_archivos `{Python} (w : mundo) :
  match Descargas.procesar_archivos_existentes w with
  | Normal c w' =>
      contenidos [Descargas.FICHERO_LOG] (arbol w)
      ⊆+ contenidos [Descargas.FICHERO_LOG] (arbol w')
      ∧ (∀ x, x ∈ contenidos [Descargas.FICHERO_LOG] (arbol w') →
              x ∈ contenidos [Descargas.FICHERO_LOG] (arbol w))
      ∧ length (contenidos [Descargas.FICHERO_LOG] (arbol w')) + c.2
        ≤ length (contenidos [Descargas.FICHERO_LOG] (arbol w)) + c.1
      ∧ (c.2 = c.1 →
         contenidos [Descargas.FICHERO_LOG] (arbol w')
         ≡ₚ contenidos [Descargas.FICHERO_LOG] (arbol w))
  | Lanza _ w' => arbol w' = arbol w
  | Agotado => False
  end.
Proof.
  unfold Descargas.procesar_archivos_existentes.
  rewrite bind_eq, print_eq. cbv beta iota. rewrite bind_eq.
  set (w0 := con_linea _ w). unfold iterdir. cbn [arbol con_linea w0].
  destruct (arbol w !! Descargas.CARPETA_DESCARGAS) as [[m|f d]|];
    [|reflexivity..].
  cbv beta iota. rewrite bind_eq.
  pose proof (descargas_contenidos_para_cada
                (hijos (arbol w) Descargas.CARPETA_DESCARGAS) (0, 0) w0) as Hinv.
  destruct (para_cada _ _ (0, 0) w0) as [c w4|e w4|]; [|done..].
  rewrite bind_eq, print_eq. cbv beta iota. cbv [ret].
  cbn [arbol con_linea w0 fst snd] in *.
  destruct Hinv as (Hsub & Hin & Hlen).
  split_and!; [done | done | lia |].
  intros Heq. symmetry. apply submseteq_length_Permutation; [done|lia].
Qed.

(** ** Nothing outside the folder is touched *)

Lemma intacto_refl (carpeta : Path) (w : mundo) : intacto_fuera carpeta w w.
Proof. intros q _. by left. Qed.

Lemma intacto_arbol (carpeta : Path) (w w1 w2 : mundo) :
  arbol w1 = arbol w2 → intacto_fuera carpeta w w1 → intacto_fuera carpeta w w2.
Proof. intros Heq H1 q Hq. rewrite <- Heq. by apply H1. Qed.

Lemma intacto_trans (carpeta : Path) (w w1 w2 : mundo) :
  intacto_fuera carpeta w w1 → intacto_fuera carpeta w1 w2 →
  intacto_fuera carpeta w w2.
Proof.
  intros H1 H2 q Hq.
  destruct (H2 q Hq) as [Heq|(Hn & Hp & f & Hf)].
  - rewrite Heq. by apply H1.
  - destruct (H1 q Hq) as [Heq|(Hn' & _ & f' & Hf')]; [|congruence].
    right. split_and!; [congruence | done | by exists f].
Qed.

Lemma intacto_mkdir `{Python} (carpeta p : Path) (w w1 : mundo) :
  carpeta `prefix_of` p →
  mkdir_parents p w = Normal tt w1 →
  intacto_fuera carpeta w w1.
Proof.
  intros Hcp Hm q Hq.
  destruct (mkdir_parents_casos p w)
    as [(e & He & _) | (w1' & Hm' & _ & _ & _ & Hl)]; [congruence|].
  assert (w1' = w1) as -> by congruence.
  rewrite Hl. destruct (arbol w !! q) eqn:Hwq; [by left|].
  case_decide as Hin; [|by left]. right.
  apply prefijos_spec in Hin as [_ Hqp].
  split_and!; [done | | by eexists].
  by destruct (prefix_weak_total _ _ _ Hqp Hcp).
Qed.

Lemma intacto_mudado (carpeta src dst : Path) (n : nodo) (w w' : mundo) :
  carpeta `prefix_of` src →
  carpeta `prefix_of` dst →
  arbol w' = mudado src dst n (arbol w) →
  intacto_fuera carpeta w w'.
Proof.
  intros Hs Hd Heq q Hq. left. rewrite Heq. unfold mudado.
  rewrite lookup_insert_ne by (by intros ->).
  by rewrite lookup_delete_ne by (by intros ->).
Qed.

Lemma intacto_copiado (carpeta dst : Path) (n : nodo) (w w' : mundo) :
  carpeta `prefix_of` dst →
  arbol w' = <[dst := n]> (arbol w) →
  intacto_fuera carpeta w w'.
Proof.
  intros Hd Heq q Hq. left. rewrite Heq.
  by rewrite lookup_insert_ne by (by intros ->).
Qed.

Lemma listado_dentro (recursivo : bool) (m : gmap Path nodo) (carpeta a : Path) :
  a ∈ listado recursivo m carpeta → carpeta `prefix_of` a.
Proof.
  destruct recursivo; cbn [listado].
  - unfold descendientes. by intros [[? _] _]%list_elem_of_filter.
  - intros [[Ha Hp] _]%hijos_spec.
    destruct (exists_last Ha) as (b & x & ->).
    unfold parent in Hp. rewrite removelast_last in Hp. subst b.
    by apply prefix_app_r.
Qed.

Lemma intento_dentro (carpeta cd a : Path) (n : nat) :
  carpeta `prefix_of` cd → carpeta `prefix_of` intento cd a n.
Proof.
  intros Hc. destruct (intento_barra cd a n) as [x ->].
  unfold barra. by apply prefix_app_r.
Qed.

Section marco.
Context `{Python}.

Lemma typer_cuerpo_intacto (carpeta a : Path) (dry_run : bool)
    (c : nat * nat) (w : mundo) :
  carpeta `prefix_of` a →
  match Typer.cuerpo carpeta dry_run a c w with
  | Normal _ w' | Lanza _ w' => intacto_fuera carpeta w w'
  | Agotado => False
  end.
Proof.
  intros Ha. destruct (trasladable_typer w a) eqn:Ht.
  2: { rewrite typer_cuerpo_no_elegible; [apply intacto_refl|].
       intros Hel%trasladable_typer_spec. congruence. }
  apply trasladable_typer_spec in Ht as (f & d & Hn & Ht).
  destruct (destino_para_archivo_casos a carpeta w)
    as [(e & He) | (x1 & x2 & x3 & x4 & Hd)].
  { rewrite (typer_cuerpo_destino_lanza _ _ _ _ _ e);
      [apply intacto_refl | by exists f, d | done]. }
  assert (Hcd : carpeta `prefix_of` carpeta // x1 // x2 // x3 // x4).
  { unfold barra. rewrite <- !app_assoc. by apply prefix_app_r. }
  destruct (typer_cuerpo_desde carpeta a _ dry_run c w f d Hn Ht Hd)
    as [(e & _ & ->) | (w1 & n & Hm & Hfree & _ & ->)]; [apply intacto_refl|].
  pose proof (intacto_mkdir carpeta _ w w1 Hcd Hm) as H1.
  cbv zeta. destruct dry_run; [by apply (intacto_arbol _ _ w1)|].
  case_bool_decide.
  { eapply intacto_trans; [exact H1|].
    eapply intacto_copiado; [|reflexivity]. by apply intento_dentro. }
  eapply intacto_trans; [exact H1|].
  eapply (intacto_mudado carpeta a); [exact Ha | | reflexivity].
  by apply intento_dentro.
Qed.

Lemma registrar_intacto (linea : string) (w : mundo) :
  intacto_fuera Descargas.CARPETA_DESCARGAS w (registrar linea w).
Proof.
  intros q Hq. left. apply registrar_otros. intros ->. apply Hq.
  unfold Descargas.FICHERO_LOG, barra. by apply prefix_app_r.
Qed.

Lemma escribir_log_intacto (mensaje : string) (w : mundo) :
  ∃ w', Descargas.escribir_log mensaje w = Normal tt w'
      ∧ intacto_fuera Descargas.CARPETA_DESCARGAS w w'.
Proof.
  assert (Hlog : Descargas.CARPETA_DESCARGAS `prefix_of` Descargas.FICHERO_LOG).
  { unfold Descargas.FICHERO_LOG, barra. by apply prefix_app_r. }
  assert (Hins : ∀ (w1 : mundo) (x : nodo),
            intacto_fuera Descargas.CARPETA_DESCARGAS w1
              (con_arbol (<[Descargas.FICHERO_LOG := x]> (arbol w1)) w1)).
  { intros w1 x q Hq. left. cbn [arbol con_arbol].
    apply lookup_insert_ne. by intros <-. }
  unfold Descargas.escribir_log. rewrite try_except_eq, bind_eq.
  destruct (mkdir_parents (parent Descargas.FICHERO_LOG) w)
    as [[] w1|e w1|] eqn:Hm.
  - assert (H1 : intacto_fuera Descargas.CARPETA_DESCARGAS w w1).
    { eapply intacto_mkdir; [|exact Hm].
      unfold Descargas.FICHERO_LOG. by rewrite parent_barra. }
    unfold anadir. cbv zeta. case_bool_decide; [by eexists|].
    destruct (arbol w1 !! Descargas.FICHERO_LOG) as [[m|f d]|].
    + by eexists.
    + eexists. split; [reflexivity|]. eapply intacto_trans; [exact H1|].
      apply Hins.
    + destruct (es_dir_en _ _); [|by eexists].
      eexists. split; [reflexivity|]. eapply intacto_trans; [exact H1|].
      apply Hins.
  - unfold mkdir_parents in Hm. destruct (existsb _ _); [|done].
    injection Hm as _ <-. eexists. split; [reflexivity|]. apply intacto_refl.
  - by apply termina_mkdir_parents in Hm.
Qed.

Lemma descargas_mover_intacto (ruta : Path) (w : mundo) :
  Descargas.CARPETA_DESCARGAS `prefix_of` ruta →
  es_dir_en (arbol w) ruta = false →
  ruta ≠ Descargas.FICHERO_LOG →
  match Descargas.mover_y_organizar ruta w with
  | Normal _ w' | Lanza _ w' => intacto_fuera Descargas.CARPETA_DESCARGAS w w'
  | Agotado => False
  end.
Proof.
  intros Hr Hdir Hlog. unfold es_dir_en in Hdir.
  destruct (arbol w !! ruta) as [[m|f d]|] eqn:Hn; [done| |].
  2: { rewrite descargas_mover_ausente by done. apply intacto_refl. }
  destruct (decide (fecha_valida f)) as [Hv|Hv].
  2: { rewrite (descargas_mover_fecha_lanza _ _ _ Hn Hv). apply intacto_refl. }
  destruct (indice_casos Descargas.MESES_ES (Z.of_nat (month f) - 1) w)
    as [Hi|[mes Hi]].
  { rewrite (descargas_mover_indice_lanza _ _ _ _ Hn Hv Hi). apply intacto_refl. }
  destruct (descargas_mover_desde ruta w f d mes Hn Hv Hi Hlog)
    as [(e & _ & ->) | (w1 & n & Hm & Hfree & _ & ->)]; [apply intacto_refl|].
  set (cd := _ // _ // _ // _ // _) in *. cbv zeta.
  set (w3 := registrar _ _).
  assert (Hcd : Descargas.CARPETA_DESCARGAS `prefix_of` cd).
  { unfold cd, Descargas.CARPETA_ORDENADA, barra. rewrite <- !app_assoc.
    by apply prefix_app_r. }
  assert (H3 : intacto_fuera Descargas.CARPETA_DESCARGAS w w3).
  { eapply intacto_trans; [by eapply intacto_mkdir|].
    eapply intacto_trans; [|apply registrar_intacto].
    by apply (intacto_arbol _ _ w1); [|apply intacto_refl]. }
  case_bool_decide.
  { eapply intacto_trans; [exact H3|].
    eapply intacto_copiado; [|reflexivity]. by apply intento_dentro. }
  eapply intacto_trans; [exact H3|].
  eapply (intacto_mudado _ ruta); [exact Hr | | reflexivity].
  by apply intento_dentro.
Qed.

Lemma descargas_cuerpo_intacto (ruta : Path) (c : nat * nat) (w : mundo) :
  Descargas.CARPETA_DESCARGAS `prefix_of` ruta →
  match Descargas.cuerpo ruta c w with
  | Normal _ w' | Lanza _ w' => intacto_fuera Descargas.CARPETA_DESCARGAS w w'
  | Agotado => False
  end.
Proof.
  intros Hr. destruct (es_dir_en (arbol w) ruta) eqn:Hdir.
  { rewrite descargas_cuerpo_omitido by (by left). apply intacto_refl. }
  destruct (decide (ruta = Descargas.FICHERO_LOG)) as [Hlog|Hlog].
  { rewrite descargas_cuerpo_omitido by (by right; left). apply intacto_refl. }
  destruct (Descargas.es_temporal ruta) eqn:Ht.
  { rewrite descargas_cuerpo_omitido by (by right; right). apply intacto_refl. }
  pose proof (descargas_mover_intacto ruta w Hr Hdir Hlog) as Hm.
  unfold Descargas.cuerpo. rewrite bind_eq. unfold is_dir.
  fold (es_dir_en (arbol w) ruta). rewrite Hdir. cbv beta iota.
  rewrite bool_decide_eq_false_2 by done. rewrite Ht.
  rewrite try_except_eq, bind_eq.
  destruct (Descargas.mover_y_organizar ruta w) as [[] w'|e we|]; [| |done].
  - exact Hm.
  - rewrite bind_eq, print_eq. cbv beta iota. rewrite bind_eq.
    destruct (escribir_log_intacto
                ("ERROR al mover existente " +:+ str_ruta ruta +:+ ": "
                 +:+ str_exc e)
                (con_linea ("[ERROR] No se pudo mover existente "
                            +:+ str_ruta ruta +:+ ": " +:+ str_exc e) we))
      as (w' & -> & Hc').
    cbv beta iota. cbv [ret].
    eapply intacto_trans; [exact Hm|]. exact Hc'.
Qed.

End marco.

(** X10. Neither sweep reaches outside the folder it organises. However a
    run of [organizar] over [carpeta] ends, every path that is not
    [carpeta] or below it holds afterwards what it held before; the one
    exception is a missing ancestor of [carpeta], which may have been
    created as a directory. The same holds for the sweep of the watch
    script and the downloads folder. *)
Theorem barridos_no_salen_de_la_carpeta `{Python} :
  (∀ (carpeta : Path) (recursivo dry_run : bool) (w : mundo),
     match Typer.organizar carpeta recursivo dry_run w with
     | Normal _ w' | Lanza _ w' =>
         ∀ q, ¬ carpeta `prefix_of` q →
           arbol w' !! q = arbol w !! q
           ∨ (arbol w !! q = None ∧ q `prefix_of` carpeta
              ∧ ∃ f, arbol w' !! q = Some (Directorio f))
     | Agotado => False
     end)
  ∧ (∀ w : mundo,
       match Descargas.procesar_archivos_existentes w with
       | Normal _ w' | Lanza _ w' =>
           ∀ q, ¬ Descargas.CARPETA_DESCARGAS `prefix_of` q →
             arbol w' !! q = arbol w !! q
             ∨ (arbol w !! q = None ∧ q `prefix_of` Descargas.CARPETA_DESCARGAS
                ∧ ∃ f, arbol w' !! q = Some (Directorio f))
       | Agotado => False
       end).
Proof.
  split.
  - intros carpeta recursivo dry_run w.
    apply (organizar_invariante carpeta recursivo dry_run w
             (intacto_fuera carpeta w)).
    + intros w1 w2. apply intacto_arbol.
    + apply intacto_refl.
    + intros a s w0 Ha%listado_dentro H0.
      pose proof (typer_cuerpo_intacto carpeta a dry_run s w0 Ha) as Hc.
      destruct (Typer.cuerpo carpeta dry_run a s w0); [| |done];
        by eapply intacto_trans.
  - intros w.
    apply (procesar_invariante w (intacto_fuera Descargas.CARPETA_DESCARGAS w)).
    + intros w1 w2. apply intacto_arbol.
    + apply intacto_refl.
    + intros a s w0 Ha%(listado_dentro false) H0.
      pose proof (descargas_cuerpo_intacto a s w0 Ha) as Hc.
      destruct (Descargas.cuerpo a s w0); [| |done];
        by eapply intacto_trans.
Qed.

(** ** The folder after a completed sweep *)

(** X11. After a run of [organizar] without the recursive flag that
    completed, no regular file other than partial downloads is left
    directly in the folder; after a sweep of the watch script that
    completed having moved every file it found, no regular file other than
    the log and partial downloads is left directly in the downloads
    folder. *)
Theorem barrido_completo_deja_limpio `{Python} :
  (∀ (carpeta : Path) (w w1 : mundo) (c : nat * nat),
     Typer.organizar carpeta false false w = Normal c w1 →
     ∀ q, q ∈ hijos (arbol w1) carpeta → trasladable_typer w1 q = false)
  ∧ (∀ (w w1 : mundo) (c : nat * nat),
       Descargas.procesar_archivos_existentes w = Normal c w1 →
       c.1 = c.2 →
       ∀ q, q ∈ hijos (arbol w1) Descargas.CARPETA_DESCARGAS →
            trasladable_descargas w1 q = false).
Proof.
  split.
  - intros carpeta w w1 c
      (w0 & w4 & m & Hw0 & Hc & Hrun & Hw1)%organizar_normal_inv q Hq.
    rewrite <- Hw0 in Hrun, Hc.
    destruct (typer_barrido_limpia carpeta _ _ _ _ _ _ Hc
                (λ a Ha, proj1 (proj1 (hijos_spec _ _ _) Ha))
                (λ q Hq _, Hq) Hrun) as [_ Hlimpio].
    apply not_true_is_false. intros Hel%trasladable_typer_spec.
    apply (Hlimpio q); [by rewrite <- Hw1|].
    by apply (elegible_typer_arbol w1).
  - intros w w1 c
      (w0 & w4 & m & Hw0 & Hc & Hrun & Hw1)%procesar_normal_inv Hcc q Hq.
    rewrite <- Hw0 in Hrun, Hc.
    destruct (descargas_barrido_limpia _ _ _ _ _ Hc
                (λ a Ha, proj1 (proj1 (hijos_spec _ _ _) Ha))
                (λ q Hq _, Hq) Hrun) as (_ & _ & Hlimpio).
    apply not_true_is_false. intros Hel%trasladable_descargas_spec.
    apply (Hlimpio Hcc q); [by rewrite <- Hw1|].
    by apply (elegible_descargas_arbol w1).
Qed.

(** X11 for the run of the command line over [mundo_uno]: the folder
    "documentos" is what is left directly in the downloads folder. *)
Lemma barrido_completo_deja_limpio_witness :
  let w1 := mundo_final mundo_uno
              (@Typer.organizar python_ascii descargas false false mundo_uno) in
  @trasladable_typer python_ascii w1 (descargas // "documentos") = false.
Proof.
  intros w1.
  apply (proj1 (@barrido_completo_deja_limpio python_ascii)
           descargas mundo_uno w1 (1, 1)).
  - apply normal_final. vm_compute. reflexivity.
  - apply (bool_decide_unpack _). vm_compute. exact I.
Defined.

(** ** The entry point of the watch script *)

(** X12. [main] of the watch script tests only that the downloads path
    exists. When it does not, one line is printed and nothing else
    happens: no sweep, no watching. When the path is a directory, the
    initial sweep completes and the watching starts. When the path is a
    regular file the test passes all the same, and the sweep then raises
    NotADirectoryError out of [main] before the watching starts. *)
Theorem main_segun_la_carpeta `{Python} (vigilar : M unit) (w : mundo) :
  match arbol w !! Descargas.CARPETA_DESCARGAS with
  | None =>
      Descargas.main vigilar w
      = Normal tt (con_linea ("La carpeta de descargas no existe: "
                              +:+ str_ruta Descargas.CARPETA_DESCARGAS) w)
  | Some (Directorio _) =>
      ∃ c w', Descargas.main vigilar w = vigilar w'
            ∧ bloqueados w' = bloqueados w
            ∧ ∃ w0, arbol w0 = arbol w
                  ∧ Descargas.procesar_archivos_existentes w0 = Normal c w'
  | Some (Archivo _ _) =>
      ∃ w', Descargas.main vigilar w
            = Lanza (NotADirectoryError Descargas.CARPETA_DESCARGAS) w'
          ∧ arbol w' = arbol w
  end.
Proof.
  unfold Descargas.main. rewrite bind_eq. unfold exists_.
  destruct (arbol w !! Descargas.CARPETA_DESCARGAS) as [n|] eqn:Hc.
  2: { rewrite bool_decide_eq_false_2 by (by intros [? ?]). reflexivity. }
  rewrite bool_decide_eq_true_2 by done. cbn [negb]. cbv beta iota.
  rewrite bind_eq, print_eq. cbv beta iota.
  rewrite bind_eq, print_eq. cbv beta iota.
  rewrite bind_eq, print_eq. cbv beta iota.
  set (w0 := con_linea _ (con_linea _ (con_linea _ w))).
  assert (Hw0 : arbol w0 = arbol w) by reflexivity.
  rewrite bind_eq.
  pose proof (barrido_casos w0) as Hb. cbv zeta in Hb.
  rewrite Hw0, Hc in Hb. destruct n as [m|f d].
  - destruct Hb as (c & w' & Hrun & Hbl). rewrite Hrun.
    exists c, w'. split_and!; [done | done |]. by exists w0.
  - rewrite Hb. by eexists.
Qed.

(** ** Names with and without extension *)

Lemma rfind_app_r (c : ascii) (a b : string) (i : nat) :
  rfind c b = Some i → rfind c (a +:+ b) = Some (String.length a + i).
Proof.
  intros Hb. induction a as [|x a IH]; [exact Hb|].
  rewrite app_String. cbn [rfind String.length]. by rewrite IH.
Qed.

Lemma rfind_menor (c : ascii) (s : string) (i : nat) :
  rfind c s = Some i → i < String.length s.
Proof.
  revert i. induction s as [|x s IH]; intros i; [done|].
  cbn [rfind String.length]. destruct (rfind c s) as [j|].
  - intros [= <-]. specialize (IH j eq_refl). lia.
  - destruct (Ascii.eqb x c); [|done]. intros [= <-]. lia.
Qed.

Lemma rfind_desde (c : ascii) (s : string) (i : nat) :
  rfind c s = Some i → rfind c (desde i s) = Some 0.
Proof.
  revert i. induction s as [|x s IH]; intros i; [done|].
  cbn [rfind]. destruct (rfind c s) as [j|] eqn:Hj.
  - intros [= <-]. cbn [desde]. by apply IH.
  - destruct (Ascii.eqb x c) eqn:Hx; [|done]. intros [= <-].
    cbn [desde rfind]. by rewrite Hj, Hx.
Qed.

Lemma length_desde (i : nat) (s : string) :
  String.length (desde i s) = String.length s - i.
Proof.
  revert s. induction i as [|i IH]; intros [|x s]; cbn [desde String.length];
    try lia. by rewrite IH.
Qed.

Lemma desde_app (a b : string) : desde (String.length a) (a +:+ b) = b.
Proof.
  induction a as [|x a IH]; [by destruct b|].
  rewrite app_String. cbn [String.length desde]. exact IH.
Qed.

Lemma hasta_app (a b : string) : hasta (String.length a) (a +:+ b) = a.
Proof.
  induction a as [|x a IH]; [by destruct b|].
  rewrite app_String. cbn [String.length hasta]. by rewrite IH.
Qed.

(** A name that ends in a text with its only dot in front, and at least one
    character behind the dot, has that text as its suffix, provided
    something precedes it. *)
Lemma suffix_app (a b : string) :
  a ≠ "" → rfind "." b = Some 0 → 2 ≤ String.length b →
  suffix (a +:+ b) = b ∧ stem (a +:+ b) = a.
Proof.
  intros Ha Hb Hlen. unfold suffix, stem.
  rewrite (rfind_app_r _ a b 0 Hb), Nat.add_0_r.
  assert (Hv : punto_valido (a +:+ b) (String.length a) = true).
  { unfold punto_valido. rewrite length_app_str.
    apply andb_true_iff. split.
    - apply Nat.ltb_lt. destruct a; [done|]. cbn [String.length]. lia.
    - apply Nat.ltb_lt. lia. }
  rewrite Hv. split; [apply desde_app | apply hasta_app].
Qed.

(** A suffix that is not empty starts at the last dot of the name and has
    something behind the dot. *)
Lemma suffix_forma (n : string) :
  suffix n ≠ "" → rfind "." (suffix n) = Some 0 ∧ 2 ≤ String.length (suffix n).
Proof.
  unfold suffix. destruct (rfind "." n) as [i|] eqn:Hi; [|done].
  destruct (punto_valido n i) eqn:Hv; [|done]. intros _.
  split; [by apply rfind_desde|].
  rewrite length_desde. unfold punto_valido in Hv.
  apply andb_true_iff in Hv as [_ Hv%Nat.ltb_lt]. lia.
Qed.

Lemma app_no_vacia (a b : string) : b ≠ "" → a +:+ b ≠ "".
Proof. intros Hb. destruct a; [done|]. by rewrite app_String. Qed.

(** X13. A file renamed by the collision loop keeps its extension. For a
    name with a suffix, the candidate name stem, "_", counter, suffix has
    that same suffix and the stem followed by "_" and the counter as its
    stem; so both classifiers put the renamed file in the category of the
    original and it is a partial download exactly when the original
    was. *)
Theorem candidato_conserva_extension `{Python} (carpeta_destino archivo : Path)
    (contador : nat) :
  suffix (name archivo) ≠ "" →
  let renombrado := candidato carpeta_destino archivo contador in
  suffix (name renombrado) = suffix (name archivo)
  ∧ stem (name renombrado) = stem (name archivo) +:+ "_" +:+ pretty contador
  ∧ Typer.categoria_para_extension (str_lower (suffix (name renombrado)))
    = Typer.categoria_para_extension (str_lower (suffix (name archivo)))
  ∧ Descargas.categoria_para_extension (str_lower (suffix (name renombrado)))
    = Descargas.categoria_para_extension (str_lower (suffix (name archivo)))
  ∧ Typer.es_temporal renombrado = Typer.es_temporal archivo
  ∧ Descargas.es_temporal renombrado = Descargas.es_temporal archivo.
Proof.
  intros Hs renombrado.
  destruct (suffix_forma _ Hs) as [Hr Hl].
  assert (Hn : name renombrado
               = (stem (name archivo) +:+ "_" +:+ pretty contador)
                 +:+ suffix (name archivo)).
  { unfold renombrado, candidato. rewrite name_barra.
    by rewrite !app_assoc_str. }
  assert (Hp : stem (name archivo) +:+ "_" +:+ pretty contador ≠ "").
  { apply app_no_vacia. by rewrite app_String. }
  destruct (suffix_app _ _ Hp Hr Hl) as [Hsuf Hstem].
  rewrite <- Hn in Hsuf, Hstem.
  unfold Typer.es_temporal, Descargas.es_temporal.
  rewrite Hsuf. by split_and!.
Qed.

(** X13 for "report.pdf" and the counter 1. *)
Lemma candidato_conserva_extension_witness :
  suffix (name (candidato descargas (descargas // "report.pdf") 1)) = ".pdf".
Proof.
  apply (@candidato_conserva_extension python_ascii descargas
           (descargas // "report.pdf") 1).
  vm_compute. discriminate.
Defined.

(** ** The output path of the QR command *)

(** X14. [_ensure_png_extension] returns a path that has a suffix, and
    returns it again when applied to its own result. A path with a suffix
    comes back as it is; a path with a name but no suffix gets ".png"
    appended to its name, in the same folder; a path with an empty name is
    refused with ValueError. *)
Theorem ensure_png_extension_casos (path : Path) :
  (suffix (name path) ≠ "" → QRStudio._ensure_png_extension path = inr path)
  ∧ (name path = "" →
     QRStudio._ensure_png_extension path = inl (QRStudio.ValueError path))
  ∧ (name path ≠ "" → suffix (name path) = "" →
     QRStudio._ensure_png_extension path
     = inr (parent path // (name path +:+ ".png"))
     ∧ suffix (name path +:+ ".png") = ".png"
     ∧ stem (name path +:+ ".png") = name path)
  ∧ (∀ q, QRStudio._ensure_png_extension path = inr q →
       suffix (name q) ≠ "" ∧ QRStudio._ensure_png_extension q = inr q).
Proof.
  assert (H1 : ∀ p, suffix (name p) ≠ "" →
                 QRStudio._ensure_png_extension p = inr p).
  { intros p Hp. unfold QRStudio._ensure_png_extension.
    by rewrite bool_decide_eq_true_2. }
  assert (H3 : name path ≠ "" → suffix (name path) = "" →
               QRStudio._ensure_png_extension path
               = inr (parent path // (name path +:+ ".png"))
               ∧ suffix (name path +:+ ".png") = ".png"
               ∧ stem (name path +:+ ".png") = name path).
  { intros Hn Hs. unfold QRStudio._ensure_png_extension, QRStudio.with_suffix.
    rewrite bool_decide_eq_false_2 by (by intros ?).
    rewrite bool_decide_eq_false_2 by done.
    assert (Hst : stem (name path) = name path).
    { pose proof (stem_suffix (name path)) as Hss.
      rewrite Hs, app_vacia_r in Hss. exact Hss. }
    rewrite Hst. split; [done|].
    apply suffix_app; [done | reflexivity | cbn; lia]. }
  split_and!.
  - apply H1.
  - intros Hn. unfold QRStudio._ensure_png_extension, QRStudio.with_suffix.
    assert (Hs : suffix (name path) = "") by (by rewrite Hn).
    rewrite bool_decide_eq_false_2 by (by intros ?).
    by rewrite bool_decide_eq_true_2.
  - exact H3.
  - intros q Hq.
    assert (Hsq : suffix (name q) ≠ "").
    { destruct (decide (suffix (name path) = "")) as [Hs|Hs].
      - destruct (decide (name path = "")) as [Hn|Hn].
        + unfold QRStudio._ensure_png_extension, QRStudio.with_suffix in Hq.
          rewrite bool_decide_eq_false_2 in Hq by (by intros ?).
          by rewrite bool_decide_eq_true_2 in Hq.
        + destruct (H3 Hn Hs) as (Heq & Hsuf & _).
          rewrite Heq in Hq. injection Hq as <-.
          rewrite name_barra, Hsuf. done.
      - rewrite (H1 path Hs) in Hq. by injection Hq as <-. }
    split; [exact Hsq | by apply H1].
Qed.

(** X14 for the output names "qr_custom" and "qr_output.png". *)
Lemma ensure_png_extension_casos_witness :
  QRStudio._ensure_png_extension ["qr_custom"] = inr ([] // "qr_custom.png")
  ∧ QRStudio._ensure_png_extension ["qr_output.png"] = inr ["qr_output.png"].
Proof.
  destruct (ensure_png_extension_casos ["qr_custom"]) as (_ & _ & H3 & _).
  destruct (ensure_png_extension_casos ["qr_output.png"]) as (H1 & _).
  split.
  - apply H3; [vm_compute; discriminate | vm_compute; reflexivity].
  - apply H1. vm_compute. discriminate.
Defined.

(** ** The colours of a QR *)

Lemma python_or_no_vacio (x : option string) (y : string) :
  y ≠ "" → QRStudio.python_or x y ≠ "".
Proof.
  intros Hy. unfold QRStudio.python_or. destruct x as [s|]; [|done].
  by case_bool_decide.
Qed.

Lemma TEMPLATES_no_vacios (template : string) (colors : QRStudio.colores) :
  QRStudio.TEMPLATES !! template = Some colors →
  QRStudio.dark colors ≠ "" ∧ QRStudio.light colors ≠ "".
Proof.
  revert template colors.
  change (map_Forall (λ _ c, QRStudio.dark c ≠ "" ∧ QRStudio.light c ≠ "")
            QRStudio.TEMPLATES).
  apply (bool_decide_unpack _). vm_compute. exact I.
Qed.

(** X15. [_resolve_colors] never returns an empty colour. A colour given
    by the caller and not empty is returned as it is, whatever the
    template; an empty text counts as no colour given; the two colours are
    resolved independently of each other; and a template that is not in
    the table gives what "mono" gives. *)
Theorem resolve_colors_casos (template : string) (dark light : option string) :
  let r := QRStudio._resolve_colors template dark light in
  (r.1 ≠ "" ∧ r.2 ≠ "")
  ∧ (∀ d, dark = Some d → d ≠ "" → r.1 = d)
  ∧ (∀ l, light = Some l → l ≠ "" → r.2 = l)
  ∧ QRStudio._resolve_colors template (Some "") light
    = QRStudio._resolve_colors template None light
  ∧ QRStudio._resolve_colors template dark (Some "")
    = QRStudio._resolve_colors template dark None
  ∧ (∀ otro, (QRStudio._resolve_colors template dark otro).1 = r.1)
  ∧ (∀ otro, (QRStudio._resolve_colors template otro light).2 = r.2)
  ∧ (QRStudio.TEMPLATES !! template = None →
     r = QRStudio._resolve_colors "mono" dark light).
Proof.
  intros r. unfold r, QRStudio._resolve_colors.
  assert (Hmono : QRStudio.TEMPLATES !! "mono"
                  = Some (QRStudio.Colores "#111111" "#ffffff"))
    by (vm_compute; reflexivity).
  rewrite Hmono.
  destruct (QRStudio.TEMPLATES !! template) as [colors|] eqn:Ht;
    cbn [fst snd].
  - destruct (TEMPLATES_no_vacios _ _ Ht) as [Hd Hl].
    split_and!;
      try (by apply python_or_no_vacio);
      try (intros ? -> ?; unfold QRStudio.python_or;
           by rewrite bool_decide_eq_false_2);
      done.
  - split_and!;
      try (by apply python_or_no_vacio);
      try (intros ? -> ?; unfold QRStudio.python_or;
           by rewrite bool_decide_eq_false_2);
      done.
Qed.

(** X15 for a template that does not exist and a dark colour given. *)
Lemma resolve_colors_casos_witness :
  (QRStudio._resolve_colors "neon" (Some "#0b0b0b") None).1 = "#0b0b0b"
  ∧ QRStudio._resolve_colors "neon" (Some "#0b0b0b") None
    = QRStudio._resolve_colors "mono" (Some "#0b0b0b") None.
Proof.
  destruct (resolve_colors_casos "neon" (Some "#0b0b0b") None)
    as (_ & Hd & _ & _ & _ & _ & _ & Hm).
  split.
  - apply Hd; [reflexivity | discriminate].
  - apply Hm. vm_compute. reflexivity.
Defined.

(** ** The menu *)

Section menu.
Context `{QRStudio.Entrada}.

Lemma menu_teclas_rango (n : Z) (teclas : list ascii) :
  (0 < n)%Z →
  ∀ selected i,
    (0 ≤ selected < n)%Z →
    QRStudio.menu_teclas n selected teclas = QRStudio.Elegida i →
    (0 ≤ i < n)%Z.
Proof.
  intros Hn. induction teclas as [teclas IH] using (induction_ltof1 _ length).
  unfold ltof in IH. intros selected i Hs.
  destruct teclas as [|ch resto]; [done|]. cbn [QRStudio.menu_teclas].
  case_bool_decide.
  - destruct resto as [|arrow resto']; [done|].
    rewrite (bool_decide_eq_false_2 (n = 0%Z)) by lia.
    repeat case_bool_decide.
    + apply IH; [cbn [length]; lia|]. by apply Z.mod_pos_bound.
    + apply IH; [cbn [length]; lia|]. by apply Z.mod_pos_bound.
    + apply IH; [cbn [length]; lia | done].
  - case_bool_decide.
    + intros [= <-]. done.
    + apply IH; [cbn [length]; lia | done].
Qed.

Lemma menu_consola_rango (n : Z) (lineas : list string) (i : Z) :
  (0 < n)%Z →
  QRStudio.menu_consola n lineas = QRStudio.Elegida i → (0 ≤ i < n)%Z.
Proof.
  intros Hn. induction lineas as [|linea resto IH]; [done|].
  cbn [QRStudio.menu_consola]. cbv zeta.
  destruct (QRStudio.str_isdigit _); [|exact IH].
  destruct (QRStudio.int_ _) as [v|]; [|done]. intros [= <-]. lia.
Qed.

Lemma menu_teclas_abajo (n : Z) (k : nat) (selected : Z) (resto : list ascii) :
  (0 < n)%Z →
  QRStudio.menu_teclas n selected (veces k tecla_abajo ++ resto)
  = QRStudio.menu_teclas n
      match k with
      | O => selected
      | S _ => ((selected + Z.of_nat k) `mod` n)%Z
      end resto.
Proof.
  intros Hn. revert selected. induction k as [|k IH]; intros selected; [done|].
  cbn [veces tecla_abajo app QRStudio.menu_teclas].
  rewrite (bool_decide_eq_true_2 (_ ∨ _)) by (by right).
  rewrite (bool_decide_eq_false_2 ("P"%char = "H"%char)) by done.
  rewrite (bool_decide_eq_true_2 ("P"%char = "P"%char)) by done.
  rewrite (bool_decide_eq_false_2 (n = 0%Z)) by lia.
  change (["224"%char; "P"%char]) with tecla_abajo. rewrite IH.
  destruct k as [|k]; [by rewrite Z.add_1_r|]. f_equal.
  rewrite Zplus_mod_idemp_l. f_equal. lia.
Qed.

Lemma menu_teclas_arriba (n : Z) (k : nat) (selected : Z) (resto : list ascii) :
  (0 < n)%Z →
  QRStudio.menu_teclas n selected (veces k tecla_arriba ++ resto)
  = QRStudio.menu_teclas n
      match k with
      | O => selected
      | S _ => ((selected - Z.of_nat k) `mod` n)%Z
      end resto.
Proof.
  intros Hn. revert selected. induction k as [|k IH]; intros selected; [done|].
  cbn [veces tecla_arriba app QRStudio.menu_teclas].
  rewrite (bool_decide_eq_true_2 (_ ∨ _)) by (by right).
  rewrite (bool_decide_eq_true_2 ("H"%char = "H"%char)) by done.
  rewrite (bool_decide_eq_false_2 (n = 0%Z)) by lia.
  change (["224"%char; "H"%char]) with tecla_arriba. rewrite IH.
  destruct k as [|k]; [by rewrite Z.sub_1_r|]. f_equal.
  rewrite Zminus_mod_idemp_l. f_equal. lia.
Qed.

End menu.

(** X16. [_select_from_menu] over a list of options that is not empty
    returns only indices of that list, with the keyboard of [msvcrt] and
    without it, whatever is typed: the callers' [options[selected]] never
    fails. Without [msvcrt], a number typed beyond the list gives the last
    option and zero gives the first. *)
Theorem menu_indice_valido `{QRStudio.Entrada} (title : string)
    (options : list string) (msvcrt : option (list ascii))
    (stdin : list string) (i : Z) :
  options ≠ [] →
  QRStudio._select_from_menu title options msvcrt stdin = QRStudio.Elegida i →
  (0 ≤ i < Z.of_nat (length options))%Z
  ∧ is_Some (options !! Z.to_nat i)
  ∧ (∀ linea resto v,
       msvcrt = None → stdin = linea :: resto →
       QRStudio.str_isdigit (QRStudio.str_strip linea) = true →
       QRStudio.int_ (QRStudio.str_strip linea) = Some v →
       (v ≤ 1 → i = 0)%Z
       ∧ (1 ≤ v ≤ Z.of_nat (length options) → i = v - 1)%Z
       ∧ (Z.of_nat (length options) ≤ v → i = Z.of_nat (length options) - 1)%Z).
Proof.
  intros Ho Hsel.
  assert (Hn : (0 < Z.of_nat (length options))%Z).
  { destruct options; [done|]. cbn [length]. lia. }
  assert (Hi : (0 ≤ i < Z.of_nat (length options))%Z).
  { unfold QRStudio._select_from_menu in Hsel. destruct msvcrt as [teclas|].
    - eapply menu_teclas_rango; [exact Hn | | exact Hsel]. lia.
    - by eapply menu_consola_rango. }
  split_and!; [lia.. | |].
  - apply lookup_lt_is_Some. lia.
  - intros linea resto v -> -> Hd Hv.
    cbn [QRStudio._select_from_menu QRStudio.menu_consola] in Hsel.
    cbv zeta in Hsel. rewrite Hd, Hv in Hsel. injection Hsel as <-. lia.
Qed.

(** X16 for a menu of four options: "9" typed at the console chooses the
    last one. *)
Lemma menu_indice_valido_witness :
  (0 ≤ 3 < Z.of_nat (length ["Generar QR"; "Leer QR"; "Ayuda"; "Salir"]))%Z
  ∧ is_Some (["Generar QR"; "Leer QR"; "Ayuda"; "Salir"] !! Z.to_nat 3).
Proof.
  destruct (@menu_indice_valido entrada_ascii "Menu"
              ["Generar QR"; "Leer QR"; "Ayuda"; "Salir"] None [" 9 "] 3)
    as (Hi & Hs & _).
  - discriminate.
  - vm_compute. reflexivity.
  - split; [exact Hi | exact Hs].
Defined.

(** X17. The arrow keys of the menu go round. With [msvcrt] and a list of
    [n] options that is not empty, pressing the down arrow [k] times and
    then Enter chooses option [k mod n], and pressing the up arrow [k]
    times and then Enter chooses option [(-k) mod n]: one step up from the
    first option is the last one, and [n] steps either way come back to
    the first. With an empty list an arrow key raises ZeroDivisionError,
    and Enter returns 0, which is no index of the list. *)
Theorem menu_flechas `{QRStudio.Entrada} (title : string)
    (options : list string) (stdin : list string) (k : nat) :
  (options ≠ [] →
   QRStudio._select_from_menu title options
     (Some (veces k tecla_abajo ++ tecla_enter)) stdin
   = QRStudio.Elegida (Z.of_nat k `mod` Z.of_nat (length options))%Z
   ∧ QRStudio._select_from_menu title options
       (Some (veces k tecla_arriba ++ tecla_enter)) stdin
     = QRStudio.Elegida ((- Z.of_nat k) `mod` Z.of_nat (length options))%Z
   ∧ QRStudio._select_from_menu title options
       (Some (tecla_arriba ++ tecla_enter)) stdin
     = QRStudio.Elegida (Z.of_nat (length options) - 1)%Z
   ∧ QRStudio._select_from_menu title options
       (Some (veces (length options) tecla_abajo ++ tecla_enter)) stdin
     = QRStudio.Elegida 0%Z)
  ∧ (options = [] →
     (∀ resto, QRStudio._select_from_menu title options
                 (Some (tecla_abajo ++ resto)) stdin
               = QRStudio.Falla QRStudio.ZeroDivisionError)
     ∧ (∀ resto, QRStudio._select_from_menu title options
                   (Some (tecla_arriba ++ resto)) stdin
                 = QRStudio.Falla QRStudio.ZeroDivisionError)
     ∧ (∀ resto, QRStudio._select_from_menu title options
                   (Some (tecla_enter ++ resto)) stdin
                 = QRStudio.Elegida 0%Z)).
Proof.
  split.
  - intros Ho.
    assert (Hn : (0 < Z.of_nat (length options))%Z).
    { destruct options; [done|]. cbn [length]. lia. }
    set (n := Z.of_nat (length options)) in *.
    assert (Habajo : ∀ j, QRStudio._select_from_menu title options
                            (Some (veces j tecla_abajo ++ tecla_enter)) stdin
                          = QRStudio.Elegida (Z.of_nat j `mod` n)%Z).
    { intros j. cbn [QRStudio._select_from_menu]. fold n.
      rewrite menu_teclas_abajo by done. destruct j as [|j].
      - by rewrite Z.mod_0_l by lia.
      - by rewrite Z.add_0_l. }
    assert (Harriba : ∀ j, QRStudio._select_from_menu title options
                             (Some (veces j tecla_arriba ++ tecla_enter)) stdin
                           = QRStudio.Elegida ((- Z.of_nat j) `mod` n)%Z).
    { intros j. cbn [QRStudio._select_from_menu]. fold n.
      rewrite menu_teclas_arriba by done. destruct j as [|j].
      - by rewrite Z.mod_0_l by lia.
      - by rewrite Z.sub_0_l. }
    split_and!.
    + apply Habajo.
    + apply Harriba.
    + pose proof (Harriba 1) as H1. cbn [veces] in H1.
      rewrite app_nil_r in H1. rewrite H1. f_equal.
      change (- Z.of_nat 1)%Z with (-1)%Z.
      rewrite <- (Z.mod_add _ 1) by lia.
      rewrite Z.mod_small by lia. lia.
    + rewrite Habajo. fold n. by rewrite Z.mod_same by lia.
  - intros ->. split_and!; intros resto; reflexivity.
Qed.

(** X17 for the menu of four options: five steps down is one step down. *)
Lemma menu_flechas_witness :
  @QRStudio._select_from_menu entrada_ascii "Menu"
    ["Generar QR"; "Leer QR"; "Ayuda"; "Salir"]
    (Some (veces 5 tecla_abajo ++ tecla_enter)) []
  = QRStudio.Elegida (5 `mod` 4)%Z.
Proof.
  apply (@menu_flechas entrada_ascii "Menu"
           ["Generar QR"; "Leer QR"; "Ayuda"; "Salir"] [] 5).
  discriminate.
Defined.

(** ** The list of logos *)

Section ordenar.
Context {A : Type} (clave : A → string).

Lemma insertar_Permutation (x : A) (l : list A) :
  QRStudio.insertar clave x l ≡ₚ x :: l.
Proof.
  induction l as [|y l IH]; [done|]. cbn [QRStudio.insertar].
  destruct (String.leb _ _); [done|]. by rewrite IH, Permutation_swap.
Qed.

Lemma sorted_Permutation (l : list A) : QRStudio.sorted clave l ≡ₚ l.
Proof.
  induction l as [|x l IH]; [done|].
  cbn [QRStudio.sorted foldr]. rewrite insertar_Permutation.
  by f_equiv.
Qed.

Lemma insertar_HdRel (a x : A) (l : list A) :
  String.leb (clave a) (clave x) = true →
  HdRel (λ p q, String.leb (clave p) (clave q) = true) a l →
  HdRel (λ p q, String.leb (clave p) (clave q) = true) a
    (QRStudio.insertar clave x l).
Proof.
  intros Hax Hl. destruct l as [|y l]; cbn [QRStudio.insertar].
  - by constructor.
  - destruct (String.leb (clave x) (clave y)); [by constructor|].
    constructor. by inversion Hl.
Qed.

Lemma insertar_Sorted (x : A) (l : list A) :
  Sorted (λ p q, String.leb (clave p) (clave q) = true) l →
  Sorted (λ p q, String.leb (clave p) (clave q) = true)
    (QRStudio.insertar clave x l).
Proof.
  induction 1 as [|y l Hl IH Hy]; cbn [QRStudio.insertar].
  - by repeat constructor.
  - destruct (String.leb (clave x) (clave y)) eqn:Hxy.
    + constructor; [by constructor | by constructor].
    + constructor; [exact IH|]. apply insertar_HdRel; [|exact Hy].
      destruct (String.leb_total (clave x) (clave y)); congruence.
Qed.

Lemma sorted_Sorted (l : list A) :
  Sorted (λ p q, String.leb (clave p) (clave q) = true) (QRStudio.sorted clave l).
Proof.
  induction l as [|x l IH]; [constructor|].
  cbn [QRStudio.sorted foldr]. by apply insertar_Sorted.
Qed.

End ordenar.

Lemma filtrar_puro (cond : Path → M bool) (f : Path → bool) (l : list Path)
    (w : mundo) :
  (∀ p, cond p w = Normal (f p) w) →
  QRStudio.filtrar cond l w = Normal (filter (λ p, f p = true) l) w.
Proof.
  intros Hc. induction l as [|p l IH]; [reflexivity|].
  cbn [QRStudio.filtrar]. rewrite bind_eq, Hc. cbv beta iota.
  rewrite bind_eq, IH. cbv beta iota. cbv [ret]. rewrite filter_cons.
  destruct (f p); [by rewrite decide_True | by rewrite decide_False].
Qed.

(** X18. [_list_logo_files] reads the folder and changes nothing. Over a
    folder that is a directory it returns exactly the regular files
    directly in it whose lowercased suffix is one of ".png", ".jpg",
    ".jpeg", ".webp", ".svg", each once, in the order of their lowercased
    names. Over a path that is missing or is a regular file it raises
    FileNotFoundError or NotADirectoryError. *)
Theorem logos_listados `{Python} (logo_dir : Path) (w : mundo) :
  match arbol w !! logo_dir with
  | Some (Directorio _) =>
      ∃ l, QRStudio._list_logo_files logo_dir w = Normal l w
         ∧ (∀ p, p ∈ l ↔ p ∈ hijos (arbol w) logo_dir
                         ∧ es_archivo_en (arbol w) p = true
                         ∧ str_lower (suffix (name p)) ∈ QRStudio.EXTENSIONES_LOGO)
         ∧ NoDup l
         ∧ Sorted (λ p q, String.leb (str_lower (name p)) (str_lower (name q))
                          = true) l
  | Some (Archivo _ _) =>
      QRStudio._list_logo_files logo_dir w = Lanza (NotADirectoryError logo_dir) w
  | None =>
      QRStudio._list_logo_files logo_dir w = Lanza (FileNotFoundError logo_dir) w
  end.
Proof.
  unfold QRStudio._list_logo_files. rewrite bind_eq. unfold iterdir.
  destruct (arbol w !! logo_dir) as [[m|f d]|]; [|reflexivity..].
  cbv beta iota. rewrite bind_eq.
  set (es_logo := λ p : Path,
         es_archivo_en (arbol w) p
         && bool_decide (str_lower (suffix (name p)) ∈ QRStudio.EXTENSIONES_LOGO)).
  rewrite (filtrar_puro _ es_logo).
  2: { intros p. rewrite bind_eq. unfold is_file, es_logo, es_archivo_en.
       by destruct (arbol w !! p) as [[]|]. }
  cbv beta iota. cbv [ret]. eexists. split; [reflexivity|].
  set (l := filter _ _).
  assert (Hl : ∀ p, p ∈ l ↔ p ∈ hijos (arbol w) logo_dir
                          ∧ es_archivo_en (arbol w) p = true
                          ∧ str_lower (suffix (name p)) ∈ QRStudio.EXTENSIONES_LOGO).
  { intros p. unfold l. rewrite list_elem_of_filter. unfold es_logo.
    rewrite andb_true_iff, bool_decide_eq_true. tauto. }
  split_and!.
  - intros p. rewrite sorted_Permutation. apply Hl.
  - rewrite sorted_Permutation. apply NoDup_filter, NoDup_hijos.
  - apply sorted_Sorted.
Qed.

(** ** The event handler is as careful as the sweep *)

(** X19. What the event handler of the watch script does for a path that
    is not a directory: it returns normally, and whether the relocation
    behind it completed or failed, no regular file other than the log was
    lost and none was invented: the regular files hold afterwards the
    contents and dates they held, or those and one more copy of one of
    them. The copy is there only when the file is locked: it was copied to
    its new place and could not be removed from the old one; for a file
    that is not locked the regular files hold exactly what they held. The
    log only grew, and, for a path in the downloads folder, nothing outside
    that folder changed except that a missing ancestor of it may have been
    created. *)
Theorem manejador_cuidadoso `{Python} (ruta : Path) (w : mundo) :
  es_dir_en (arbol w) ruta = false →
  ∃ w', Descargas._procesar_archivo_nuevo ruta w = Normal tt w'
    ∧ igual_o_una_copia [Descargas.FICHERO_LOG] (arbol w) (arbol w')
    ∧ (ruta ∉ bloqueados w →
       contenidos [Descargas.FICHERO_LOG] (arbol w')
       ≡ₚ contenidos [Descargas.FICHERO_LOG] (arbol w))
    ∧ (∃ s, contenido_log w' = contenido_log w +:+ s)
    ∧ (Descargas.CARPETA_DESCARGAS `prefix_of` ruta →
       ∀ q, ¬ Descargas.CARPETA_DESCARGAS `prefix_of` q →
         arbol w' !! q = arbol w !! q
         ∨ (arbol w !! q = None ∧ q `prefix_of` Descargas.CARPETA_DESCARGAS
            ∧ ∃ f, arbol w' !! q = Some (Directorio f))).
Proof.
  intros Hdir. unfold Descargas._procesar_archivo_nuevo.
  case_bool_decide as Hlog.
  { exists w.
    split_and!; [done | by left | done | by exists ""; rewrite app_vacia_r |].
    intros _. apply intacto_refl. }
  destruct (Descargas.es_temporal ruta).
  { exists w.
    split_and!; [done | by left | done | by exists ""; rewrite app_vacia_r |].
    intros _. apply intacto_refl. }
  rewrite bind_eq. unfold time_sleep, ret. cbv beta iota.
  rewrite try_except_eq.
  pose proof (descargas_mover_contenidos ruta w Hdir Hlog) as Hc.
  pose proof (descargas_mover_crece ruta w Hdir Hlog) as Hg.
  pose proof (λ Hr, descargas_mover_intacto ruta w Hr Hdir Hlog) as Hi.
  destruct (Descargas.mover_y_organizar ruta w) as [[] w'|e w'|]; [| |done].
  - exists w'. split_and!; [done | by left | done | apply Hg | exact Hi].
  - rewrite print_eq. eexists. split; [reflexivity|].
    cbn [arbol con_linea]. split_and!; [| | apply Hg | exact Hi].
    + destruct Hc as [Hc | (_ & x & Hx & Hc)]; [by left|].
      right. by exists x.
    + intros Hlibre. by destruct Hc as [Hc | (Hb & _)].
Qed.

(** X19 for "report.pdf" of [mundo_uno]. *)
Lemma manejador_cuidadoso_witness :
  ∃ w', @Descargas._procesar_archivo_nuevo python_ascii
          (descargas // "report.pdf") mundo_uno = Normal tt w'
      ∧ contenidos [@Descargas.FICHERO_LOG python_ascii] (arbol w')
        ≡ₚ contenidos [@Descargas.FICHERO_LOG python_ascii] (arbol mundo_uno).
Proof.
  destruct (@manejador_cuidadoso python_ascii (descargas // "report.pdf")
              mundo_uno) as (w' & Hrun & _ & Hc & _).
  - vm_compute. reflexivity.
  - exists w'. split; [exact Hrun|]. apply Hc.
    apply (bool_decide_unpack _). vm_compute. exact I.
Defined.

(** ** What a dry run announces *)

Section anuncios.
Context `{Python}.

Lemma destino_para_archivo_arbol (a base : Path) (w w1 : mundo) (cd : Path) :
  arbol w1 !! a = arbol w !! a →
  Typer.destino_para_archivo a base w1 = Normal cd w1 →
  Typer.destino_para_archivo a base w = Normal cd w.
Proof.
  intros Ha. unfold Typer.destino_para_archivo. rewrite !bind_eq.
  unfold stat_fecha. rewrite Ha. destruct (arbol w !! a) as [n|]; [|done].
  case_bool_decide; [|done].
  cbv beta iota. rewrite !bind_eq. unfold indice. cbv zeta.
  destruct (_ <? 0)%Z; [done|].
  destruct (Typer.MESES_ES !! _) as [mes|]; [|done].
  cbv beta iota. cbv [ret]. by intros [= <-].
Qed.

Lemma primero_libre_unico (cd a : Path) (w w1 : mundo) (n n' : nat) :
  (∀ j, arbol w1 !! intento cd a j = arbol w !! intento cd a j) →
  arbol w1 !! intento cd a n = None →
  (∀ j, j < n → is_Some (arbol w1 !! intento cd a j)) →
  arbol w !! intento cd a n' = None →
  (∀ j, j < n' → is_Some (arbol w !! intento cd a j)) →
  n' = n.
Proof.
  intros Hsame Hn Hmin Hn' Hmin'.
  destruct (lt_eq_lt_dec n n') as [[Hlt|Heq]|Hgt]; [|done|].
  - destruct (Hmin' n Hlt) as [x Hx]. rewrite <- Hsame in Hx. congruence.
  - destruct (Hmin n' Hgt) as [x Hx]. rewrite Hsame in Hx. congruence.
Qed.

Lemma simulacion_para_cada (carpeta : Path) (w : mundo) (l : list Path) :
  (∀ q, q ∈ l → is_Some (arbol w !! q)) →
  ∀ c w1 c' w2,
    (∀ q x, arbol w !! q = Some x → arbol w1 !! q = Some x) →
    (∀ q, 4 + length carpeta < length q → arbol w1 !! q = arbol w !! q) →
    para_cada (Typer.cuerpo carpeta true) l c w1 = Normal c' w2 →
    ∃ lineas,
      salida w2 = salida w1 ++ lineas
      ∧ Forall2 (λ a linea, ∃ d, previsto carpeta w a = Some d
                                 ∧ linea = linea_simular a d)
          (filter (λ p, trasladable_typer w p = true) l) lineas.
Proof.
  induction l as [|a l IH]; intros Hpres c w1 c' w2 Hcons Hlargo Hrun.
  - cbv [para_cada ret] in Hrun. injection Hrun as _ <-.
    exists []. split; [by rewrite app_nil_r | constructor].
  - cbn [para_cada] in Hrun. rewrite bind_eq in Hrun.
    destruct (Typer.cuerpo carpeta true a c w1) as [c1 w1'|e w1'|] eqn:Ea;
      [|done..].
    assert (Ha : arbol w1 !! a = arbol w !! a).
    { destruct (Hpres a (list_elem_of_here _ _)) as [x Hx].
      rewrite Hx. by apply Hcons. }
    assert (Hpres' : ∀ q, q ∈ l → is_Some (arbol w !! q))
      by (intros q Hq; by apply Hpres, list_elem_of_further).
    rewrite filter_cons.
    destruct (trasladable_typer w a) eqn:Htr.
    2: { rewrite typer_cuerpo_no_elegible in Ea.
         - injection Ea as <- <-. rewrite decide_False by done.
           by apply (IH Hpres' c w1 c' w2).
         - intros Hel%trasladable_typer_spec.
           rewrite (trasladable_typer_igual w1 w) in Hel by done. congruence. }
    rewrite decide_True by done.
    assert (Hel : trasladable_typer w1 a = true)
      by (by rewrite (trasladable_typer_igual w1 w)).
    apply trasladable_typer_spec in Hel as (f & d & Hn & Ht).
    destruct (destino_para_archivo_casos a carpeta w1)
      as [(e & He) | (x1 & x2 & x3 & x4 & Hd)].
    { rewrite (typer_cuerpo_destino_lanza _ _ _ _ _ e) in Ea;
        [done | by exists f, d | done]. }
    set (cd := carpeta // x1 // x2 // x3 // x4) in *.
    destruct (typer_cuerpo_desde carpeta a cd true c w1 f d Hn Ht Hd)
      as [(e & _ & Hl) | (wm & n & Hm & Hfree & Hmin & Heq)]; [congruence|].
    rewrite Heq in Ea. cbv zeta in Ea. injection Ea as <- <-.
    destruct (mkdir_parents_casos cd w1)
      as [(e & He & _) | (wm' & Hm' & _ & Hsal & _ & Hlk)]; [congruence|].
    assert (wm' = wm) as -> by congruence.
    assert (Hlen : length cd = 4 + length carpeta).
    { unfold cd. rewrite !length_barra. lia. }
    edestruct (IH Hpres') as (lineas & Hs & Hf); [| |exact Hrun|].
    { intros q x Hq. cbn [arbol con_linea]. rewrite Hlk.
      by rewrite (Hcons q x Hq). }
    { intros q Hq. cbn [arbol con_linea]. rewrite Hlk, (Hlargo q Hq).
      destruct (arbol w !! q); [done|]. rewrite decide_False; [done|].
      intros [_ Hp%prefix_length]%prefijos_spec. lia. }
    exists (linea_simular a (intento cd a n) :: lineas). split.
    + rewrite Hs. cbn [salida con_linea]. rewrite Hsal.
      by rewrite <- app_assoc.
    + constructor; [|exact Hf]. exists (intento cd a n). split; [|done].
      unfold previsto.
      rewrite (destino_para_archivo_arbol a carpeta w w1 cd Ha Hd).
      destruct (destino_libre_primero cd a w) as (n' & -> & Hfree' & Hmin').
      f_equal. f_equal.
      apply (primero_libre_unico cd a w w1); try done.
      intros j. apply Hlargo. rewrite length_intento. lia.
Qed.

End anuncios.

(** X20. What a dry run of [organizar] prints when it completes: after
    its heading, one line "[SIMULAR] file -> place" for each regular file
    of its listing that is not a partial download, in the order of the
    listing, and then its two closing lines. The place announced for a file
    is the one the file would get if it were relocated first, from the tree
    as it was before the run: the places of the files announced earlier
    are not taken into account. *)
Theorem simulacion_anuncia `{Python} (carpeta : Path) (recursivo : bool)
    (w : mundo) :
  match Typer.organizar carpeta recursivo true w with
  | Normal c w' =>
      ∃ lineas,
        salida w'
        = salida w
          ++ ["Carpeta base: " +:+ str_ruta carpeta;
              "Modo: simulación (no se moverán archivos)"]
          ++ (if recursivo then ["Recorrido: recursivo (incluye subcarpetas)"]
              else [])
          ++ lineas
          ++ [nl +:+ "Archivos analizados: " +:+ pretty c.1;
              "Movimientos simulados: " +:+ pretty c.1]
        ∧ Forall2 (λ a linea, ∃ d, previsto carpeta w a = Some d
                                   ∧ linea = linea_simular a d)
            (filter (λ p, trasladable_typer w p = true)
               (listado recursivo (arbol w) carpeta))
            lineas
  | Lanza _ _ => True
  | Agotado => False
  end.
Proof.
  unfold Typer.organizar, Typer.echo.
  rewrite bind_eq, print_eq. cbv beta iota. rewrite bind_eq, print_eq.
  cbv beta iota. rewrite bind_eq.
  set (w1 := con_linea _ (con_linea _ w)).
  assert (∃ w3, (if recursivo then print "Recorrido: recursivo (incluye subcarpetas)"
                 else ret tt) w1 = Normal tt w3
              ∧ arbol w3 = arbol w
              ∧ salida w3
                = salida w
                  ++ ["Carpeta base: " +:+ str_ruta carpeta;
                      "Modo: simulación (no se moverán archivos)"]
                  ++ (if recursivo
                      then ["Recorrido: recursivo (incluye subcarpetas)"]
                      else []))
    as (w3 & -> & Hw3 & Hs3).
  { destruct recursivo; eexists; (split; [reflexivity|]); (split; [done|]);
      cbn [salida con_linea w1 print ret]; by rewrite <- !app_assoc. }
  cbv beta iota. rewrite bind_eq.
  assert (Hlist : match Typer.iterar_archivos carpeta recursivo w3 with
                  | Normal l w' => l = listado recursivo (arbol w) carpeta ∧ w' = w3
                  | Lanza _ _ => True
                  | Agotado => False
                  end).
  { unfold Typer.iterar_archivos, listado.
    destruct recursivo; unfold rglob, iterdir; rewrite Hw3; [done|].
    by destruct (arbol w !! carpeta) as [[m|f d]|]. }
  destruct (Typer.iterar_archivos carpeta recursivo w3) as [l w'|e w'|];
    [|done..].
  destruct Hlist as [-> ->]. rewrite bind_eq.
  pose proof (termina_para_cada (Typer.cuerpo carpeta true)
                (listado recursivo (arbol w) carpeta) (0, 0)
                (λ a s', typer_cuerpo_termina carpeta true a s') w3) as Hter.
  destruct (para_cada _ _ (0, 0) w3) as [c w4|e w4|] eqn:Hrun; [|done..].
  destruct (simulacion_para_cada carpeta w _
              (listado_presentes recursivo (arbol w) carpeta)
              (0, 0) w3 c w4) as (lineas & Hs4 & Hf);
    [by intros q x; rewrite Hw3 | by intros q _; rewrite Hw3 | exact Hrun |].
  rewrite bind_eq, print_eq. cbv beta iota. rewrite bind_eq, print_eq.
  cbv beta iota. cbv [ret].
  exists lineas. split; [|exact Hf].
  cbn [salida con_linea]. rewrite Hs4, Hs3. by rewrite <- !app_assoc.
Qed.

(** The recursive dry run over [mundo_fotos] announces the same place for
    the two files named "photo.jpg"; the real run gives the second one
    "photo_1.jpg" (see [dos_fotos]). *)
Example simulacion_repite_destino :
  let r := @Typer.organizar python_ascii descargas true true mundo_fotos in
  let lugar := "/u/Downloads/imagenes/2024/marzo/1-15/photo.jpg" in
  valor r = Some (2, 0)
  ∧ salida (mundo_final mundo_fotos r) !! 3
    = Some ("[SIMULAR] /u/Downloads/photo.jpg -> " +:+ lugar)
  ∧ salida (mundo_final mundo_fotos r) !! 4
    = Some ("[SIMULAR] /u/Downloads/viaje/photo.jpg -> " +:+ lugar).
Proof. intros r lugar. split_and!; vm_compute; reflexivity. Qed.

(** ** A sweep of a folder in good order *)

Lemma prefijo_de_un_nivel (p q : Path) (a b c d : string) :
  q `prefix_of` p // a // b // c // d →
  p `prefix_of` q →
  length q = 1 + length p →
  q = p // a.
Proof.
  intros Hq [k ->] Hlen. rewrite length_app in Hlen.
  unfold barra in Hq. rewrite <- !app_assoc in Hq.
  apply prefix_app_inv in Hq. cbn [app] in Hq.
  destruct k as [|x [|y k]]; cbn [length] in Hlen; try lia.
  destruct Hq as [r Hr]. by injection Hr as <- _.
Qed.

Lemma length_parent_le (q : Path) : length q ≤ 1 + length (parent q).
Proof.
  destruct (decide (q = [])) as [->|Hq]; [cbn; lia|].
  rewrite (length_parent q Hq). lia.
Qed.

Lemma sin_estorbos_nuevos (carpeta : Path) (salvo : list Path) (w w' : mundo) :
  sin_estorbos carpeta (arbol w) →
  nuevos salvo carpeta w w' →
  (∀ q, q ∈ salvo →
     (q ∉ prefijos carpeta)
     ∧ length q = 1 + length carpeta ∧ name q ∉ categorias) →
  sin_estorbos carpeta (arbol w').
Proof.
  intros Hw Hn Hs q n Hq Hfile.
  destruct (decide (q ∈ salvo)) as [Hin|Hin].
  { destruct (Hs q Hin) as (H1 & H2 & H3). split; [done|]. by intros _ _. }
  destruct (Hn q n Hin Hq) as [Hold|[Hd|Hlen]].
  - by apply (Hw q n Hold).
  - congruence.
  - split.
    + intros [_ Hp%prefix_length]%prefijos_spec. lia.
    + intros _ ?. lia.
Qed.

Lemma movibles_nuevos (carpeta : Path) (salvo : list Path) (w w' : mundo) :
  movibles carpeta salvo w →
  nuevos salvo carpeta w w' →
  bloqueados w' = bloqueados w →
  movibles carpeta salvo w'.
Proof.
  intros Hw Hn Hb q n Hq Hp Hs Hfile. rewrite Hb.
  destruct (Hn q n Hs Hq) as [Hold|[Hd|Hlen]].
  - by apply (Hw q n Hold).
  - congruence.
  - pose proof (length_parent_le q) as Hle. rewrite Hp in Hle. lia.
Qed.

Section en_orden.
Context `{Python}.

Lemma descargas_categoria_en (s : string) :
  Descargas.categoria_para_extension s ∈ categorias.
Proof.
  rewrite descargas_primera. apply primera_en_categorias.
  apply (bool_decide_unpack _). vm_compute. exact I.
Qed.

Lemma typer_categoria_en (s : string) :
  Typer.categoria_para_extension s ∈ categorias.
Proof.
  rewrite typer_primera. apply primera_en_categorias.
  apply (bool_decide_unpack _). vm_compute. exact I.
Qed.

Lemma mkdir_sin_estorbos (carpeta : Path) (cat a b c : string) (w : mundo) :
  cat ∈ categorias →
  sin_estorbos carpeta (arbol w) →
  ∃ w1, mkdir_parents (carpeta // cat // a // b // c) w = Normal tt w1.
Proof.
  intros Hcat Hw.
  destruct (mkdir_parents_casos (carpeta // cat // a // b // c) w)
    as [(e & _ & q & Hq & Hfile) | (w1 & Hm & _)]; [exfalso | by exists w1].
  apply prefijos_spec in Hq as [Hq0 Hq].
  unfold es_archivo_en in Hfile.
  destruct (arbol w !! q) as [[m|f d]|] eqn:Hn; try done.
  destruct (Hw q _ Hn eq_refl) as [Hno Hd].
  assert (Hcd : carpeta `prefix_of` carpeta // cat // a // b // c).
  { unfold barra. rewrite <- !app_assoc. by apply prefix_app_r. }
  destruct (prefix_weak_total _ _ _ Hq Hcd) as [Hqc|Hcq].
  - apply Hno. by apply prefijos_spec.
  - destruct (Hd Hcq) as [Hlen Hname].
    { apply prefix_length in Hq. rewrite !length_barra in Hq. lia. }
    rewrite (prefijo_de_un_nivel _ _ _ _ _ _ Hq Hcq Hlen), name_barra in Hname.
    done.
Qed.

Lemma typer_cuerpo_exito (carpeta a : Path) (dry_run : bool) (c : nat * nat)
    (w : mundo) :
  sin_estorbos carpeta (arbol w) →
  movibles carpeta [] w →
  parent a = carpeta →
  ∃ c1 w1, Typer.cuerpo carpeta dry_run a c w = Normal c1 w1.
Proof.
  intros Hse Hmv Hpa. destruct (trasladable_typer w a) eqn:Htr.
  2: { exists c, w. apply typer_cuerpo_no_elegible.
       intros Hel%trasladable_typer_spec. congruence. }
  apply trasladable_typer_spec in Htr as (f & d & Hn & Ht).
  destruct (Hmv a _ Hn Hpa (not_elem_of_nil _) eq_refl) as [Hf Hb].
  destruct (destino_para_archivo_ok a carpeta w _ Hn Hf) as (mes & _ & Hd).
  cbn [mtime] in Hd.
  destruct (mkdir_sin_estorbos carpeta
              (Typer.categoria_para_extension (str_lower (suffix (name a))))
              (pretty (year f)) mes (Typer.quincena_de f) w
              (typer_categoria_en _) Hse) as [w1 Hm].
  destruct (typer_cuerpo_desde carpeta a _ dry_run c w f d Hn Ht Hd)
    as [(e & He & _) | (w1' & n & _ & _ & _ & ->)]; [congruence|].
  cbv zeta. destruct dry_run; [by eexists _, _|].
  rewrite bool_decide_eq_false_2 by done. by eexists _, _.
Qed.

Lemma typer_barrido_exito (carpeta : Path) (dry_run : bool) (l : list Path) :
  (∀ a, a ∈ l → parent a = carpeta) →
  ∀ c w,
    sin_estorbos carpeta (arbol w) →
    movibles carpeta [] w →
    ∃ c' w', para_cada (Typer.cuerpo carpeta dry_run) l c w = Normal c' w'.
Proof.
  induction l as [|a l IH]; intros Hl c w Hse Hmv; [by exists c, w|].
  destruct (typer_cuerpo_exito carpeta a dry_run c w Hse Hmv)
    as (c1 & w1 & Ea); [apply Hl, list_elem_of_here|].
  pose proof (typer_cuerpo_efecto carpeta a dry_run c w) as Hef.
  rewrite Ea in Hef. destruct Hef as (_ & Hnv & Hb & _).
  destruct (IH (λ b Hb', Hl b (list_elem_of_further _ _ _ Hb')) c1 w1)
    as (c' & w' & Hrun).
  - apply (sin_estorbos_nuevos carpeta [] w); [done | done |].
    intros q Hq. by apply elem_of_nil in Hq.
  - by apply (movibles_nuevos carpeta [] w).
  - exists c', w'. cbn [para_cada]. by rewrite bind_eq, Ea.
Qed.

Lemma descargas_mover_exito (ruta : Path) (w : mundo) (f : fecha) (d : string) :
  sin_estorbos Descargas.CARPETA_DESCARGAS (arbol w) →
  arbol w !! ruta = Some (Archivo f d) →
  fecha_valida f →
  ruta ∉ bloqueados w →
  ruta ≠ Descargas.FICHERO_LOG →
  ∃ w', Descargas.mover_y_organizar ruta w = Normal tt w'.
Proof.
  intros Hse Hn Hf Hb Hlog.
  destruct (descargas_mover_archivo ruta w f d Hn Hf Hlog) as (mes & _ & Hcasos).
  cbv zeta in Hcasos.
  destruct (mkdir_sin_estorbos Descargas.CARPETA_DESCARGAS
              (Descargas.categoria_para_extension (str_lower (suffix (name ruta))))
              (pretty (year f)) mes (Descargas.quincena_de f) w
              (descargas_categoria_en _) Hse) as [w1 Hm].
  destruct Hcasos as [(e & He & _) | (w1' & n & _ & _ & _ & ->)].
  { unfold Descargas.CARPETA_ORDENADA in He. congruence. }
  rewrite bool_decide_eq_false_2 by done. by eexists.
Qed.

Lemma descargas_cuerpo_exito (ruta : Path) (c : nat * nat) (w : mundo) :
  sin_estorbos Descargas.CARPETA_DESCARGAS (arbol w) →
  movibles Descargas.CARPETA_DESCARGAS [Descargas.FICHERO_LOG] w →
  parent ruta = Descargas.CARPETA_DESCARGAS →
  ∃ c1 w1, Descargas.cuerpo ruta c w = Normal c1 w1
         ∧ c1.2 + c.1 = c1.1 + c.2.
Proof.
  intros Hse Hmv Hpa.
  destruct (es_dir_en (arbol w) ruta) eqn:Hdir.
  { exists c, w. rewrite descargas_cuerpo_omitido by (by left). split; [done|lia]. }
  destruct (decide (ruta = Descargas.FICHERO_LOG)) as [Hlog|Hlog].
  { exists c, w. rewrite descargas_cuerpo_omitido by (by right; left).
    split; [done|lia]. }
  destruct (Descargas.es_temporal ruta) eqn:Ht.
  { exists c, w. rewrite descargas_cuerpo_omitido by (by right; right).
    split; [done|lia]. }
  assert (Hm : ∃ w', Descargas.mover_y_organizar ruta w = Normal tt w').
  { unfold es_dir_en in Hdir.
    destruct (arbol w !! ruta) as [[m|f d]|] eqn:Hn; [done| |].
    - destruct (Hmv ruta _ Hn Hpa) as [Hf Hb]; [|done|].
      { by intros ?%list_elem_of_singleton. }
      by apply (descargas_mover_exito ruta w f d).
    - exists w. by apply descargas_mover_ausente. }
  destruct Hm as [w' Hm].
  exists (S c.1, S c.2), w'. split; [|cbn [fst snd]; lia].
  unfold Descargas.cuerpo. rewrite bind_eq. unfold is_dir.
  fold (es_dir_en (arbol w) ruta). rewrite Hdir. cbv beta iota.
  rewrite bool_decide_eq_false_2 by done. rewrite Ht.
  by rewrite try_except_eq, bind_eq, Hm.
Qed.

Lemma log_no_estorba :
  ∀ q, q ∈ [Descargas.FICHERO_LOG] →
    (q ∉ prefijos Descargas.CARPETA_DESCARGAS)
    ∧ length q = 1 + length Descargas.CARPETA_DESCARGAS
    ∧ name q ∉ categorias.
Proof.
  intros q ->%list_elem_of_singleton. split_and!.
  - intros [_ Hp%prefix_length]%prefijos_spec.
    rewrite length_FICHERO_LOG in Hp. lia.
  - by rewrite length_FICHERO_LOG.
  - unfold Descargas.FICHERO_LOG. rewrite name_barra.
    apply (bool_decide_unpack _). vm_compute. exact I.
Qed.

Lemma descargas_barrido_exito (l : list Path) :
  (∀ a, a ∈ l → parent a = Descargas.CARPETA_DESCARGAS) →
  ∀ c w,
    sin_estorbos Descargas.CARPETA_DESCARGAS (arbol w) →
    movibles Descargas.CARPETA_DESCARGAS [Descargas.FICHERO_LOG] w →
    ∃ c' w', para_cada Descargas.cuerpo l c w = Normal c' w'
           ∧ c'.2 + c.1 = c'.1 + c.2.
Proof.
  induction l as [|a l IH]; intros Hl c w Hse Hmv.
  { exists c, w. split; [done|lia]. }
  destruct (descargas_cuerpo_exito a c w Hse Hmv)
    as (c1 & w1 & Ea & Hc1); [apply Hl, list_elem_of_here|].
  pose proof (descargas_cuerpo_efecto a c w) as Hef.
  rewrite Ea in Hef. destruct Hef as (_ & Hnv & Hb & _).
  destruct (IH (λ b Hb', Hl b (list_elem_of_further _ _ _ Hb')) c1 w1)
    as (c' & w' & Hrun & Hc').
  - apply (sin_estorbos_nuevos _ [Descargas.FICHERO_LOG] w); [done | done |].
    apply log_no_estorba.
  - by apply (movibles_nuevos _ [Descargas.FICHERO_LOG] w).
  - exists c', w'. split; [|lia]. cbn [para_cada]. by rewrite bind_eq, Ea.
Qed.

End en_orden.

(** X21. The sweep of the watch script over a folder in good order moves
    everything. When the downloads folder is a directory, no regular file
    sits where a directory has to be made, and every regular file directly
    in the folder other than the log has a date that [datetime] can hold
    (years 1 to 9999) and is not locked, then the sweep completes having moved as many files as it
    found, and no regular file other than the log and partial downloads is
    left directly in the folder. *)
Theorem barrido_en_orden_mueve_todo `{Python} (w : mundo) (m : fecha) :
  arbol w !! Descargas.CARPETA_DESCARGAS = Some (Directorio m) →
  sin_estorbos Descargas.CARPETA_DESCARGAS (arbol w) →
  movibles Descargas.CARPETA_DESCARGAS [Descargas.FICHERO_LOG] w →
  ∃ c w',
    Descargas.procesar_archivos_existentes w = Normal c w'
    ∧ c.2 = c.1
    ∧ ∀ q, q ∈ hijos (arbol w') Descargas.CARPETA_DESCARGAS →
           trasladable_descargas w' q = false.
Proof.
  intros Hc Hse Hmv.
  assert (Hrun : ∃ c w', Descargas.procesar_archivos_existentes w = Normal c w'
                       ∧ c.2 = c.1).
  { unfold Descargas.procesar_archivos_existentes.
    rewrite bind_eq, print_eq. cbv beta iota. rewrite bind_eq.
    set (w0 := con_linea _ w). unfold iterdir. cbn [arbol con_linea w0].
    rewrite Hc. cbv beta iota. rewrite bind_eq.
    destruct (descargas_barrido_exito
                (hijos (arbol w) Descargas.CARPETA_DESCARGAS)
                (λ a Ha, proj2 (proj1 (proj1 (hijos_spec _ _ _) Ha)))
                (0, 0) w0 Hse Hmv) as (c & w4 & -> & Hcc).
    cbn [fst snd] in Hcc.
    rewrite bind_eq, print_eq. cbv beta iota. cbv [ret].
    eexists c, _. split; [reflexivity | lia]. }
  destruct Hrun as (c & w' & Hrun & Hcc). exists c, w'.
  split; [exact Hrun|]. split; [exact Hcc|].
  apply procesar_normal_inv in Hrun as (w0 & w4 & m' & Hw0 & _ & Hpc & Hw1).
  rewrite <- Hw0 in Hpc, Hc.
  destruct (descargas_barrido_limpia _ _ _ _ _ Hc
              (λ a Ha, proj1 (proj1 (hijos_spec _ _ _) Ha))
              (λ q Hq _, Hq) Hpc) as (_ & _ & Hlimpio).
  intros q Hq. apply not_true_is_false. intros Hel%trasladable_descargas_spec.
  apply (Hlimpio (eq_sym Hcc) q); [by rewrite <- Hw1|].
  by apply (elegible_descargas_arbol w').
Qed.

(** X21 for [mundo_uno], whose downloads folder holds "report.pdf". *)
Lemma barrido_en_orden_mueve_todo_witness :
  ∃ c w', @Descargas.procesar_archivos_existentes python_ascii mundo_uno
          = Normal c w'
        ∧ c.2 = c.1.
Proof.
  destruct (@barrido_en_orden_mueve_todo python_ascii mundo_uno (Fecha 2024 3 1))
    as (c & w' & Hrun & Hcc & _).
  - vm_compute. reflexivity.
  - apply (bool_decide_unpack _). vm_compute. exact I.
  - apply (bool_decide_unpack _). vm_compute. exact I.
  - exists c, w'. split; [exact Hrun | exact Hcc].
Defined.

(** X22. The command line over a folder in good order never stops
    half-way. When the folder is a directory, no regular file sits where a
    directory has to be made, and every regular file directly in the folder
    has a date that [datetime] can hold (years 1 to 9999) and is not
    locked, then [organizar] without the recursive flag completes, as a
    real run and as a dry run. *)
Theorem organizar_en_orden_completa `{Python} (carpeta : Path)
    (dry_run : bool) (w : mundo) (m : fecha) :
  arbol w !! carpeta = Some (Directorio m) →
  sin_estorbos carpeta (arbol w) →
  movibles carpeta [] w →
  ∃ c w', Typer.organizar carpeta false dry_run w = Normal c w'.
Proof.
  intros Hc Hse Hmv. unfold Typer.organizar, Typer.echo.
  rewrite bind_eq, print_eq. cbv beta iota. rewrite bind_eq.
  set (w1 := con_linea _ w).
  assert (∃ w2, (if dry_run then print "Modo: simulación (no se moverán archivos)"
                 else ret tt) w1 = Normal tt w2
              ∧ arbol w2 = arbol w ∧ bloqueados w2 = bloqueados w)
    as (w2 & -> & Hw2 & Hb2)
    by (destruct dry_run; eexists; split_and!; reflexivity).
  cbv beta iota. rewrite bind_eq. cbv [ret]. cbv beta iota. rewrite bind_eq.
  unfold Typer.iterar_archivos, iterdir. rewrite Hw2, Hc.
  cbv beta iota. rewrite bind_eq.
  destruct (typer_barrido_exito carpeta dry_run (hijos (arbol w) carpeta)
              (λ a Ha, proj2 (proj1 (proj1 (hijos_spec _ _ _) Ha)))
              (0, 0) w2) as (c & w4 & ->).
  - by rewrite Hw2.
  - unfold movibles. by rewrite Hw2, Hb2.
  - rewrite bind_eq, print_eq. cbv beta iota. rewrite bind_eq.
    destruct dry_run; rewrite print_eq; cbv beta iota; cbv [ret];
      by eexists _, _.
Qed.

(** X22 for a real run over [mundo_uno]. *)
Lemma organizar_en_orden_completa_witness :
  ∃ c w', @Typer.organizar python_ascii descargas false false mundo_uno
          = Normal c w'.
Proof.
  apply (@organizar_en_orden_completa python_ascii descargas false mundo_uno
           (Fecha 2024 3 1)).
  - vm_compute. reflexivity.
  - apply (bool_decide_unpack _). vm_compute. exact I.
  - apply (bool_decide_unpack _). vm_compute. exact I.
Defined.
